(** * The binlog engine of td (tddb/td/db/binlog/Binlog.cpp)

    A shallow embedding of the event reader [detail::BinlogReader], of the
    key record [detail::AesCtrEncryptionEvent] and of the engine [Binlog],
    followed by the properties of the load, append, reindex and key
    protocols; and the equality of [Timestamp]
    (tdutils/td/utils/Time.cpp).

    Conventions.
    - Fixed-width integers are [Z] with the wrap-around written out
      ([wrap_int64], [wrap_uint64], [wrap_int32]).
    - A [double] is a binary64 number of the kernel ([float]).
    - Byte buffers ([Slice], [BufferSlice], [ChainBufferReader]) are
      [list byte]; a reader consumes from the head of the list.
    - A failed [CHECK], [LOG(FATAL)] or [.ensure()] ends the process: the
      operations of the engine run in the monad [Outcome], whose [Fatal]
      carries the failed condition.
    - Code of td that lies outside Binlog.cpp (file descriptors, crypto
      primitives, the event codec, the events processor) is reached through
      the interfaces [Platform], [Crypto], [Codec] and [EventsProcessor]. *)

From Stdlib Require Import ZArith QArith Lia Bool Floats.
From Stdlib.Strings Require Import Byte.
From stdpp Require Import base strings gmap list.

Open Scope Z_scope.

(** ** Machine integers and byte buffers *)

Abbreviation bytes := (list byte).

Definition wrap_uint64 (z : Z) : Z := z mod 2 ^ 64.
Definition wrap_int64 (z : Z) : Z := (z + 2 ^ 63) mod 2 ^ 64 - 2 ^ 63.
Definition wrap_int32 (z : Z) : Z := (z + 2 ^ 31) mod 2 ^ 32 - 2 ^ 31.

(** [Slice::size()], as a [size_t]. *)
Definition size (s : bytes) : Z := Z.of_nat (length s).

(** The first [n] bytes of a buffer and what is left behind them. *)
Definition head_bytes (n : Z) (s : bytes) : bytes := take (Z.to_nat n) s.
Definition tail_bytes (n : Z) (s : bytes) : bytes := drop (Z.to_nat n) s.

Definition byte_to_Z (b : byte) : Z := Z.of_N (Byte.to_N b).

Fixpoint le_to_Z (s : bytes) : Z :=
  match s with
  | [] => 0
  | b :: rest => byte_to_Z b + 256 * le_to_Z rest
  end.

(** Modelled from the spec: [TlParser::fetch_int] is not part of Binlog.cpp;
    the framing is little-endian, so the four bytes are read least
    significant first, as a signed 32-bit integer. *)
Definition fetch_int (s : bytes) : Z := wrap_int32 (le_to_Z (head_bytes 4 s)).

(** [static_cast<size_t>] of an [int32]: sign extension, then reduction
    modulo 2^64. *)
Definition size_t_of_int32 (z : Z) : Z := wrap_uint64 z.

(** ** Status and Result *)

Inductive ErrorCode := GenericError | WrongPassword.

(** [Status::Error(PSLICE() << message << tag(name, value))]: the message and
    the tagged values that follow it. *)
Inductive Status :=
| Status_OK
| Status_Error (code : ErrorCode) (message : string) (tags : list (string * Z)).

Definition is_error (s : Status) : bool :=
  match s with Status_OK => false | Status_Error _ _ _ => true end.

Inductive Result (T : Type) :=
| Ok (value : T)
| Err (error : Status).
Arguments Ok {T} value.
Arguments Err {T} error.

(** ** Process-level outcome of an operation *)

Inductive Outcome (A : Type) :=
| Done (a : A)
| Fatal (why : string)
| OutOfFuel.
Arguments Done {A} a.
Arguments Fatal {A} why.
Arguments OutOfFuel {A}.

#[global] Instance Outcome_ret : MRet Outcome := fun A a => Done a.
#[global] Instance Outcome_bind : MBind Outcome := fun A B f m =>
  match m with
  | Done a => f a
  | Fatal why => Fatal why
  | OutOfFuel => OutOfFuel
  end.

(** [CHECK(cond)] *)
Definition CHECK (cond : bool) (why : string) : Outcome unit :=
  if cond then Done tt else Fatal why.

(** ** Events *)

(** The attributes of [BinlogEvent] that Binlog.cpp reads or writes. *)
Record BinlogEvent := mkBinlogEvent {
  id_ : Z;
  type_ : Z;
  flags_ : Z;
  data_ : bytes;
  offset_ : Z;
  raw_event_ : bytes
}.

Definition event_set_flags (f : Z) (e : BinlogEvent) : BinlogEvent :=
  mkBinlogEvent (id_ e) (type_ e) f (data_ e) (offset_ e) (raw_event_ e).
Definition event_set_offset (o : Z) (e : BinlogEvent) : BinlogEvent :=
  mkBinlogEvent (id_ e) (type_ e) (flags_ e) (data_ e) o (raw_event_ e).

(** [BinlogEvent event;] *)
Definition BinlogEvent_default : BinlogEvent := mkBinlogEvent 0 0 0 [] 0 [].

(** Modelled from the spec: the size bounds of a framed record are declared
    in BinlogEvent.h; section 3 of the spec gives [MIN_EVENT_SIZE = 32] and
    [MAX_EVENT_SIZE = 1 << 24]. *)
Definition MIN_EVENT_SIZE : Z := 32.
Definition MAX_EVENT_SIZE : Z := Z.shiftl 1 24.

(** Modelled from the spec: [DbKey] is declared in td/db/DbKey.h; the spec
    speaks of password material that may be empty and of keys the caller
    declares to be raw bytes. *)
Inductive DbKeyType := DbKey_Empty | DbKey_Password | DbKey_RawKey.

Record DbKey := mkDbKey {
  DbKey_type : DbKeyType;
  DbKey_data : bytes
}.

Definition DbKey_is_empty (k : DbKey) : bool :=
  match DbKey_type k with DbKey_Empty => true | _ => false end.
Definition DbKey_is_raw_key (k : DbKey) : bool :=
  match DbKey_type k with DbKey_RawKey => true | _ => false end.

(** ** Interfaces to the code outside Binlog.cpp *)

(** The declarations of BinlogEvent.h and the serialisation helpers of
    tl_helpers.h that Binlog.cpp uses without defining them. *)
Class Codec := {
  (** [BinlogEvent::Flags] *)
  Flags_Rewrite : Z;
  Flags_Partial : Z;
  (** [BinlogEvent::ServiceTypes] *)
  ServiceTypes_Empty : Z;
  ServiceTypes_AesCtrEncryption : Z;
  (** [event->init(raw, check_crc)]: the status and the event as [init]
      leaves it. *)
  BinlogEvent_init : bytes -> bool -> BinlogEvent -> Status * BinlogEvent;
  (** [BinlogEvent::create_raw(id, type, flags, storer)] on the bytes the
      storer produces. *)
  BinlogEvent_create_raw : Z -> Z -> Z -> bytes -> bytes;
  (** [td::store] and [td::parse] of a [BufferSlice]; [parse] returns the
      value and the rest of the parser's input. *)
  tl_store : bytes -> bytes;
  tl_parse : bytes -> bytes * bytes
}.

(** [pbkdf2_sha256], [hmac_sha256] and the streaming AES-CTR state. *)
Class Crypto := {
  pbkdf2_sha256 : bytes -> bytes -> Z -> bytes;
  hmac_sha256 : bytes -> bytes -> bytes;
  AesCtrState : Type;
  AesCtrState_init : bytes -> bytes -> AesCtrState;
  AesCtrState_encrypt : AesCtrState -> bytes -> bytes * AesCtrState
}.

Inductive OpenFlag := Flag_Read | Flag_Write | Flag_Create | Flag_Truncate.

(** The file system, the descriptors of the process, the clock and the
    secure random generator: [FS] is the state of all of them. *)
Class Platform := {
  FS : Type;
  FileFd : Type;
  (** [stat(path)]: the size on success. *)
  stat : string -> FS -> Result Z;
  rename : string -> string -> FS -> Status * FS;
  unlink : string -> FS -> Status * FS;
  FileFd_open : string -> list OpenFlag -> FS -> Result FileFd * FS;
  FileFd_lock : FileFd -> FS -> Status * FS;
  (** read at most so many bytes at the position of the descriptor *)
  FileFd_read : FileFd -> Z -> FS -> Result bytes * FS;
  (** write a prefix of the buffer, return its length *)
  FileFd_write : FileFd -> bytes -> FS -> Result Z * FS;
  FileFd_sync : FileFd -> FS -> Status * FS;
  FileFd_seek : FileFd -> Z -> FS -> Status * FS;
  FileFd_truncate_to_current_position : FileFd -> Z -> FS -> Status * FS;
  FileFd_get_size : FileFd -> FS -> Z;
  FileFd_close : FileFd -> FS -> FS;
  Time_now_cached : FS -> Q;
  Random_secure_byte : FS -> byte * FS
}.

(** [detail::BinlogEventsProcessor] (BinlogEventsProcessor.h).  [for_each]
    hands the live events to its visitor by reference: [processor_events]
    is what the visitor sees, in order, and [processor_set_events] puts back
    what the visitor left of them. *)
Class EventsProcessor := {
  BinlogEventsProcessor : Type;
  BinlogEventsProcessor_new : BinlogEventsProcessor;
  (** [add_event(std::move(event))]: what is left of the argument, and the
      processor. *)
  processor_add_event :
    BinlogEvent -> BinlogEventsProcessor ->
    Outcome (BinlogEvent * BinlogEventsProcessor);
  processor_events : BinlogEventsProcessor -> list BinlogEvent;
  processor_set_events :
    list BinlogEvent -> BinlogEventsProcessor -> BinlogEventsProcessor;
  processor_offset : BinlogEventsProcessor -> Z;
  processor_total_raw_events_size : BinlogEventsProcessor -> Z;
  processor_last_id : BinlogEventsProcessor -> Z;
  (** a visitor that changes no event leaves the processor as it was *)
  processor_set_events_same :
    forall p, processor_set_events (processor_events p) p = p
}.

(** [MutableSlice::copy_from]: the source overwrites the head of the
    destination. *)
Definition copy_from (dest from : bytes) : Outcome bytes :=
  _ ← CHECK (size from <=? size dest) "size() >= from.size()";
  mret (from ++ drop (length from) dest).

Module detail.

(** *** detail::AesCtrEncryptionEvent *)

Definition min_salt_size : Z := 16.
Definition default_salt_size : Z := 32.
Definition key_size : Z := 32.
Definition iv_size : Z := 16.
Definition hash_size : Z := 32.
Definition kdf_iteration_count : Z := 60002.
Definition kdf_fast_iteration_count : Z := 2.

Record AesCtrEncryptionEvent := mkAesCtrEncryptionEvent {
  key_salt_ : bytes;
  iv_ : bytes;
  key_hash_ : bytes
}.

(** [BufferSlice(n)] handed to a primitive that fills it: the result has
    [n] bytes. *)
Definition filled (n : Z) (content : bytes) : bytes :=
  resize (Z.to_nat n) x00 content.

Definition cucumbers : bytes :=
  String.list_byte_of_string "cucumbers everywhere".

Section KeyEvent.
Context `{Codec} `{Crypto}.

Definition generate_key (ev : AesCtrEncryptionEvent) (db_key : DbKey)
  : Outcome bytes :=
  _ ← CHECK (negb (DbKey_is_empty db_key)) "!db_key.is_empty()";
  let iteration_count :=
    if DbKey_is_raw_key db_key then kdf_fast_iteration_count
    else kdf_iteration_count in
  mret (filled key_size
          (pbkdf2_sha256 (DbKey_data db_key) (key_salt_ ev) iteration_count)).

Definition generate_hash (key : bytes) : bytes :=
  filled hash_size (hmac_sha256 key cucumbers).

(** [BEGIN_STORE_FLAGS(); END_STORE_FLAGS();] stores a flags word with no
    bit set. *)
Definition store_flags : bytes := [x00; x00; x00; x00].

Definition store (ev : AesCtrEncryptionEvent) : bytes :=
  store_flags ++ tl_store (key_salt_ ev) ++ tl_store (iv_ ev)
    ++ tl_store (key_hash_ ev).

Definition parse (data : bytes) : AesCtrEncryptionEvent :=
  (* BEGIN_PARSE_FLAGS reads the flags word *)
  let rest := tail_bytes 4 data in
  let '(key_salt, rest) := tl_parse rest in
  let '(iv, rest) := tl_parse rest in
  let '(key_hash, _) := tl_parse rest in
  mkAesCtrEncryptionEvent key_salt iv key_hash.

End KeyEvent.

(** *** detail::BinlogReader *)

Inductive ReaderState := ReadLength | ReadEvent.

(** Where [input_] points: at [buffer_reader_] or at the output of
    [byte_flow_sink_]. *)
Inductive InputRef := InputUnset | InputBufferReader | InputByteFlowSink.

Record BinlogReader := mkBinlogReader {
  input_ : InputRef;
  state_ : ReaderState;
  size_ : Z;
  offset_ : Z
}.

(** [detail::BinlogReader reader;] *)
Definition BinlogReader_default : BinlogReader :=
  mkBinlogReader InputUnset ReadLength 0 0.

Definition set_input (i : InputRef) (r : BinlogReader) : BinlogReader :=
  mkBinlogReader i (state_ r) (size_ r) (offset_ r).
Definition set_state (st : ReaderState) (r : BinlogReader) : BinlogReader :=
  mkBinlogReader (input_ r) st (size_ r) (offset_ r).
Definition set_size (n : Z) (r : BinlogReader) : BinlogReader :=
  mkBinlogReader (input_ r) (state_ r) n (offset_ r).
Definition set_offset (o : Z) (r : BinlogReader) : BinlogReader :=
  mkBinlogReader (input_ r) (state_ r) (size_ r) o.

(** What one call of [read_next] leaves behind: the returned
    [Result<size_t>], the reader, the buffer [*input_] and [*event]. *)
Record ReadNext := mkReadNext {
  rn_result : Result Z;
  rn_reader : BinlogReader;
  rn_input : bytes;
  rn_event : BinlogEvent
}.

Definition too_big (n : Z) : Status :=
  Status_Error GenericError "Too big event " [("size"%string, n)].
Definition too_small (n : Z) : Status :=
  Status_Error GenericError "Too small event " [("size"%string, n)].

Section Reader.
Context `{Codec}.

(** Lines 124-132: [size_] is known. *)
Definition read_event (r : BinlogReader) (input : bytes) (event : BinlogEvent)
  : ReadNext :=
  if size input <? size_ r then mkReadNext (Ok (size_ r)) r input event
  else
    let '(status, event') :=
      BinlogEvent_init (head_bytes (size_ r) input) true event in
    let input' := tail_bytes (size_ r) input in
    match status with
    | Status_Error _ _ _ => mkReadNext (Err status) r input' event'
    | Status_OK =>
        let offset := wrap_int64 (offset_ r + size_ r) in
        mkReadNext (Ok 0) (set_state ReadLength (set_offset offset r))
          input' (event_set_offset offset event')
    end.

(** [Result<size_t> read_next(BinlogEvent *event)], lines 104-133. *)
Definition read_next (r : BinlogReader) (input : bytes) (event : BinlogEvent)
  : ReadNext :=
  match state_ r with
  | ReadLength =>
      if size input <? 4 then mkReadNext (Ok 4) r input event
      else
        (* the four bytes are copied out of a clone of the input *)
        let buf := head_bytes 4 input in
        let r := set_size (size_t_of_int32 (fetch_int buf)) r in
        if size_ r >? MAX_EVENT_SIZE then
          mkReadNext (Err (too_big (size_ r))) r input event
        else if size_ r <? MIN_EVENT_SIZE then
          mkReadNext (Err (too_small (size_ r))) r input event
        else read_event (set_state ReadEvent r) input event
  | ReadEvent => read_event r input event
  end.

(** The length field at the head of the input, as [read_next] decodes it. *)
Definition peek_size (input : bytes) : Z :=
  size_t_of_int32 (fetch_int (head_bytes 4 input)).

(** The size of the record the reader is working on. *)
Definition record_size (r : BinlogReader) (input : bytes) : Z :=
  match state_ r with
  | ReadLength => peek_size input
  | ReadEvent => size_ r
  end.

End Reader.

End detail.

(** ** Timestamps (Time.cpp)

    Time.h is not among the sources: a [Timestamp] holds the [double]
    that [at()] returns. *)
Record Timestamp := mkTimestamp { at_ : float }.

(** [bool operator==(Timestamp a, Timestamp b)]; the constant is the
    [double] nearest to [1e-6]. *)
Definition Timestamp_eq (a b : Timestamp) : bool :=
  PrimFloat.ltb (PrimFloat.abs (PrimFloat.sub (at_ a) (at_ b)))
    0x1.0c6f7a0b5ed8dp-20%float.

(** Whether the instant is a number, neither NaN nor an infinity, by the
    specification of binary64. *)
Definition Timestamp_is_finite (a : Timestamp) : bool :=
  match Prim2SF (at_ a) with
  | S754_zero _ | S754_finite _ _ _ => true
  | S754_infinity _ | S754_nan => false
  end.

(** ** The engine *)

(** [Binlog::State] *)
Inductive State := Load | Run | Reindex.
#[global] Instance State_eq_dec : EqDecision State.
Proof. solve_decision. Defined.

(** [Binlog::EncryptionType] *)
Inductive EncryptionType := EncryptionType_None | EncryptionType_AesCtr.

(** Where the output reader of [fd_] points: at [buffer_reader_] or at the
    output of [byte_flow_sink_]. *)
Inductive OutputRef := OutputUnset | OutputBufferReader | OutputByteFlowSink.

(** [BinlogInfo] *)
Record BinlogInfo := mkBinlogInfo {
  was_created : bool;
  last_id : Z;
  wrong_password : bool;
  is_opened : bool
}.

Definition BinlogInfo_default : BinlogInfo := mkBinlogInfo false 0 false false.
Definition set_was_created (v : bool) (i : BinlogInfo) : BinlogInfo :=
  mkBinlogInfo v (last_id i) (wrong_password i) (is_opened i).
Definition set_last_id (v : Z) (i : BinlogInfo) : BinlogInfo :=
  mkBinlogInfo (was_created i) v (wrong_password i) (is_opened i).
Definition set_wrong_password (v : bool) (i : BinlogInfo) : BinlogInfo :=
  mkBinlogInfo (was_created i) (last_id i) v (is_opened i).
Definition set_is_opened (v : bool) (i : BinlogInfo) : BinlogInfo :=
  mkBinlogInfo (was_created i) (last_id i) (wrong_password i) v.

(** A [Callback] is called or is empty; what it is called with is recorded
    in the engine's environment ([callback_calls], [debug_callback_calls]). *)
Inductive Callback := Callback_empty | Callback_set.

#[global] Instance byte_eq_dec : EqDecision byte := Byte.byte_eq_dec.

(** [a == b] on slices *)
Definition slice_eqb (a b : bytes) : bool := bool_decide (a = b).

Notation "b |> f" := (f b) (at level 45, left associativity, only parsing).

Section Engine.
Context `{Codec} `{Crypto} `{Platform} `{EventsProcessor}.

(** The members of [Binlog] that Binlog.cpp uses, the static
    [IGNORE_ERASE_HACK], and the environment of the engine: the platform
    state [fs] and the calls made to the two callbacks.

    [events_buffer_] is left out: [init] does not allocate it (line 166 is
    commented out) and nothing else assigns it, so it is null and every
    [if (events_buffer_)] takes the null branch.

    The chain buffer is the pair [buffer_writer_] (appended, not yet seen
    by the reader) and [buffer_reader_] (seen, not yet consumed);
    [aes_xcode_byte_flow_] holds the AES-CTR state of the flow and
    [byte_flow_sink_] the output of the sink. *)
Record Binlog := mkBinlog {
  db_key_ : DbKey;
  old_db_key_ : DbKey;
  processor_ : option BinlogEventsProcessor;
  info_ : BinlogInfo;
  fd_ : option FileFd;
  fd_output_reader_ : OutputRef;
  fd_size_ : Z;
  fd_events_ : Z;
  path_ : string;
  last_id_ : Z;
  db_key_used_ : bool;
  encryption_type_ : EncryptionType;
  aes_ctr_key_salt_ : bytes;
  aes_ctr_key_ : bytes;
  aes_ctr_state_ : option AesCtrState;
  state_ : State;
  buffer_writer_ : bytes;
  buffer_reader_ : bytes;
  byte_flow_flag_ : bool;
  aes_xcode_byte_flow_ : option AesCtrState;
  byte_flow_sink_ : bytes;
  binlog_reader_ptr_ : option detail.BinlogReader;
  pending_events_ : list BinlogEvent;
  need_sync_ : bool;
  need_flush_since_ : Q;
  IGNORE_ERASE_HACK : bool;
  fs : FS;
  callback_calls : list BinlogEvent;
  debug_callback_calls : list BinlogEvent
}.

Definition set_db_key_ (v : DbKey) (b : Binlog) : Binlog :=
  mkBinlog
    v (old_db_key_ b) (processor_ b) (info_ b) (fd_ b) (fd_output_reader_ b)
    (fd_size_ b) (fd_events_ b) (path_ b) (last_id_ b) (db_key_used_ b)
    (encryption_type_ b) (aes_ctr_key_salt_ b) (aes_ctr_key_ b)
    (aes_ctr_state_ b) (state_ b) (buffer_writer_ b) (buffer_reader_ b)
    (byte_flow_flag_ b) (aes_xcode_byte_flow_ b) (byte_flow_sink_ b)
    (binlog_reader_ptr_ b) (pending_events_ b) (need_sync_ b)
    (need_flush_since_ b) (IGNORE_ERASE_HACK b) (fs b) (callback_calls b)
    (debug_callback_calls b).
Definition set_old_db_key_ (v : DbKey) (b : Binlog) : Binlog :=
  mkBinlog
    (db_key_ b) v (processor_ b) (info_ b) (fd_ b) (fd_output_reader_ b)
    (fd_size_ b) (fd_events_ b) (path_ b) (last_id_ b) (db_key_used_ b)
    (encryption_type_ b) (aes_ctr_key_salt_ b) (aes_ctr_key_ b)
    (aes_ctr_state_ b) (state_ b) (buffer_writer_ b) (buffer_reader_ b)
    (byte_flow_flag_ b) (aes_xcode_byte_flow_ b) (byte_flow_sink_ b)
    (binlog_reader_ptr_ b) (pending_events_ b) (need_sync_ b)
    (need_flush_since_ b) (IGNORE_ERASE_HACK b) (fs b) (callback_calls b)
    (debug_callback_calls b).
Definition set_processor_ (v : option BinlogEventsProcessor) (b : Binlog) : Binlog :=
  mkBinlog
    (db_key_ b) (old_db_key_ b) v (info_ b) (fd_ b) (fd_output_reader_ b)
    (fd_size_ b) (fd_events_ b) (path_ b) (last_id_ b) (db_key_used_ b)
    (encryption_type_ b) (aes_ctr_key_salt_ b) (aes_ctr_key_ b)
    (aes_ctr_state_ b) (state_ b) (buffer_writer_ b) (buffer_reader_ b)
    (byte_flow_flag_ b) (aes_xcode_byte_flow_ b) (byte_flow_sink_ b)
    (binlog_reader_ptr_ b) (pending_events_ b) (need_sync_ b)
    (need_flush_since_ b) (IGNORE_ERASE_HACK b) (fs b) (callback_calls b)
    (debug_callback_calls b).
Definition set_info_ (v : BinlogInfo) (b : Binlog) : Binlog :=
  mkBinlog
    (db_key_ b) (old_db_key_ b) (processor_ b) v (fd_ b)
    (fd_output_reader_ b) (fd_size_ b) (fd_events_ b) (path_ b) (last_id_ b)
    (db_key_used_ b) (encryption_type_ b) (aes_ctr_key_salt_ b)
    (aes_ctr_key_ b) (aes_ctr_state_ b) (state_ b) (buffer_writer_ b)
    (buffer_reader_ b) (byte_flow_flag_ b) (aes_xcode_byte_flow_ b)
    (byte_flow_sink_ b) (binlog_reader_ptr_ b) (pending_events_ b)
    (need_sync_ b) (need_flush_since_ b) (IGNORE_ERASE_HACK b) (fs b)
    (callback_calls b) (debug_callback_calls b).
Definition set_fd_ (v : option FileFd) (b : Binlog) : Binlog :=
  mkBinlog
    (db_key_ b) (old_db_key_ b) (processor_ b) (info_ b) v
    (fd_output_reader_ b) (fd_size_ b) (fd_events_ b) (path_ b) (last_id_ b)
    (db_key_used_ b) (encryption_type_ b) (aes_ctr_key_salt_ b)
    (aes_ctr_key_ b) (aes_ctr_state_ b) (state_ b) (buffer_writer_ b)
    (buffer_reader_ b) (byte_flow_flag_ b) (aes_xcode_byte_flow_ b)
    (byte_flow_sink_ b) (binlog_reader_ptr_ b) (pending_events_ b)
    (need_sync_ b) (need_flush_since_ b) (IGNORE_ERASE_HACK b) (fs b)
    (callback_calls b) (debug_callback_calls b).
Definition set_fd_output_reader_ (v : OutputRef) (b : Binlog) : Binlog :=
  mkBinlog
    (db_key_ b) (old_db_key_ b) (processor_ b) (info_ b) (fd_ b) v
    (fd_size_ b) (fd_events_ b) (path_ b) (last_id_ b) (db_key_used_ b)
    (encryption_type_ b) (aes_ctr_key_salt_ b) (aes_ctr_key_ b)
    (aes_ctr_state_ b) (state_ b) (buffer_writer_ b) (buffer_reader_ b)
    (byte_flow_flag_ b) (aes_xcode_byte_flow_ b) (byte_flow_sink_ b)
    (binlog_reader_ptr_ b) (pending_events_ b) (need_sync_ b)
    (need_flush_since_ b) (IGNORE_ERASE_HACK b) (fs b) (callback_calls b)
    (debug_callback_calls b).
Definition set_fd_size_ (v : Z) (b : Binlog) : Binlog :=
  mkBinlog
    (db_key_ b) (old_db_key_ b) (processor_ b) (info_ b) (fd_ b)
    (fd_output_reader_ b) v (fd_events_ b) (path_ b) (last_id_ b)
    (db_key_used_ b) (encryption_type_ b) (aes_ctr_key_salt_ b)
    (aes_ctr_key_ b) (aes_ctr_state_ b) (state_ b) (buffer_writer_ b)
    (buffer_reader_ b) (byte_flow_flag_ b) (aes_xcode_byte_flow_ b)
    (byte_flow_sink_ b) (binlog_reader_ptr_ b) (pending_events_ b)
    (need_sync_ b) (need_flush_since_ b) (IGNORE_ERASE_HACK b) (fs b)
    (callback_calls b) (debug_callback_calls b).
Definition set_fd_events_ (v : Z) (b : Binlog) : Binlog :=
  mkBinlog
    (db_key_ b) (old_db_key_ b) (processor_ b) (info_ b) (fd_ b)
    (fd_output_reader_ b) (fd_size_ b) v (path_ b) (last_id_ b)
    (db_key_used_ b) (encryption_type_ b) (aes_ctr_key_salt_ b)
    (aes_ctr_key_ b) (aes_ctr_state_ b) (state_ b) (buffer_writer_ b)
    (buffer_reader_ b) (byte_flow_flag_ b) (aes_xcode_byte_flow_ b)
    (byte_flow_sink_ b) (binlog_reader_ptr_ b) (pending_events_ b)
    (need_sync_ b) (need_flush_since_ b) (IGNORE_ERASE_HACK b) (fs b)
    (callback_calls b) (debug_callback_calls b).
Definition set_path_ (v : string) (b : Binlog) : Binlog :=
  mkBinlog
    (db_key_ b) (old_db_key_ b) (processor_ b) (info_ b) (fd_ b)
    (fd_output_reader_ b) (fd_size_ b) (fd_events_ b) v (last_id_ b)
    (db_key_used_ b) (encryption_type_ b) (aes_ctr_key_salt_ b)
    (aes_ctr_key_ b) (aes_ctr_state_ b) (state_ b) (buffer_writer_ b)
    (buffer_reader_ b) (byte_flow_flag_ b) (aes_xcode_byte_flow_ b)
    (byte_flow_sink_ b) (binlog_reader_ptr_ b) (pending_events_ b)
    (need_sync_ b) (need_flush_since_ b) (IGNORE_ERASE_HACK b) (fs b)
    (callback_calls b) (debug_callback_calls b).
Definition set_last_id_ (v : Z) (b : Binlog) : Binlog :=
  mkBinlog
    (db_key_ b) (old_db_key_ b) (processor_ b) (info_ b) (fd_ b)
    (fd_output_reader_ b) (fd_size_ b) (fd_events_ b) (path_ b) v
    (db_key_used_ b) (encryption_type_ b) (aes_ctr_key_salt_ b)
    (aes_ctr_key_ b) (aes_ctr_state_ b) (state_ b) (buffer_writer_ b)
    (buffer_reader_ b) (byte_flow_flag_ b) (aes_xcode_byte_flow_ b)
    (byte_flow_sink_ b) (binlog_reader_ptr_ b) (pending_events_ b)
    (need_sync_ b) (need_flush_since_ b) (IGNORE_ERASE_HACK b) (fs b)
    (callback_calls b) (debug_callback_calls b).
Definition set_db_key_used_ (v : bool) (b : Binlog) : Binlog :=
  mkBinlog
    (db_key_ b) (old_db_key_ b) (processor_ b) (info_ b) (fd_ b)
    (fd_output_reader_ b) (fd_size_ b) (fd_events_ b) (path_ b) (last_id_ b)
    v (encryption_type_ b) (aes_ctr_key_salt_ b) (aes_ctr_key_ b)
    (aes_ctr_state_ b) (state_ b) (buffer_writer_ b) (buffer_reader_ b)
    (byte_flow_flag_ b) (aes_xcode_byte_flow_ b) (byte_flow_sink_ b)
    (binlog_reader_ptr_ b) (pending_events_ b) (need_sync_ b)
    (need_flush_since_ b) (IGNORE_ERASE_HACK b) (fs b) (callback_calls b)
    (debug_callback_calls b).
Definition set_encryption_type_ (v : EncryptionType) (b : Binlog) : Binlog :=
  mkBinlog
    (db_key_ b) (old_db_key_ b) (processor_ b) (info_ b) (fd_ b)
    (fd_output_reader_ b) (fd_size_ b) (fd_events_ b) (path_ b) (last_id_ b)
    (db_key_used_ b) v (aes_ctr_key_salt_ b) (aes_ctr_key_ b)
    (aes_ctr_state_ b) (state_ b) (buffer_writer_ b) (buffer_reader_ b)
    (byte_flow_flag_ b) (aes_xcode_byte_flow_ b) (byte_flow_sink_ b)
    (binlog_reader_ptr_ b) (pending_events_ b) (need_sync_ b)
    (need_flush_since_ b) (IGNORE_ERASE_HACK b) (fs b) (callback_calls b)
    (debug_callback_calls b).
Definition set_aes_ctr_key_salt_ (v : bytes) (b : Binlog) : Binlog :=
  mkBinlog
    (db_key_ b) (old_db_key_ b) (processor_ b) (info_ b) (fd_ b)
    (fd_output_reader_ b) (fd_size_ b) (fd_events_ b) (path_ b) (last_id_ b)
    (db_key_used_ b) (encryption_type_ b) v (aes_ctr_key_ b)
    (aes_ctr_state_ b) (state_ b) (buffer_writer_ b) (buffer_reader_ b)
    (byte_flow_flag_ b) (aes_xcode_byte_flow_ b) (byte_flow_sink_ b)
    (binlog_reader_ptr_ b) (pending_events_ b) (need_sync_ b)
    (need_flush_since_ b) (IGNORE_ERASE_HACK b) (fs b) (callback_calls b)
    (debug_callback_calls b).
Definition set_aes_ctr_key_ (v : bytes) (b : Binlog) : Binlog :=
  mkBinlog
    (db_key_ b) (old_db_key_ b) (processor_ b) (info_ b) (fd_ b)
    (fd_output_reader_ b) (fd_size_ b) (fd_events_ b) (path_ b) (last_id_ b)
    (db_key_used_ b) (encryption_type_ b) (aes_ctr_key_salt_ b) v
    (aes_ctr_state_ b) (state_ b) (buffer_writer_ b) (buffer_reader_ b)
    (byte_flow_flag_ b) (aes_xcode_byte_flow_ b) (byte_flow_sink_ b)
    (binlog_reader_ptr_ b) (pending_events_ b) (need_sync_ b)
    (need_flush_since_ b) (IGNORE_ERASE_HACK b) (fs b) (callback_calls b)
    (debug_callback_calls b).
Definition set_aes_ctr_state_ (v : option AesCtrState) (b : Binlog) : Binlog :=
  mkBinlog
    (db_key_ b) (old_db_key_ b) (processor_ b) (info_ b) (fd_ b)
    (fd_output_reader_ b) (fd_size_ b) (fd_events_ b) (path_ b) (last_id_ b)
    (db_key_used_ b) (encryption_type_ b) (aes_ctr_key_salt_ b)
    (aes_ctr_key_ b) v (state_ b) (buffer_writer_ b) (buffer_reader_ b)
    (byte_flow_flag_ b) (aes_xcode_byte_flow_ b) (byte_flow_sink_ b)
    (binlog_reader_ptr_ b) (pending_events_ b) (need_sync_ b)
    (need_flush_since_ b) (IGNORE_ERASE_HACK b) (fs b) (callback_calls b)
    (debug_callback_calls b).
Definition set_state_ (v : State) (b : Binlog) : Binlog :=
  mkBinlog
    (db_key_ b) (old_db_key_ b) (processor_ b) (info_ b) (fd_ b)
    (fd_output_reader_ b) (fd_size_ b) (fd_events_ b) (path_ b) (last_id_ b)
    (db_key_used_ b) (encryption_type_ b) (aes_ctr_key_salt_ b)
    (aes_ctr_key_ b) (aes_ctr_state_ b) v (buffer_writer_ b)
    (buffer_reader_ b) (byte_flow_flag_ b) (aes_xcode_byte_flow_ b)
    (byte_flow_sink_ b) (binlog_reader_ptr_ b) (pending_events_ b)
    (need_sync_ b) (need_flush_since_ b) (IGNORE_ERASE_HACK b) (fs b)
    (callback_calls b) (debug_callback_calls b).
Definition set_buffer_writer_ (v : bytes) (b : Binlog) : Binlog :=
  mkBinlog
    (db_key_ b) (old_db_key_ b) (processor_ b) (info_ b) (fd_ b)
    (fd_output_reader_ b) (fd_size_ b) (fd_events_ b) (path_ b) (last_id_ b)
    (db_key_used_ b) (encryption_type_ b) (aes_ctr_key_salt_ b)
    (aes_ctr_key_ b) (aes_ctr_state_ b) (state_ b) v (buffer_reader_ b)
    (byte_flow_flag_ b) (aes_xcode_byte_flow_ b) (byte_flow_sink_ b)
    (binlog_reader_ptr_ b) (pending_events_ b) (need_sync_ b)
    (need_flush_since_ b) (IGNORE_ERASE_HACK b) (fs b) (callback_calls b)
    (debug_callback_calls b).
Definition set_buffer_reader_ (v : bytes) (b : Binlog) : Binlog :=
  mkBinlog
    (db_key_ b) (old_db_key_ b) (processor_ b) (info_ b) (fd_ b)
    (fd_output_reader_ b) (fd_size_ b) (fd_events_ b) (path_ b) (last_id_ b)
    (db_key_used_ b) (encryption_type_ b) (aes_ctr_key_salt_ b)
    (aes_ctr_key_ b) (aes_ctr_state_ b) (state_ b) (buffer_writer_ b) v
    (byte_flow_flag_ b) (aes_xcode_byte_flow_ b) (byte_flow_sink_ b)
    (binlog_reader_ptr_ b) (pending_events_ b) (need_sync_ b)
    (need_flush_since_ b) (IGNORE_ERASE_HACK b) (fs b) (callback_calls b)
    (debug_callback_calls b).
Definition set_byte_flow_flag_ (v : bool) (b : Binlog) : Binlog :=
  mkBinlog
    (db_key_ b) (old_db_key_ b) (processor_ b) (info_ b) (fd_ b)
    (fd_output_reader_ b) (fd_size_ b) (fd_events_ b) (path_ b) (last_id_ b)
    (db_key_used_ b) (encryption_type_ b) (aes_ctr_key_salt_ b)
    (aes_ctr_key_ b) (aes_ctr_state_ b) (state_ b) (buffer_writer_ b)
    (buffer_reader_ b) v (aes_xcode_byte_flow_ b) (byte_flow_sink_ b)
    (binlog_reader_ptr_ b) (pending_events_ b) (need_sync_ b)
    (need_flush_since_ b) (IGNORE_ERASE_HACK b) (fs b) (callback_calls b)
    (debug_callback_calls b).
Definition set_aes_xcode_byte_flow_ (v : option AesCtrState) (b : Binlog) : Binlog :=
  mkBinlog
    (db_key_ b) (old_db_key_ b) (processor_ b) (info_ b) (fd_ b)
    (fd_output_reader_ b) (fd_size_ b) (fd_events_ b) (path_ b) (last_id_ b)
    (db_key_used_ b) (encryption_type_ b) (aes_ctr_key_salt_ b)
    (aes_ctr_key_ b) (aes_ctr_state_ b) (state_ b) (buffer_writer_ b)
    (buffer_reader_ b) (byte_flow_flag_ b) v (byte_flow_sink_ b)
    (binlog_reader_ptr_ b) (pending_events_ b) (need_sync_ b)
    (need_flush_since_ b) (IGNORE_ERASE_HACK b) (fs b) (callback_calls b)
    (debug_callback_calls b).
Definition set_byte_flow_sink_ (v : bytes) (b : Binlog) : Binlog :=
  mkBinlog
    (db_key_ b) (old_db_key_ b) (processor_ b) (info_ b) (fd_ b)
    (fd_output_reader_ b) (fd_size_ b) (fd_events_ b) (path_ b) (last_id_ b)
    (db_key_used_ b) (encryption_type_ b) (aes_ctr_key_salt_ b)
    (aes_ctr_key_ b) (aes_ctr_state_ b) (state_ b) (buffer_writer_ b)
    (buffer_reader_ b) (byte_flow_flag_ b) (aes_xcode_byte_flow_ b) v
    (binlog_reader_ptr_ b) (pending_events_ b) (need_sync_ b)
    (need_flush_since_ b) (IGNORE_ERASE_HACK b) (fs b) (callback_calls b)
    (debug_callback_calls b).
Definition set_binlog_reader_ptr_ (v : option detail.BinlogReader) (b : Binlog) : Binlog :=
  mkBinlog
    (db_key_ b) (old_db_key_ b) (processor_ b) (info_ b) (fd_ b)
    (fd_output_reader_ b) (fd_size_ b) (fd_events_ b) (path_ b) (last_id_ b)
    (db_key_used_ b) (encryption_type_ b) (aes_ctr_key_salt_ b)
    (aes_ctr_key_ b) (aes_ctr_state_ b) (state_ b) (buffer_writer_ b)
    (buffer_reader_ b) (byte_flow_flag_ b) (aes_xcode_byte_flow_ b)
    (byte_flow_sink_ b) v (pending_events_ b) (need_sync_ b)
    (need_flush_since_ b) (IGNORE_ERASE_HACK b) (fs b) (callback_calls b)
    (debug_callback_calls b).
Definition set_pending_events_ (v : list BinlogEvent) (b : Binlog) : Binlog :=
  mkBinlog
    (db_key_ b) (old_db_key_ b) (processor_ b) (info_ b) (fd_ b)
    (fd_output_reader_ b) (fd_size_ b) (fd_events_ b) (path_ b) (last_id_ b)
    (db_key_used_ b) (encryption_type_ b) (aes_ctr_key_salt_ b)
    (aes_ctr_key_ b) (aes_ctr_state_ b) (state_ b) (buffer_writer_ b)
    (buffer_reader_ b) (byte_flow_flag_ b) (aes_xcode_byte_flow_ b)
    (byte_flow_sink_ b) (binlog_reader_ptr_ b) v (need_sync_ b)
    (need_flush_since_ b) (IGNORE_ERASE_HACK b) (fs b) (callback_calls b)
    (debug_callback_calls b).
Definition set_need_sync_ (v : bool) (b : Binlog) : Binlog :=
  mkBinlog
    (db_key_ b) (old_db_key_ b) (processor_ b) (info_ b) (fd_ b)
    (fd_output_reader_ b) (fd_size_ b) (fd_events_ b) (path_ b) (last_id_ b)
    (db_key_used_ b) (encryption_type_ b) (aes_ctr_key_salt_ b)
    (aes_ctr_key_ b) (aes_ctr_state_ b) (state_ b) (buffer_writer_ b)
    (buffer_reader_ b) (byte_flow_flag_ b) (aes_xcode_byte_flow_ b)
    (byte_flow_sink_ b) (binlog_reader_ptr_ b) (pending_events_ b) v
    (need_flush_since_ b) (IGNORE_ERASE_HACK b) (fs b) (callback_calls b)
    (debug_callback_calls b).
Definition set_need_flush_since_ (v : Q) (b : Binlog) : Binlog :=
  mkBinlog
    (db_key_ b) (old_db_key_ b) (processor_ b) (info_ b) (fd_ b)
    (fd_output_reader_ b) (fd_size_ b) (fd_events_ b) (path_ b) (last_id_ b)
    (db_key_used_ b) (encryption_type_ b) (aes_ctr_key_salt_ b)
    (aes_ctr_key_ b) (aes_ctr_state_ b) (state_ b) (buffer_writer_ b)
    (buffer_reader_ b) (byte_flow_flag_ b) (aes_xcode_byte_flow_ b)
    (byte_flow_sink_ b) (binlog_reader_ptr_ b) (pending_events_ b)
    (need_sync_ b) v (IGNORE_ERASE_HACK b) (fs b) (callback_calls b)
    (debug_callback_calls b).
Definition set_IGNORE_ERASE_HACK (v : bool) (b : Binlog) : Binlog :=
  mkBinlog
    (db_key_ b) (old_db_key_ b) (processor_ b) (info_ b) (fd_ b)
    (fd_output_reader_ b) (fd_size_ b) (fd_events_ b) (path_ b) (last_id_ b)
    (db_key_used_ b) (encryption_type_ b) (aes_ctr_key_salt_ b)
    (aes_ctr_key_ b) (aes_ctr_state_ b) (state_ b) (buffer_writer_ b)
    (buffer_reader_ b) (byte_flow_flag_ b) (aes_xcode_byte_flow_ b)
    (byte_flow_sink_ b) (binlog_reader_ptr_ b) (pending_events_ b)
    (need_sync_ b) (need_flush_since_ b) v (fs b) (callback_calls b)
    (debug_callback_calls b).
Definition set_fs (v : FS) (b : Binlog) : Binlog :=
  mkBinlog
    (db_key_ b) (old_db_key_ b) (processor_ b) (info_ b) (fd_ b)
    (fd_output_reader_ b) (fd_size_ b) (fd_events_ b) (path_ b) (last_id_ b)
    (db_key_used_ b) (encryption_type_ b) (aes_ctr_key_salt_ b)
    (aes_ctr_key_ b) (aes_ctr_state_ b) (state_ b) (buffer_writer_ b)
    (buffer_reader_ b) (byte_flow_flag_ b) (aes_xcode_byte_flow_ b)
    (byte_flow_sink_ b) (binlog_reader_ptr_ b) (pending_events_ b)
    (need_sync_ b) (need_flush_since_ b) (IGNORE_ERASE_HACK b) v
    (callback_calls b) (debug_callback_calls b).
Definition set_callback_calls (v : list BinlogEvent) (b : Binlog) : Binlog :=
  mkBinlog
    (db_key_ b) (old_db_key_ b) (processor_ b) (info_ b) (fd_ b)
    (fd_output_reader_ b) (fd_size_ b) (fd_events_ b) (path_ b) (last_id_ b)
    (db_key_used_ b) (encryption_type_ b) (aes_ctr_key_salt_ b)
    (aes_ctr_key_ b) (aes_ctr_state_ b) (state_ b) (buffer_writer_ b)
    (buffer_reader_ b) (byte_flow_flag_ b) (aes_xcode_byte_flow_ b)
    (byte_flow_sink_ b) (binlog_reader_ptr_ b) (pending_events_ b)
    (need_sync_ b) (need_flush_since_ b) (IGNORE_ERASE_HACK b) (fs b) v
    (debug_callback_calls b).
Definition set_debug_callback_calls (v : list BinlogEvent) (b : Binlog) : Binlog :=
  mkBinlog
    (db_key_ b) (old_db_key_ b) (processor_ b) (info_ b) (fd_ b)
    (fd_output_reader_ b) (fd_size_ b) (fd_events_ b) (path_ b) (last_id_ b)
    (db_key_used_ b) (encryption_type_ b) (aes_ctr_key_salt_ b)
    (aes_ctr_key_ b) (aes_ctr_state_ b) (state_ b) (buffer_writer_ b)
    (buffer_reader_ b) (byte_flow_flag_ b) (aes_xcode_byte_flow_ b)
    (byte_flow_sink_ b) (binlog_reader_ptr_ b) (pending_events_ b)
    (need_sync_ b) (need_flush_since_ b) (IGNORE_ERASE_HACK b) (fs b)
    (callback_calls b) v.

Definition update_info (f : BinlogInfo -> BinlogInfo) (b : Binlog) : Binlog :=
  set_info_ (f (info_ b)) b.

(** *** Helpers for the collaborators *)

Definition ensure {T} (r : Result T) (why : string) : Outcome T :=
  match r with Ok v => Done v | Err _ => Fatal why end.

Definition ensure_ok (st : Status) (why : string) : Outcome unit :=
  CHECK (negb (is_error st)) why.

Definition the_fd (b : Binlog) : Outcome FileFd :=
  match fd_ b with Some fd => Done fd | None => Fatal "fd_ is empty" end.

Definition the_processor (b : Binlog) : Outcome BinlogEventsProcessor :=
  match processor_ b with
  | Some p => Done p
  | None => Fatal "processor_ is null"
  end.

(** [buffer_writer_ = ChainBufferWriter();
     buffer_reader_ = buffer_writer_.extract_reader();] *)
Definition reset_buffers (b : Binlog) : Binlog :=
  b |> set_buffer_writer_ [] |> set_buffer_reader_ [].

(** [buffer_writer_.append(slice)] *)
Definition buffer_writer_append (s : bytes) (b : Binlog) : Binlog :=
  set_buffer_writer_ (buffer_writer_ b ++ s) b.

(** [buffer_reader_.sync_with_writer()] *)
Definition sync_with_writer (b : Binlog) : Binlog :=
  b |> set_buffer_reader_ (buffer_reader_ b ++ buffer_writer_ b)
    |> set_buffer_writer_ [].

(** [byte_flow_source_.wakeup()]: what [buffer_reader_] holds goes through
    the AES-CTR flow into the sink. *)
Definition byte_flow_source_wakeup (b : Binlog) : Outcome Binlog :=
  let b := sync_with_writer b in
  match buffer_reader_ b with
  | [] => mret b
  | _ =>
      match aes_xcode_byte_flow_ b with
      | None => Fatal "aes_xcode_byte_flow_ holds no AesCtrState"
      | Some st =>
          let '(out, st') := AesCtrState_encrypt st (buffer_reader_ b) in
          mret (b |> set_buffer_reader_ []
                  |> set_aes_xcode_byte_flow_ (Some st')
                  |> set_byte_flow_sink_ (byte_flow_sink_ b ++ out))
      end
  end.

(** [fd_.flush_read(max_read)]: what is read is appended to the input
    writer, which is [buffer_writer_] (line 440). *)
Definition fd_flush_read (max_read : Z) (b : Binlog) : Outcome (Status * Binlog) :=
  fd ← the_fd b;
  let '(r, fs') := FileFd_read fd max_read (fs b) in
  match r with
  | Ok data => mret (Status_OK, b |> set_fs fs' |> buffer_writer_append data)
  | Err st => mret (st, set_fs fs' b)
  end.

(** [fd_.flush_write()]: the output reader is synchronised with its writer
    and what it holds is written to the file. *)
Definition fd_flush_write (b : Binlog) : Outcome (Result Z * Binlog) :=
  fd ← the_fd b;
  match fd_output_reader_ b with
  | OutputUnset => Fatal "fd_ has no output reader"
  | OutputBufferReader =>
      let b := sync_with_writer b in
      let '(r, fs') := FileFd_write fd (buffer_reader_ b) (fs b) in
      match r with
      | Ok n =>
          mret (Ok n, b |> set_fs fs'
                        |> set_buffer_reader_ (tail_bytes n (buffer_reader_ b)))
      | Err st => mret (Err st, set_fs fs' b)
      end
  | OutputByteFlowSink =>
      let '(r, fs') := FileFd_write fd (byte_flow_sink_ b) (fs b) in
      match r with
      | Ok n =>
          mret (Ok n, b |> set_fs fs'
                        |> set_byte_flow_sink_ (tail_bytes n (byte_flow_sink_ b)))
      | Err st => mret (Err st, set_fs fs' b)
      end
  end.

(** [fd_.need_flush_write()] *)
Definition fd_need_flush_write (b : Binlog) : bool :=
  match fd_output_reader_ b with
  | OutputUnset => false
  | OutputBufferReader => negb (size (buffer_reader_ b) =? 0)
  | OutputByteFlowSink => negb (size (byte_flow_sink_ b) =? 0)
  end.

(** [fd_.close()] *)
Definition fd_close (b : Binlog) : Binlog :=
  match fd_ b with
  | Some fd =>
      b |> set_fs (FileFd_close fd (fs b)) |> set_fd_ None
        |> set_fd_output_reader_ OutputUnset
  | None => b
  end.

(** [Random::secure_bytes] on a slice of [n] bytes *)
Fixpoint secure_bytes (n : nat) (f : FS) : bytes * FS :=
  match n with
  | O => ([], f)
  | S n =>
      let '(x, f) := Random_secure_byte f in
      let '(rest, f) := secure_bytes n f in
      (x :: rest, f)
  end.

(** [BinlogEvent(BufferSlice &&raw_event)]: [init] without the CRC check,
    ensured. *)
Definition BinlogEvent_of_raw (raw : bytes) : Outcome BinlogEvent :=
  let '(status, event) := BinlogEvent_init raw false BinlogEvent_default in
  _ ← ensure_ok status "BinlogEvent::init";
  mret event.

(** *** Binlog::open_binlog *)
Definition open_binlog (path : string) (flags : list OpenFlag) (f : FS)
  : Result FileFd * FS :=
  let '(r, f) := FileFd_open path flags f in
  match r with
  | Err st => (Err st, f)
  | Ok fd =>
      let '(st, f) := FileFd_lock fd f in
      if is_error st then (Err st, FileFd_close fd f) else (Ok fd, f)
  end.

(** *** Binlog::flush_events_buffer: [events_buffer_] is null. *)
Definition flush_events_buffer (force : bool) (b : Binlog) : Z * Binlog :=
  (0, b).

(** *** Binlog::flush *)
Definition flush (b : Binlog) : Outcome Binlog :=
  if decide (state_ b = Load) then mret b
  else
    let '(_, b) := flush_events_buffer true b in
    b ← (if byte_flow_flag_ b then byte_flow_source_wakeup b else mret b);
    '(r_written, b) ← fd_flush_write b;
    written ← ensure r_written "fd_.flush_write()";
    let b := if written >? 0 then set_need_sync_ true b else b in
    let b := set_need_flush_since_ 0%Q b in
    _ ← CHECK (negb (fd_need_flush_write b)) "Failed to flush binlog";
    mret b.

(** *** Binlog::sync *)
Definition sync (b : Binlog) : Outcome Binlog :=
  b ← flush b;
  if need_sync_ b then
    fd ← the_fd b;
    let '(status, fs') := FileFd_sync fd (fs b) in
    _ ← ensure_ok status "Failed to sync binlog";
    mret (b |> set_fs fs' |> set_need_sync_ false)
  else mret b.

(** *** Binlog::lazy_flush *)
Definition lazy_flush (b : Binlog) : Outcome Binlog :=
  let '(events_buffer_size, b) := flush_events_buffer false b in
  let b := sync_with_writer b in
  let size := size (buffer_reader_ b) + events_buffer_size in
  if size >? Z.shiftl 1 14 then flush b
  else if (size >? 0) && Qeq_bool (need_flush_since_ b) 0 then
    mret (set_need_flush_since_ (Time_now_cached (fs b)) b)
  else mret b.

(** *** Binlog::update_encryption *)
Definition update_encryption (key iv : bytes) (b : Binlog) : Outcome Binlog :=
  aes_ctr_key ← copy_from (aes_ctr_key_ b) key;
  (* [UInt128 aes_ctr_iv;] is not initialised; it is taken as zeroes *)
  aes_ctr_iv ← copy_from (replicate 16 x00) iv;
  mret (b |> set_aes_ctr_key_ aes_ctr_key
          |> set_aes_ctr_state_ (Some (AesCtrState_init aes_ctr_key aes_ctr_iv))).

(** *** Binlog::update_read_encryption *)
Definition update_read_encryption (b : Binlog) : Outcome Binlog :=
  match binlog_reader_ptr_ b with
  | None => Fatal "binlog_reader_ptr_"
  | Some reader =>
      match encryption_type_ b with
      | EncryptionType_None =>
          mret (b |> set_binlog_reader_ptr_
                       (Some (detail.set_input detail.InputBufferReader reader))
                  |> set_byte_flow_flag_ false)
      | EncryptionType_AesCtr =>
          mret (b |> set_aes_xcode_byte_flow_ (aes_ctr_state_ b)
                  |> set_aes_ctr_state_ None
                  |> set_byte_flow_sink_ []
                  |> set_byte_flow_flag_ true
                  |> set_binlog_reader_ptr_
                       (Some (detail.set_input detail.InputByteFlowSink reader)))
      end
  end.

(** *** Binlog::update_write_encryption *)
Definition update_write_encryption (b : Binlog) : Binlog :=
  match encryption_type_ b with
  | EncryptionType_None =>
      b |> set_fd_output_reader_ OutputBufferReader
        |> set_byte_flow_flag_ false
  | EncryptionType_AesCtr =>
      b |> set_aes_xcode_byte_flow_ (aes_ctr_state_ b)
        |> set_aes_ctr_state_ None
        |> set_byte_flow_sink_ []
        |> set_byte_flow_flag_ true
        |> set_fd_output_reader_ OutputByteFlowSink
  end.

(** *** Binlog::do_event *)

(** Lines 309-346: an [AesCtrEncryption] record is parsed, its key is
    found and checked, and the encryption of the stream is switched. *)
Definition do_event_encryption (event : BinlogEvent) (b : Binlog)
  : Outcome Binlog :=
  let encryption_event := detail.parse (data_ event) in
  let key_hash := detail.key_hash_ encryption_event in
  key ← (if slice_eqb (aes_ctr_key_salt_ b) (detail.key_salt_ encryption_event)
         then mret (aes_ctr_key_ b)
         else if negb (DbKey_is_empty (db_key_ b))
         then detail.generate_key encryption_event (db_key_ b)
         else mret []);
  '(key, b) ←
    (if negb (slice_eqb (detail.generate_hash key) key_hash) then
       _ ← CHECK (bool_decide (state_ b = Load)) "state_ == State::Load";
       if negb (DbKey_is_empty (old_db_key_ b)) then
         key ← detail.generate_key encryption_event (old_db_key_ b);
         if negb (slice_eqb (detail.generate_hash key) key_hash)
         then mret (key, update_info (set_wrong_password true) b)
         else mret (key, b)
       else mret (key, update_info (set_wrong_password true) b)
     else mret (key, set_db_key_used_ true b));
  let b := b |> set_encryption_type_ EncryptionType_AesCtr
             |> set_aes_ctr_key_salt_ (detail.key_salt_ encryption_event) in
  b ← update_encryption key (detail.iv_ encryption_event) b;
  if decide (state_ b = Load) then update_read_encryption b
  else
    _ ← CHECK (bool_decide (state_ b = Reindex)) "state_ == State::Reindex";
    b ← flush b;
    mret (update_write_encryption b).

(** [void Binlog::do_event(BinlogEvent &&event)], lines 289-353.  The
    result carries what is left of [event] for the caller, who passed it by
    reference. *)
Definition do_event (event : BinlogEvent) (b : Binlog)
  : Outcome (BinlogEvent * Binlog) :=
  let b := b |> set_fd_events_ (wrap_uint64 (fd_events_ b + 1))
             |> set_fd_size_ (wrap_int64 (fd_size_ b + size (raw_event_ event))) in
  let b :=
    match state_ b with
    | Run | Reindex =>
        (* [raw_event_.clone()] and [raw_event_.as_slice()] append the same
           bytes *)
        match encryption_type_ b with
        | EncryptionType_None => buffer_writer_append (raw_event_ event) b
        | EncryptionType_AesCtr => buffer_writer_append (raw_event_ event) b
        end
    | Load => b
    end in
  b ← (if (type_ event <? 0) && (type_ event =? ServiceTypes_AesCtrEncryption)
       then do_event_encryption event b else mret b);
  if decide (state_ b = Reindex) then mret (event, b)
  else
    p ← the_processor b;
    '(event, p) ← processor_add_event event p;
    mret (event, set_processor_ (Some p) b).

(** *** Binlog::do_add_event *)

Definition has_flag (flags flag : Z) : bool := negb (Z.land flags flag =? 0).

(** The loop of lines 245-247. *)
Fixpoint do_events (events : list BinlogEvent) (b : Binlog) : Outcome Binlog :=
  match events with
  | [] => mret b
  | pending_event :: rest =>
      '(_, b) ← do_event pending_event b;
      do_events rest b
  end.

Definition do_add_event (event : BinlogEvent) (b : Binlog) : Outcome Binlog :=
  if has_flag (flags_ event) Flags_Partial then
    let event :=
      event_set_flags (Z.land (flags_ event) (Z.lnot Flags_Partial)) event in
    mret (set_pending_events_ (pending_events_ b ++ [event]) b)
  else
    b ← do_events (pending_events_ b) b;
    let b := set_pending_events_ [] b in
    '(_, b) ← do_event event b;
    mret b.

(** *** Binlog::reset_encryption *)
Definition reset_encryption (b : Binlog) : Outcome Binlog :=
  if DbKey_is_empty (db_key_ b) then
    mret (set_encryption_type_ EncryptionType_None b)
  else
    let '(key_salt, b) :=
      if size (aes_ctr_key_salt_ b) =? 0 then
        let '(salt, fs') :=
          secure_bytes (Z.to_nat detail.default_salt_size) (fs b) in
        (salt, set_fs fs' b)
      else (aes_ctr_key_salt_ b, b) in
    let '(iv, fs') := secure_bytes (Z.to_nat detail.iv_size) (fs b) in
    let b := set_fs fs' b in
    let event := detail.mkAesCtrEncryptionEvent key_salt iv [] in
    key ← (if slice_eqb (aes_ctr_key_salt_ b) key_salt then mret (aes_ctr_key_ b)
           else detail.generate_key event (db_key_ b));
    let event :=
      detail.mkAesCtrEncryptionEvent key_salt iv (detail.generate_hash key) in
    raw_event ← BinlogEvent_of_raw
      (BinlogEvent_create_raw 0 ServiceTypes_AesCtrEncryption 0
         (detail.store event));
    '(_, b) ← do_event raw_event b;
    mret b.

(** *** file_size *)
Definition file_size (path : string) (f : FS) : Z :=
  match stat path f with
  | Err _ => 0
  | Ok sz => sz
  end.

(** *** Binlog::do_reindex *)

(** [processor_->for_each] with the visitor of lines 595-597: every live
    event goes through [do_event] by reference. *)
Fixpoint for_each_do_event (events : list BinlogEvent) (b : Binlog)
  : Outcome (list BinlogEvent * Binlog) :=
  match events with
  | [] => mret ([], b)
  | event :: rest =>
      '(event, b) ← do_event event b;
      '(rest, b) ← for_each_do_event rest b;
      mret (event :: rest, b)
  end.

Definition new_path (b : Binlog) : string := path_ b +:+ ".new".

(** Lines 583-593: the new file becomes [fd_], written without
    encryption so far, and the counters start again. *)
Definition reindex_start (opened_file : FileFd) (b : Binlog) : Binlog :=
  let b := fd_close b in
  let b := set_fd_ (Some opened_file) b in
  let b := reset_buffers b in
  let b := set_encryption_type_ EncryptionType_None b in
  let b := update_write_encryption b in
  b |> set_fd_size_ 0 |> set_fd_events_ 0.

(** Lines 595-597. *)
Definition reindex_replay (b : Binlog) : Outcome Binlog :=
  p ← the_processor b;
  '(visited, b) ← for_each_do_event (processor_events p) b;
  p ← the_processor b;
  mret (set_processor_ (Some (processor_set_events visited p)) b).

(** Lines 601-626: the new file takes the place of the old one. *)
Definition reindex_finish (b : Binlog) : Outcome Binlog :=
  let '(status, fs') := unlink (path_ b) (fs b) in
  _ ← ensure_ok status "Failed to unlink old binlog";
  let '(status, fs') := rename (new_path b) (path_ b) fs' in
  _ ← ensure_ok status "Failed to rename binlog";
  let b := set_fs fs' b in
  _ ← CHECK (fd_size_ b =? file_size (path_ b) (fs b))
        "fd_size_ == file_size(path_)";
  let b := reset_buffers b in
  let b :=
    match encryption_type_ b with
    | EncryptionType_AesCtr =>
        b |> set_aes_ctr_state_ (aes_xcode_byte_flow_ b)
          |> set_aes_xcode_byte_flow_ None
    | EncryptionType_None => b
    end in
  let b := update_write_encryption b in
  (* SCOPE_EXIT *)
  mret (set_state_ Run b).

Definition do_reindex (b : Binlog) : Outcome Binlog :=
  let '(_, b) := flush_events_buffer true b in
  (* start reindex *)
  _ ← CHECK (bool_decide (state_ b = Run)) "state_ == State::Run";
  let b := set_state_ Reindex b in
  let '(r_opened_file, fs') :=
    open_binlog (new_path b) [Flag_Write; Flag_Create; Flag_Truncate] (fs b) in
  let b := set_fs fs' b in
  match r_opened_file with
  | Err _ => (* SCOPE_EXIT *) mret (set_state_ Run b)
  | Ok opened_file =>
      let b := reindex_start opened_file b in
      (* reindex *)
      b ← reset_encryption b;
      b ← reindex_replay b;
      let b := set_need_sync_ true b in
      b ← sync b;
      (* finish_reindex *)
      reindex_finish b
  end.

(** *** Binlog::add_event *)

(** The lambda [need_reindex] of lines 215-217, on the value of
    [processor_->total_raw_events_size()]. *)
Definition need_reindex (fd_size total_raw_events_size min_size rate : Z)
  : bool :=
  (fd_size >? min_size) && (Z.quot fd_size rate >? total_raw_events_size).

(** The condition of line 218. *)
Definition reindex_condition (fd_size total_raw_events_size : Z) : bool :=
  need_reindex fd_size total_raw_events_size 100000 5
  || need_reindex fd_size total_raw_events_size 500000 2.

Definition add_event (event : BinlogEvent) (b : Binlog) : Outcome Binlog :=
  b ← do_add_event event b;
  b ← lazy_flush b;
  if decide (state_ b = Run) then
    let fd_size := fd_size_ b in
    p ← the_processor b;
    if reindex_condition fd_size (processor_total_raw_events_size p)
    then do_reindex b
    else mret b
  else mret b.

(** *** Binlog::change_key *)
Definition change_key (new_db_key : DbKey) (b : Binlog) : Outcome Binlog :=
  do_reindex (b |> set_db_key_ new_db_key |> set_aes_ctr_key_salt_ []).

(** *** Binlog::close *)
Definition close (need_sync : bool) (b : Binlog) : Outcome (Status * Binlog) :=
  match fd_ b with
  | None => mret (Status_OK, b)
  | Some _ =>
      b ← (if need_sync then sync b else flush b);
      (* SCOPE_EXIT *)
      let b := b |> set_path_ "" |> update_info (set_is_opened false)
                 |> fd_close |> set_need_sync_ false in
      mret (Status_OK, b)
  end.

(** *** Binlog::load_binlog *)

(** The buffer [reader.input_] points at, and its replacement. *)
Definition reader_input (r : detail.BinlogReader) (b : Binlog) : Outcome bytes :=
  match detail.input_ r with
  | detail.InputUnset => Fatal "input_ is not set"
  | detail.InputBufferReader => mret (buffer_reader_ b)
  | detail.InputByteFlowSink => mret (byte_flow_sink_ b)
  end.

Definition set_reader_input (r : detail.BinlogReader) (input : bytes)
  (b : Binlog) : Binlog :=
  match detail.input_ r with
  | detail.InputUnset => b
  | detail.InputBufferReader => set_buffer_reader_ input b
  | detail.InputByteFlowSink => set_byte_flow_sink_ input b
  end.

(** [reader.read_next(&event)] on the reader of [load_binlog], which
    [binlog_reader_ptr_] points at. *)
Definition reader_read_next (event : BinlogEvent) (b : Binlog)
  : Outcome (Result Z * BinlogEvent * Binlog) :=
  match binlog_reader_ptr_ b with
  | None => Fatal "binlog_reader_ptr_"
  | Some reader =>
      input ← reader_input reader b;
      let out := detail.read_next reader input event in
      mret (detail.rn_result out, detail.rn_event out,
            b |> set_reader_input reader (detail.rn_input out)
              |> set_binlog_reader_ptr_ (Some (detail.rn_reader out)))
  end.

(** How one turn of the loop of lines 449-484 ends. *)
Inductive LoopStep :=
| Continue (ready_flag : bool) (b : Binlog)
| Break (b : Binlog)
| Return (status : Status) (b : Binlog).

Definition call (callback : Callback) (event : BinlogEvent)
  (calls : list BinlogEvent) : list BinlogEvent :=
  match callback with
  | Callback_set => calls ++ [event]
  | Callback_empty => calls
  end.

Definition load_iteration (debug_callback : Callback) (ready_flag : bool)
  (b : Binlog) : Outcome LoopStep :=
  '(r_need_size, event, b) ← reader_read_next BinlogEvent_default b;
  match r_need_size with
  | Err _ => mret (Break b)
  | Ok need_size =>
      if need_size =? 0 then
        if IGNORE_ERASE_HACK b && (type_ event =? ServiceTypes_Empty)
           && has_flag (flags_ event) Flags_Rewrite
        then (* skip erase *) mret (Continue false b)
        else
          let b :=
            set_debug_callback_calls
              (call debug_callback event (debug_callback_calls b)) b in
          b ← do_add_event event b;
          if wrong_password (info_ b) then mret (Return Status_OK b)
          else mret (Continue false b)
      else
        if ready_flag then mret (Break b)
        else
          '(status, b) ← fd_flush_read (Z.max need_size 4096) b;
          if is_error status then mret (Return status b)
          else
            let b := sync_with_writer b in
            b ← (if byte_flow_flag_ b then byte_flow_source_wakeup b
                 else mret b);
            mret (Continue true b)
  end.

(** [while (true)]: the loop ends by [break] or [return]; the model runs
    it for at most [fuel] turns. *)
Inductive LoopExit :=
| Broken (b : Binlog)
| Returned (status : Status) (b : Binlog).

Fixpoint load_loop (fuel : nat) (debug_callback : Callback)
  (ready_flag : bool) (b : Binlog) : Outcome LoopExit :=
  match fuel with
  | O => OutOfFuel
  | S fuel =>
      step ← load_iteration debug_callback ready_flag b;
      match step with
      | Continue ready_flag b => load_loop fuel debug_callback ready_flag b
      | Break b => mret (Broken b)
      | Return status b => mret (Returned status b)
      end
  end.

(** Lines 436-448, before the loop.  [fd_.set_input_writer] makes
    [buffer_writer_] the destination of [fd_.flush_read] (see
    [fd_flush_read]); [fd_.update_flags] changes nothing the engine
    reads. *)
Definition load_start (b : Binlog) : Outcome Binlog :=
  let b := set_state_ Load b in
  let b := reset_buffers b in
  let b := set_binlog_reader_ptr_ (Some detail.BinlogReader_default) b in
  b ← update_read_encryption b;
  mret (update_info (set_wrong_password false) b).

(** Lines 502-512: the engine leaves [Load] for [Run] and is wired for
    writing. *)
Definition switch_to_run (b : Binlog) : Binlog :=
  let b := b |> set_binlog_reader_ptr_ None |> set_state_ Run in
  let b := reset_buffers b in
  (* reuse aes_ctr_state_ *)
  let b :=
    match encryption_type_ b with
    | EncryptionType_AesCtr =>
        b |> set_aes_ctr_state_ (aes_xcode_byte_flow_ b)
          |> set_aes_xcode_byte_flow_ None
    | EncryptionType_None => b
    end in
  update_write_encryption b.

(** Lines 486-514, after the loop. *)
Definition load_finish (callback : Callback) (b : Binlog)
  : Outcome (Status * Binlog) :=
  p ← the_processor b;
  let offset := processor_offset p in
  let b :=
    set_callback_calls
      (foldl (fun calls event => call callback event calls)
         (callback_calls b) (processor_events p)) b in
  fd ← the_fd b;
  let fd_size := FileFd_get_size fd (fs b) in
  b ← (if negb (offset =? fd_size) then
         let '(status, fs') := FileFd_seek fd offset (fs b) in
         _ ← ensure_ok status "fd_.seek(offset)";
         let '(status, fs') :=
           FileFd_truncate_to_current_position fd offset fs' in
         _ ← ensure_ok status "fd_.truncate_to_current_position(offset)";
         mret (b |> set_fs fs' |> set_db_key_used_ false (* force reindex *))
       else mret b);
  _ ← CHECK (IGNORE_ERASE_HACK b || (fd_size_ b =? offset))
        "IGNORE_ERASE_HACK || fd_size_ == offset";
  mret (Status_OK, switch_to_run b).

Definition load_binlog (fuel : nat) (callback debug_callback : Callback)
  (b : Binlog) : Outcome (Status * Binlog) :=
  b ← load_start b;
  exit ← load_loop fuel debug_callback false b;
  match exit with
  | Returned status b => mret (status, b)
  | Broken b => load_finish callback b
  end.

(** *** Binlog::init *)

(** The condition of line 193. *)
Definition init_needs_reindex (b : Binlog) : bool :=
  (negb (DbKey_is_empty (db_key_ b)) && negb (db_key_used_ b))
  || (DbKey_is_empty (db_key_ b)
      && match encryption_type_ b with
         | EncryptionType_None => false
         | EncryptionType_AesCtr => true
         end).

Definition wrong_password_status : Status :=
  Status_Error WrongPassword "Wrong password" [].

(** Lines 186-199, after [load_binlog] has returned without error. *)
Definition init_finish (b : Binlog) : Outcome (Status * Binlog) :=
  p ← the_processor b;
  let b := b |> update_info (set_last_id (processor_last_id p))
             |> set_last_id_ (processor_last_id p) in
  if wrong_password (info_ b) then
    '(_, b) ← close true b;
    mret (wrong_password_status, b)
  else
    b ← (if init_needs_reindex b
         then do_reindex (set_aes_ctr_key_salt_ [] b)
         else mret b);
    mret (Status_OK, update_info (set_is_opened true) b).

(** Lines 159-179, up to the load: [OK] when the file is open. *)
Definition init_start (path : string) (db_key old_db_key : DbKey) (b : Binlog)
  : Outcome (Status * Binlog) :=
  '(_, b) ← close true b;
  let b := b |> set_db_key_ db_key |> set_old_db_key_ old_db_key in
  let b := set_processor_ (Some BinlogEventsProcessor_new) b in
  (* try to restore binlog from regenerated version *)
  let b :=
    match stat path (fs b) with
    | Err _ => set_fs (rename (path +:+ ".new") path (fs b)).2 b
    | Ok _ => b
    end in
  let b := set_info_ BinlogInfo_default b in
  let b :=
    update_info
      (set_was_created
         (match stat path (fs b) with Err _ => true | Ok _ => false end)) b in
  let '(r_fd, fs') :=
    open_binlog path [Flag_Read; Flag_Write; Flag_Create] (fs b) in
  let b := set_fs fs' b in
  match r_fd with
  | Err status => mret (status, b)
  | Ok fd =>
      mret (Status_OK,
            b |> set_fd_ (Some fd) |> set_fd_output_reader_ OutputUnset
              |> set_fd_size_ 0 |> set_path_ path)
  end.

Definition init (fuel : nat) (path : string) (callback : Callback)
  (db_key old_db_key : DbKey) (debug_callback : Callback) (b : Binlog)
  : Outcome (Status * Binlog) :=
  '(status, b) ← init_start path db_key old_db_key b;
  if is_error status then mret (status, b)
  else
    '(status, b) ← load_binlog fuel callback debug_callback b;
    if is_error status then
      '(_, b) ← close true b;
      mret (status, b)
    else init_finish b.

End Engine.

Section EngineMore.
Context `{Codec} `{Crypto} `{Platform} `{EventsProcessor}.

(** *** Binlog::destroy *)
Definition destroy (path : string) (f : FS) : Status * FS :=
  let '(_, f) := unlink path f in
  let '(_, f) := unlink (path +:+ ".new") f in
  (Status_OK, f).

(** *** Binlog::close_and_destroy *)
Definition close_and_destroy (b : Binlog) : Outcome (Status * Binlog) :=
  let path := path_ b in
  '(close_status, b) ← close false b;
  let '(_, f) := destroy path (fs b) in
  mret (close_status, set_fs f b).

End EngineMore.

(** ** Notions used by the properties *)

Section Notions.
Context `{Codec} `{Crypto} `{Platform} `{EventsProcessor}.

(** [event.flags_ &= ~BinlogEvent::Flags::Partial] *)
Definition clear_partial (event : BinlogEvent) : BinlogEvent :=
  event_set_flags (Z.land (flags_ event) (Z.lnot Flags_Partial)) event.

(** Successive calls of [do_add_event]. *)
Fixpoint do_add_events (events : list BinlogEvent) (b : Binlog)
  : Outcome Binlog :=
  match events with
  | [] => mret b
  | event :: rest => b ← do_add_event event b; do_add_events rest b
  end.

(** Successive calls of [processor_->add_event], each on what the one
    before left of the processor. *)
Fixpoint processor_add_events (events : list BinlogEvent)
  (p : BinlogEventsProcessor) : Outcome BinlogEventsProcessor :=
  match events with
  | [] => mret p
  | event :: rest =>
      '(_, p) ← processor_add_event event p;
      processor_add_events rest p
  end.

(** The test of lines 307-308. *)
Definition is_key_record (event : BinlogEvent) : bool :=
  (type_ event <? 0) && (type_ event =? ServiceTypes_AesCtrEncryption).

(** Lines 290-305 in state [Run] or [Reindex]: the counters move and the
    raw bytes of the event are appended to [buffer_writer_]. *)
Definition write_event (b : Binlog) (event : BinlogEvent) : Binlog :=
  b |> set_fd_events_ (wrap_uint64 (fd_events_ b + 1))
    |> set_fd_size_ (wrap_int64 (fd_size_ b + size (raw_event_ event)))
    |> buffer_writer_append (raw_event_ event).

(** What a turn of the load loop got from [read_next]. *)
Inductive Turn :=
| Need (need_size : Z)
| Produced (event : BinlogEvent)
| Failed.

Definition turn_of (r_need_size : Result Z) (event : BinlogEvent) : Turn :=
  match r_need_size with
  | Err _ => Failed
  | Ok need_size => if need_size =? 0 then Produced event else Need need_size
  end.

(** The turns of a run of the load loop, from [ready_flag] and an engine
    state to its exit. *)
Inductive runs (debug_callback : Callback)
  : bool -> Binlog -> list Turn -> LoopExit -> Prop :=
| runs_break ready_flag b r event b1 b' :
    reader_read_next BinlogEvent_default b = Done (r, event, b1) ->
    load_iteration debug_callback ready_flag b = Done (Break b') ->
    runs debug_callback ready_flag b [turn_of r event] (Broken b')
| runs_return ready_flag b r event b1 status b' :
    reader_read_next BinlogEvent_default b = Done (r, event, b1) ->
    load_iteration debug_callback ready_flag b = Done (Return status b') ->
    runs debug_callback ready_flag b [turn_of r event] (Returned status b')
| runs_continue ready_flag b r event b1 ready_flag' b' turns exit :
    reader_read_next BinlogEvent_default b = Done (r, event, b1) ->
    load_iteration debug_callback ready_flag b
      = Done (Continue ready_flag' b') ->
    runs debug_callback ready_flag' b' turns exit ->
    runs debug_callback ready_flag b (turn_of r event :: turns) exit.

(** What the pipeline does with the bytes read, lines 478-481. *)
Definition propagate (b : Binlog) : Outcome Binlog :=
  let b := sync_with_writer b in
  if byte_flow_flag_ b then byte_flow_source_wakeup b else mret b.

(** The key a loaded [AesCtrEncryption] record is first checked with,
    lines 312-317. *)
Definition candidate_key (encryption_event : detail.AesCtrEncryptionEvent)
  (b : Binlog) : Outcome bytes :=
  if slice_eqb (aes_ctr_key_salt_ b) (detail.key_salt_ encryption_event)
  then mret (aes_ctr_key_ b)
  else if negb (DbKey_is_empty (db_key_ b))
  then detail.generate_key encryption_event (db_key_ b)
  else mret [].

(** The record [reset_encryption] writes for a salt, an iv and a key. *)
Definition key_record (key_salt iv key : bytes) : bytes :=
  BinlogEvent_create_raw 0 ServiceTypes_AesCtrEncryption 0
    (detail.store
       (detail.mkAesCtrEncryptionEvent key_salt iv (detail.generate_hash key))).

End Notions.

(** ** Notions used by the properties of the reader *)

Section ReaderNotions.
Context `{Codec}.

(** Successive calls of [read_next], each on a fresh [BinlogEvent] as in
    the loop of [load_binlog], for as long as they produce an event and at
    most [n] times: the events, the reader and what is left of the
    input. *)
Fixpoint read_events (n : nat) (r : detail.BinlogReader) (input : bytes)
  : list BinlogEvent * detail.BinlogReader * bytes :=
  match n with
  | O => ([], r, input)
  | S n =>
      let out := detail.read_next r input BinlogEvent_default in
      match detail.rn_result out with
      | Ok 0 =>
          let '(events, r', input') :=
            read_events n (detail.rn_reader out) (detail.rn_input out) in
          (detail.rn_event out :: events, r', input')
      | _ => ([], detail.rn_reader out, detail.rn_input out)
      end
  end.

(** A record as [read_next] accepts it: its length field holds its size,
    the size is within the bounds, and [BinlogEvent::init] takes it. *)
Definition framed (raw : bytes) : Prop :=
  detail.peek_size raw = size raw
  /\ MIN_EVENT_SIZE <= size raw <= MAX_EVENT_SIZE
  /\ (BinlogEvent_init raw true BinlogEvent_default).1 = Status_OK.

(** The events of a list of records, with the running offset behind
    each. *)
Fixpoint decoded (offset : Z) (records : list bytes) : list BinlogEvent :=
  match records with
  | [] => []
  | raw :: rest =>
      let offset := wrap_int64 (offset + size raw) in
      event_set_offset offset
        (BinlogEvent_init raw true BinlogEvent_default).2
      :: decoded offset rest
  end.

End ReaderNotions.

(** ** Notions used by the properties of key records *)

Section KeyNotions.
Context `{Codec} `{Crypto} `{Platform} `{EventsProcessor}.

(** The engine when an accepted key record is installed: the key over
    the head of [aes_ctr_key_], the iv over 16 zero bytes. *)
Definition install_key (encryption_event : detail.AesCtrEncryptionEvent)
  (key : bytes) (b : Binlog) : Binlog :=
  let aes_key := key ++ drop (length key) (aes_ctr_key_ b) in
  let aes_iv :=
    detail.iv_ encryption_event
      ++ drop (length (detail.iv_ encryption_event)) (replicate 16 x00) in
  b |> set_db_key_used_ true
    |> set_encryption_type_ EncryptionType_AesCtr
    |> set_aes_ctr_key_salt_ (detail.key_salt_ encryption_event)
    |> set_aes_ctr_key_ aes_key
    |> set_aes_ctr_state_ (Some (AesCtrState_init aes_key aes_iv)).

End KeyNotions.


(** ** A reference platform

    An executable instance of every interface, so that the engine can be
    run on concrete files: the record layout of the spec with a real CRC32,
    the TL encoding of byte strings, an in-memory file system, the events
    processor as the spec describes it, and small stand-ins for the
    cryptographic primitives. *)

Module Reference.

Definition byte_of_Z (z : Z) : byte :=
  default x00 (Byte.of_N (Z.to_N (z mod 256))).

Fixpoint Z_to_le (n : nat) (z : Z) : bytes :=
  match n with
  | O => []
  | S n => byte_of_Z z :: Z_to_le n (z / 256)
  end.

(** The bytes [from, from + len) of a buffer. *)
Definition sub_bytes (from len : Z) (s : bytes) : bytes :=
  head_bytes len (tail_bytes from s).

(** *** CRC32 (polynomial 0xEDB88320, reflected) *)

Fixpoint crc32_bits (n : nat) (crc : Z) : Z :=
  match n with
  | O => crc
  | S n =>
      crc32_bits n
        (if Z.testbit crc 0 then Z.lxor (Z.shiftr crc 1) 3988292384
         else Z.shiftr crc 1)
  end.

Definition crc32_update (crc : Z) (b : byte) : Z :=
  crc32_bits 8 (Z.lxor crc (byte_to_Z b)).

Definition crc32 (s : bytes) : Z :=
  Z.lxor (foldl crc32_update 4294967295 s) 4294967295.

(** *** The framed record

    Modelled from the spec: BinlogEvent.cpp is not among the sources; the
    layout is the table of section 3 (size, id, type, flags, extra,
    payload, CRC32, little-endian) and [decode] verifies the size and the
    CRC. *)
Definition pad4 (s : bytes) : bytes :=
  s ++ replicate (Z.to_nat ((- size s) mod 4)) x00.

Definition create_raw (id type flags : Z) (payload : bytes) : bytes :=
  let payload := pad4 payload in
  let body :=
    Z_to_le 4 (MIN_EVENT_SIZE + size payload) ++ Z_to_le 8 id
      ++ Z_to_le 4 type ++ Z_to_le 4 flags ++ Z_to_le 8 0 ++ payload in
  body ++ Z_to_le 4 (crc32 body).

Definition bad_size : Status := Status_Error GenericError "BadSize" [].
Definition bad_crc : Status := Status_Error GenericError "BadCrc" [].

Definition init_event (raw : bytes) (check_crc : bool) (event : BinlogEvent)
  : Status * BinlogEvent :=
  let n := size raw in
  let event' :=
    mkBinlogEvent
      (le_to_Z (sub_bytes 4 8 raw))
      (wrap_int32 (le_to_Z (sub_bytes 12 4 raw)))
      (wrap_int32 (le_to_Z (sub_bytes 16 4 raw)))
      (sub_bytes 28 (n - MIN_EVENT_SIZE) raw)
      (offset_ event)
      raw in
  if (n <? MIN_EVENT_SIZE) || negb (le_to_Z (sub_bytes 0 4 raw) =? n)
  then (bad_size, event')
  else if check_crc
          && negb (crc32 (head_bytes (n - 4) raw)
                   =? le_to_Z (sub_bytes (n - 4) 4 raw))
  then (bad_crc, event')
  else (Status_OK, event').

(** *** TL byte strings: a length prefix, the bytes, padding to a multiple
    of four. *)
Definition tl_store_bytes (s : bytes) : bytes :=
  if size s <? 254 then pad4 (byte_of_Z (size s) :: s)
  else pad4 (xfe :: Z_to_le 3 (size s) ++ s).

Definition tl_parse_bytes (input : bytes) : bytes * bytes :=
  match input with
  | [] => ([], [])
  | b :: rest =>
      if byte_to_Z b <? 254 then
        let n := byte_to_Z b in
        (head_bytes n rest, tail_bytes (n + (- (1 + n)) mod 4) rest)
      else
        let n := le_to_Z (head_bytes 3 rest) in
        (sub_bytes 3 n rest, tail_bytes (3 + n + (- n) mod 4) rest)
  end.

(** The values of the flag bits and of the service types are those of an
    instance; the properties below hold for any values. *)
#[global] Instance codec : Codec := {|
  Flags_Rewrite := 1;
  Flags_Partial := 2;
  ServiceTypes_Empty := -1;
  ServiceTypes_AesCtrEncryption := -3;
  BinlogEvent_init := init_event;
  BinlogEvent_create_raw := create_raw;
  tl_store := tl_store_bytes;
  tl_parse := tl_parse_bytes
|}.

(** *** Stand-ins for the cryptographic primitives *)

Definition xor_byte (a b : byte) : byte :=
  default x00 (Byte.of_N (N.lxor (Byte.to_N a) (Byte.to_N b))).

Fixpoint xor_bytes (a b : bytes) : bytes :=
  match a, b with
  | x :: a, y :: b => xor_byte x y :: xor_bytes a b
  | _, _ => a
  end.

(** a keyed digest of 32 bytes: CRC32 of the key followed by the message,
    then the first 28 bytes of the key *)
Definition toy_hmac (key message : bytes) : bytes :=
  Z_to_le 4 (crc32 (key ++ message)) ++ resize 28 x00 key.

Definition toy_pbkdf2 (password salt : bytes) (iteration_count : Z) : bytes :=
  Z_to_le 4 (crc32 (password ++ salt ++ Z_to_le 4 iteration_count))
    ++ resize 28 x00 (xor_bytes (resize 28 x00 salt) password).

(** key, iv and the number of bytes already produced *)
Record ToyCtr := mkToyCtr { ctr_key : bytes; ctr_iv : bytes; ctr_pos : Z }.

Definition keystream_byte (st : ToyCtr) : byte :=
  xor_byte
    (xor_byte
       (default x00 (ctr_key st !! Z.to_nat (ctr_pos st mod 32)))
       (default x00 (ctr_iv st !! Z.to_nat (ctr_pos st mod 16))))
    (byte_of_Z (ctr_pos st)).

Fixpoint toy_ctr (st : ToyCtr) (s : bytes) : bytes * ToyCtr :=
  match s with
  | [] => ([], st)
  | b :: rest =>
      let c := xor_byte b (keystream_byte st) in
      let '(out, st') :=
        toy_ctr (mkToyCtr (ctr_key st) (ctr_iv st) (ctr_pos st + 1)) rest in
      (c :: out, st')
  end.

#[global] Instance crypto : Crypto := {|
  pbkdf2_sha256 := toy_pbkdf2;
  hmac_sha256 := toy_hmac;
  AesCtrState := ToyCtr;
  AesCtrState_init := fun key iv => mkToyCtr key iv 0;
  AesCtrState_encrypt := toy_ctr
|}.

(** *** An in-memory file system

    Names map to inodes, inodes to contents, descriptors to an inode and a
    position; [locked] holds the names another process has locked;
    [entropy] is what the random generator will return and [clock] the
    cached time. *)
Record MemFS := mkMemFS {
  names : gmap string nat;
  inodes : gmap nat bytes;
  descriptors : gmap nat (nat * Z);
  locked : gset nat;
  next_id : nat;
  entropy : bytes;
  clock : Q
}.

Definition set_names v (f : MemFS) :=
  mkMemFS v (inodes f) (descriptors f) (locked f) (next_id f) (entropy f) (clock f).
Definition set_inodes v (f : MemFS) :=
  mkMemFS (names f) v (descriptors f) (locked f) (next_id f) (entropy f) (clock f).
Definition set_descriptors v (f : MemFS) :=
  mkMemFS (names f) (inodes f) v (locked f) (next_id f) (entropy f) (clock f).
Definition set_next_id v (f : MemFS) :=
  mkMemFS (names f) (inodes f) (descriptors f) (locked f) v (entropy f) (clock f).
Definition set_entropy v (f : MemFS) :=
  mkMemFS (names f) (inodes f) (descriptors f) (locked f) (next_id f) v (clock f).

Definition io_error (what : string) : Status :=
  Status_Error GenericError what [].

Definition content (inode : nat) (f : MemFS) : bytes :=
  default [] (inodes f !! inode).

Definition mem_stat (path : string) (f : MemFS) : Result Z :=
  match names f !! path with
  | Some inode => Ok (size (content inode f))
  | None => Err (io_error "stat")
  end.

Definition mem_rename (from to : string) (f : MemFS) : Status * MemFS :=
  match names f !! from with
  | Some inode => (Status_OK, set_names (<[to := inode]> (delete from (names f))) f)
  | None => (io_error "rename", f)
  end.

Definition mem_unlink (path : string) (f : MemFS) : Status * MemFS :=
  match names f !! path with
  | Some _ => (Status_OK, set_names (delete path (names f)) f)
  | None => (io_error "unlink", f)
  end.

Definition has_open_flag (flag : OpenFlag) (flags : list OpenFlag) : bool :=
  existsb (fun g =>
    match flag, g with
    | Flag_Read, Flag_Read | Flag_Write, Flag_Write
    | Flag_Create, Flag_Create | Flag_Truncate, Flag_Truncate => true
    | _, _ => false
    end) flags.

Definition open_inode (inode : nat) (flags : list OpenFlag) (f : MemFS)
  : Result nat * MemFS :=
  let f :=
    if has_open_flag Flag_Truncate flags
    then set_inodes (<[inode := []]> (inodes f)) f else f in
  let fd := next_id f in
  (Ok fd, f |> set_descriptors (<[fd := (inode, 0)]> (descriptors f))
            |> set_next_id (S fd)).

Definition mem_open (path : string) (flags : list OpenFlag) (f : MemFS)
  : Result nat * MemFS :=
  match names f !! path with
  | Some inode => open_inode inode flags f
  | None =>
      if has_open_flag Flag_Create flags then
        let inode := next_id f in
        open_inode inode flags
          (f |> set_names (<[path := inode]> (names f))
             |> set_inodes (<[inode := []]> (inodes f))
             |> set_next_id (S inode))
      else (Err (io_error "open"), f)
  end.

Definition mem_lock (fd : nat) (f : MemFS) : Status * MemFS :=
  match descriptors f !! fd with
  | Some (inode, _) =>
      if bool_decide (inode ∈ locked f) then (io_error "lock", f)
      else (Status_OK, f)
  | None => (io_error "lock", f)
  end.

Definition mem_read (fd : nat) (max_read : Z) (f : MemFS)
  : Result bytes * MemFS :=
  match descriptors f !! fd with
  | Some (inode, pos) =>
      let data := sub_bytes pos max_read (content inode f) in
      (Ok data,
       set_descriptors (<[fd := (inode, pos + size data)]> (descriptors f)) f)
  | None => (Err (io_error "read"), f)
  end.

Definition mem_write (fd : nat) (data : bytes) (f : MemFS) : Result Z * MemFS :=
  match descriptors f !! fd with
  | Some (inode, pos) =>
      let old := content inode f in
      let new :=
        resize (Z.to_nat pos) x00 old ++ data
          ++ tail_bytes (pos + size data) old in
      (Ok (size data),
       f |> set_inodes (<[inode := new]> (inodes f))
         |> set_descriptors (<[fd := (inode, pos + size data)]> (descriptors f)))
  | None => (Err (io_error "write"), f)
  end.

Definition mem_sync (fd : nat) (f : MemFS) : Status * MemFS :=
  match descriptors f !! fd with
  | Some _ => (Status_OK, f)
  | None => (io_error "sync", f)
  end.

Definition mem_seek (fd : nat) (position : Z) (f : MemFS) : Status * MemFS :=
  match descriptors f !! fd with
  | Some (inode, _) =>
      (Status_OK, set_descriptors (<[fd := (inode, position)]> (descriptors f)) f)
  | None => (io_error "seek", f)
  end.

Definition mem_truncate (fd : nat) (current_position : Z) (f : MemFS)
  : Status * MemFS :=
  match descriptors f !! fd with
  | Some (inode, pos) =>
      (Status_OK,
       set_inodes
         (<[inode := resize (Z.to_nat pos) x00 (content inode f)]> (inodes f)) f)
  | None => (io_error "truncate", f)
  end.

Definition mem_get_size (fd : nat) (f : MemFS) : Z :=
  match descriptors f !! fd with
  | Some (inode, _) => size (content inode f)
  | None => 0
  end.

Definition mem_close (fd : nat) (f : MemFS) : MemFS :=
  set_descriptors (delete fd (descriptors f)) f.

Definition mem_secure_byte (f : MemFS) : byte * MemFS :=
  match entropy f with
  | [] => (x00, f)
  | b :: rest => (b, set_entropy rest f)
  end.

#[global] Instance platform : Platform := {|
  FS := MemFS;
  FileFd := nat;
  stat := mem_stat;
  rename := mem_rename;
  unlink := mem_unlink;
  FileFd_open := mem_open;
  FileFd_lock := mem_lock;
  FileFd_read := mem_read;
  FileFd_write := mem_write;
  FileFd_sync := mem_sync;
  FileFd_seek := mem_seek;
  FileFd_truncate_to_current_position := mem_truncate;
  FileFd_get_size := mem_get_size;
  FileFd_close := mem_close;
  Time_now_cached := clock;
  Random_secure_byte := mem_secure_byte
|}.

(** *** The events processor

    Modelled from the spec: BinlogEventsProcessor.cpp is not among the
    sources.  Section 4.3: a Rewrite event replaces the live event of its
    id in place, or removes it when its type is Empty; any other event
    must have an id above [last_id] and is appended; [offset] is that of
    the last event applied.  Service records (negative types) do not enter
    the live set: a file that holds only an AesCtrEncryption record
    replays to an empty live set (section 8). *)
Record Live := mkLive {
  live_events : list BinlogEvent;
  live_total_raw_events_size : Z;
  live_last_id : Z;
  live_offset : Z
}.

Definition same_id (e x : BinlogEvent) : bool := id_ x =? id_ e.

Definition live_add_event (e : BinlogEvent) (p : Live)
  : Outcome (BinlogEvent * Live) :=
  let moved := mkBinlogEvent (id_ e) (type_ e) (flags_ e) [] (offset_ e) [] in
  let store := negb (type_ e =? ServiceTypes_Empty) in
  let added := if store then size (raw_event_ e) else 0 in
  if has_flag (flags_ e) Flags_Rewrite then
    match list_find (fun x => same_id e x = true) (live_events p) with
    | Some (i, old) =>
        mret (moved,
              mkLive
                (if store then <[i := e]> (live_events p)
                 else delete i (live_events p))
                (live_total_raw_events_size p - size (raw_event_ old) + added)
                (live_last_id p) (offset_ e))
    | None =>
        mret (moved,
              mkLive
                (if store then live_events p ++ [e] else live_events p)
                (live_total_raw_events_size p + added)
                (live_last_id p) (offset_ e))
    end
  else if type_ e <? 0 then
    mret (e, mkLive (live_events p) (live_total_raw_events_size p)
                (live_last_id p) (offset_ e))
  else if (id_ e <=? live_last_id p) && negb (live_last_id p =? 0) then
    Fatal "NonMonotonicId"
  else
    mret (moved,
          mkLive (live_events p ++ [e])
            (live_total_raw_events_size p + size (raw_event_ e))
            (id_ e) (offset_ e)).

Definition live_set_events (events : list BinlogEvent) (p : Live) : Live :=
  mkLive events (live_total_raw_events_size p) (live_last_id p) (live_offset p).

#[global] Program Instance processor : EventsProcessor := {|
  BinlogEventsProcessor := Live;
  BinlogEventsProcessor_new := mkLive [] 0 0 0;
  processor_add_event := live_add_event;
  processor_events := live_events;
  processor_set_events := live_set_events;
  processor_offset := live_offset;
  processor_total_raw_events_size := live_total_raw_events_size;
  processor_last_id := live_last_id
|}.
Next Obligation. by intros []. Qed.

(** *** A fresh engine on a given file system *)
Definition fresh (f : MemFS) : Binlog :=
  mkBinlog (mkDbKey DbKey_Empty []) (mkDbKey DbKey_Empty []) None
    BinlogInfo_default None OutputUnset 0 0 "" 0 false EncryptionType_None
    [] (replicate 32 x00) None Load [] [] false None [] None [] false 0%Q
    false f [] [].

Definition empty_fs : MemFS := mkMemFS ∅ ∅ ∅ ∅ 0 [] 0%Q.

(** A file system that holds one file. *)
Definition fs_with (path : string) (data : bytes) (random : bytes) : MemFS :=
  mkMemFS {[ path := 0%nat ]} {[ 0%nat := data ]} ∅ ∅ 1 random 0%Q.

(** The content of the file of that name, if there is one. *)
Definition file_content (path : string) (f : MemFS) : option bytes :=
  inode ← names f !! path; inodes f !! inode.

End Reference.

(** ** Scenarios on the reference platform *)

Module Scenario.
Import Reference.

Definition get {A} (default : A) (o : Outcome A) : A :=
  match o with Done x => x | _ => default end.

Definition no_key : DbKey := mkDbKey DbKey_Empty [].
(** the passwords "pw" and "ww" *)
Definition pw : DbKey := mkDbKey DbKey_Password [x70; x77].
Definition other_pw : DbKey := mkDbKey DbKey_Password [x77; x77].

(** What the random generator will return. *)
Definition random : bytes := map byte_of_Z (seqZ 1 96).

(** [BinlogEvent(BinlogEvent::create_raw(id, type, flags, payload))] *)
Definition event (id type flags : Z) (payload : bytes) : BinlogEvent :=
  get BinlogEvent_default (BinlogEvent_of_raw (create_raw id type flags payload)).

Definition ev1 : bytes := create_raw 1 7 0 [x61].
Definition ev2 : bytes := create_raw 2 7 0 [x62].
(** a Partial event *)
Definition ev3_partial : bytes := create_raw 3 7 Flags_Partial [x78].

(** A log without key: one event, one Partial event, and a record
    whose last three bytes, of its CRC32, are overwritten. *)
Definition torn_file : bytes :=
  ev1 ++ ev3_partial ++ take 33 ev2 ++ [x00; x00; x00].

Definition torn_start : Binlog := fresh (fs_with "log" torn_file []).

(** The engine when [init] has opened the file, when [load_binlog] has
    set up the reader, and when the loop has ended. *)
Definition opened (db_key old_db_key : DbKey) (start : Binlog) : Binlog :=
  (get (Status_OK, start) (init_start "log" db_key old_db_key start)).2.

Definition loading (db_key old_db_key : DbKey) (start : Binlog) : Binlog :=
  get start (load_start (opened db_key old_db_key start)).

Definition loop_exit (db_key old_db_key : DbKey) (start : Binlog) : LoopExit :=
  get (Broken start)
    (load_loop 20 Callback_set false (loading db_key old_db_key start)).

Definition exit_state (exit : LoopExit) : Binlog :=
  match exit with Broken b => b | Returned _ b => b end.

Definition loaded (db_key old_db_key : DbKey) (start : Binlog) : Binlog :=
  (get (Status_OK, start)
     (load_binlog 20 Callback_set Callback_set
        (opened db_key old_db_key start))).2.

(** The engine after one turn of the loop, which found the input empty
    and read the file into it. *)
Definition second_turn (db_key old_db_key : DbKey) (start : Binlog) : Binlog :=
  match get (Break start)
          (load_iteration Callback_set false (loading db_key old_db_key start))
  with
  | Continue _ b => b
  | Break b => b
  | Return _ b => b
  end.

(** What [read_next] returns on that second turn. *)
Definition second_read (db_key old_db_key : DbKey) (start : Binlog)
  : Result Z * BinlogEvent * Binlog :=
  get (Ok 0, BinlogEvent_default, start)
    (reader_read_next BinlogEvent_default (second_turn db_key old_db_key start)).

(** A log created under the password "pw", with two events, closed. *)
Definition encrypted_disk : MemFS :=
  get empty_fs
    ('(_, b) ← init 20 "log" Callback_empty pw no_key Callback_empty
                 (fresh (set_entropy random empty_fs));
     b ← add_event (event 1 7 0 [x61]) b;
     b ← add_event (event 2 7 0 [x62]) b;
     '(_, b) ← close true b;
     mret (fs b)).

Definition encrypted_start : Binlog := fresh encrypted_disk.

(** An engine in state [Run] whose file has grown to 200000 bytes while
    nothing is live. *)
Definition grown : Binlog :=
  fresh empty_fs |> set_state_ Run |> set_fd_size_ 200000
    |> set_processor_ (Some BinlogEventsProcessor_new).

(** An engine in the middle of a reindex. *)
Definition reindexing : Binlog :=
  fresh empty_fs |> set_state_ Reindex
    |> set_processor_ (Some BinlogEventsProcessor_new).

(** The processor, the descriptor and the reader of an engine that has
    them. *)
Definition live_of (b : Binlog) : BinlogEventsProcessor :=
  default BinlogEventsProcessor_new (processor_ b).

Definition fd_of (b : Binlog) : FileFd := default 0%nat (fd_ b).

Definition reader_of (b : Binlog) : detail.BinlogReader :=
  default detail.BinlogReader_default (binlog_reader_ptr_ b).

(** What [read_next] returns on the first turn of the loop. *)
Definition first_read (db_key old_db_key : DbKey) (start : Binlog)
  : Result Z * BinlogEvent * Binlog :=
  get (Ok 0, BinlogEvent_default, start)
    (reader_read_next BinlogEvent_default (loading db_key old_db_key start)).

(** The first record that the load decodes, and the engine when
    [do_add_event] receives it. *)
Definition first_event (db_key old_db_key : DbKey) (start : Binlog)
  : BinlogEvent :=
  (second_read db_key old_db_key start).1.2.

Definition at_first_event (db_key old_db_key : DbKey) (start : Binlog)
  : Binlog :=
  let b := (second_read db_key old_db_key start).2 in
  set_debug_callback_calls
    (call Callback_set (first_event db_key old_db_key start)
       (debug_callback_calls b)) b.

(** The key that [do_event_encryption] derives from [db_key_] there. *)
Definition first_key (db_key old_db_key : DbKey) (start : Binlog) : bytes :=
  get []
    (candidate_key
       (detail.parse (data_ (first_event db_key old_db_key start)))
       (at_first_event db_key old_db_key start)).

(** What the processor returns when it is given an event. *)
Definition replayed (event : BinlogEvent) (p : BinlogEventsProcessor)
  : BinlogEvent * BinlogEventsProcessor :=
  get (BinlogEvent_default, BinlogEventsProcessor_new)
    (processor_add_event event p).

(** The engine [grown] after [do_add_event] and [lazy_flush]. *)
Definition appended : Binlog :=
  get grown (do_add_event (event 1 7 0 [x61]) grown ≫= lazy_flush).

(** An engine with the password "pw", no salt yet, and a random
    generator that has bytes to give. *)
Definition keyed : Binlog :=
  set_db_key_ pw (fresh (set_entropy random empty_fs)).

(** The engine that [init] returns. *)
Definition initialised (db_key old_db_key : DbKey) (start : Binlog) : Binlog :=
  (get (Status_OK, start)
     (init 20 "log" Callback_set db_key old_db_key Callback_set start)).2.

(** Observations of an outcome, of the exit of the loop and of an
    optional value. *)
Definition is_done {A} (o : Outcome A) : bool :=
  match o with Done _ => true | _ => false end.

Definition is_broken (exit : LoopExit) : bool :=
  match exit with Broken _ => true | Returned _ _ => false end.

Definition exit_status (exit : LoopExit) : option Status :=
  match exit with Broken _ => None | Returned status _ => Some status end.

Definition is_some {A} (o : option A) : bool :=
  match o with Some _ => true | None => false end.

(** A log without key that holds two events; the engine that [init]
    returns on it, open and in state [Run]; and the same with a third
    event in its write buffer. *)
Definition plain_start : Binlog := fresh (fs_with "log" (ev1 ++ ev2) []).

Definition running : Binlog := initialised no_key no_key plain_start.

Definition buffering : Binlog :=
  get running (do_add_event (event 3 7 0 [x63]) running).

(** What [flush], [sync] and [close] return. *)
Definition flushed : Binlog := get buffering (flush buffering).
Definition synced : Binlog := get buffering (sync buffering).
Definition closed (need_sync : bool) : Binlog :=
  (get (Status_OK, running) (close need_sync running)).2.

(** A fresh engine after [update_encryption] with a key of one byte. *)
Definition rekeyed : Binlog :=
  get (fresh empty_fs) (update_encryption [x01] [x02] (fresh empty_fs)).

(** The engine at the key record of the encrypted log, with the salt of
    the record and its key cached as a former load left them. *)
Definition remembering : Binlog :=
  at_first_event pw no_key encrypted_start
    |> set_aes_ctr_key_salt_
         (detail.key_salt_
            (detail.parse (data_ (first_event pw no_key encrypted_start))))
    |> set_aes_ctr_key_ (first_key pw no_key encrypted_start).

(** Two more events, and the engine [running] after them. *)
Definition more_events : list BinlogEvent :=
  [event 3 7 0 [x63]; event 4 7 0 [x64]].

Definition counted : Binlog := get running (do_events more_events running).

(** An engine with a password and a cached salt. *)
Definition salted : Binlog := set_aes_ctr_key_salt_ [x01] keyed.

(** A file system on which another process holds the lock of the next
    file to be created; the engine [running] on it. *)
Definition lock_next (f : MemFS) : MemFS :=
  mkMemFS (names f) (inodes f) (descriptors f) {[ next_id f ]} (next_id f)
    (entropy f) (clock f).

Definition jammed : Binlog := set_fs (lock_next (fs running)) running.

Definition reindexed : Binlog := get running (do_reindex running).
Definition changed : Binlog := get running (change_key pw running).

(** The engine when the loop has ended on the torn log, after
    [load_finish], and after [init_finish]. *)
Definition torn_exit : Binlog := exit_state (loop_exit no_key no_key torn_start).

Definition torn_loaded : Binlog :=
  (get (Status_OK, torn_exit) (load_finish Callback_set torn_exit)).2.

Definition torn_opened : Binlog :=
  (get (Status_OK, torn_loaded) (init_finish torn_loaded)).2.

(** The last record of the torn log, whose CRC32 is overwritten. *)
Definition torn_record : bytes := take 33 ev2 ++ [x00; x00; x00].

(** The engine [buffering], one event in its buffer, given the password
    "pw" and put in a reindex. *)
Definition rewriting : Binlog :=
  buffering |> set_db_key_ pw |> set_state_ Reindex.

(** The engine [running] with two Partial events queued, and after the
    event that commits them. *)
Definition partial_events : list BinlogEvent :=
  [event 3 7 Flags_Partial [x78]; event 4 7 Flags_Partial [x79]].

Definition queued : Binlog := get running (do_add_events partial_events running).

Definition committed : Binlog :=
  get queued (do_add_event (event 5 7 0 [x7a]) queued).

(** The engine opened on the torn log, after an event that commits the
    Partial event 3. *)
Definition torn_committed : Binlog :=
  get torn_opened (do_add_event (event 4 7 0 [x64]) torn_opened).


(** The encrypted log opened with another password and the password it
    was written under as the old one: the engine after the load and
    after [init], and the key record of the new file. *)
Definition rotating : Binlog := loaded other_pw pw encrypted_start.
Definition rotated : Binlog :=
  (get (Status_OK, rotating) (init_finish rotating)).2.
Definition rotation_record : BinlogEvent :=
  event 0 ServiceTypes_AesCtrEncryption 0
    (detail.store
       (detail.mkAesCtrEncryptionEvent (take 32 (entropy encrypted_disk))
          (take 16 (drop 32 (entropy encrypted_disk)))
          (detail.generate_hash
             (detail.filled 32
                (pbkdf2_sha256 (DbKey_data other_pw)
                   (take 32 (entropy encrypted_disk)) 60002))))).

(** The same engine after the load when another process holds the lock
    of the new file, and after [init]. *)
Definition rotation_jammed : Binlog :=
  set_fs (lock_next (fs rotating)) rotating.
Definition unrotated : Binlog :=
  (get (Status_OK, rotation_jammed) (init_finish rotation_jammed)).2.

(** A log without key of two events, the last three bytes of the second
    overwritten; and the encrypted log with its last three bytes
    overwritten. *)
Definition cut_file : bytes := ev1 ++ torn_record.
Definition cut_start : Binlog := fresh (fs_with "log" cut_file []).

Definition log_inode (f : MemFS) : nat := default 0%nat (names f !! "log").

Definition cut_encrypted_disk : MemFS :=
  set_inodes
    (<[log_inode encrypted_disk :=
         take (length (content (log_inode encrypted_disk) encrypted_disk) - 3)
           (content (log_inode encrypted_disk) encrypted_disk)
         ++ [x00; x00; x00]]> (inodes encrypted_disk))
    encrypted_disk.
Definition cut_encrypted_start : Binlog := fresh cut_encrypted_disk.

End Scenario.

(** * Properties *)

(** ** Buffers and machine integers *)

Lemma size_nonneg (s : bytes) : 0 <= size s.
Proof. unfold size. lia. Qed.

Lemma size_app (s t : bytes) : size (s ++ t) = size s + size t.
Proof. unfold size. rewrite length_app. lia. Qed.

Lemma head_tail_bytes (n : Z) (s : bytes) : head_bytes n s ++ tail_bytes n s = s.
Proof. apply take_drop. Qed.

Lemma size_head_bytes (n : Z) (s : bytes) :
  0 <= n <= size s -> size (head_bytes n s) = n.
Proof. unfold size, head_bytes. intros Hn. rewrite length_take. lia. Qed.

Lemma size_tail_bytes (n : Z) (s : bytes) :
  0 <= n <= size s -> size (tail_bytes n s) = size s - n.
Proof. unfold size, tail_bytes. intros Hn. rewrite length_drop. lia. Qed.

Lemma size_bounds : MIN_EVENT_SIZE = 32 /\ MAX_EVENT_SIZE = 16777216.
Proof. split; reflexivity. Qed.

(** ** The reader *)

Section ReaderProperties.
Context `{Codec}.

Lemma read_event_short (r : detail.BinlogReader) input event :
  size input < detail.size_ r ->
  detail.read_event r input event = detail.mkReadNext (Ok (detail.size_ r)) r input event.
Proof.
  intros Hlt. unfold detail.read_event.
  destruct (Z.ltb_spec (size input) (detail.size_ r)); [reflexivity | lia].
Qed.

Lemma read_event_full (r : detail.BinlogReader) input event :
  detail.size_ r <= size input ->
  let n := detail.size_ r in
  let decoded := BinlogEvent_init (head_bytes n input) true event in
  detail.read_event r input event =
    match decoded.1 with
    | Status_OK =>
        detail.mkReadNext (Ok 0)
          (detail.set_state detail.ReadLength
             (detail.set_offset (wrap_int64 (detail.offset_ r + n)) r))
          (tail_bytes n input)
          (event_set_offset (wrap_int64 (detail.offset_ r + n)) decoded.2)
    | Status_Error _ _ _ =>
        detail.mkReadNext (Err decoded.1) r (tail_bytes n input) decoded.2
    end.
Proof.
  intros Hle. cbv zeta. unfold detail.read_event.
  destruct (Z.ltb_spec (size input) (detail.size_ r)); [lia |].
  destruct (BinlogEvent_init _ _ _) as [[] ?]; reflexivity.
Qed.

(** In state [ReadLength] with four bytes buffered and a length within the
    bounds, [read_next] goes on as [read_event] does with that length. *)
Lemma read_next_header (r : detail.BinlogReader) input event :
  detail.state_ r = detail.ReadLength ->
  4 <= size input ->
  MIN_EVENT_SIZE <= detail.peek_size input <= MAX_EVENT_SIZE ->
  detail.read_next r input event =
    detail.read_event
      (detail.set_state detail.ReadEvent
         (detail.set_size (detail.peek_size input) r)) input event.
Proof.
  intros Hst H4 [Hmin Hmax]. unfold detail.read_next. rewrite Hst.
  destruct (Z.ltb_spec (size input) 4); [lia |].
  fold (detail.peek_size input). simpl.
  destruct (Z.gtb_spec (detail.peek_size input) MAX_EVENT_SIZE); [lia |].
  destruct (Z.ltb_spec (detail.peek_size input) MIN_EVENT_SIZE); [lia |].
  reflexivity.
Qed.

(** What is left of the input is the input, or the input without one whole
    record. *)
Lemma read_event_input (r : detail.BinlogReader) input event :
  let out := detail.read_event r input event in
  detail.rn_input out = input
  \/ (detail.size_ r <= size input
      /\ detail.rn_input out = tail_bytes (detail.size_ r) input).
Proof.
  cbv zeta. unfold detail.read_event.
  destruct (Z.ltb_spec (size input) (detail.size_ r)); [by left |].
  right. split; [lia |].
  destruct (BinlogEvent_init _ _ _) as [[] ?]; reflexivity.
Qed.

Lemma read_event_produced (r : detail.BinlogReader) input event :
  detail.rn_result (detail.read_event r input event) = Ok 0 ->
  detail.size_ r <= size input.
Proof.
  unfold detail.read_event.
  destruct (Z.ltb_spec (size input) (detail.size_ r)); [| lia].
  simpl. intros [= Hz]. pose proof (size_nonneg input). lia.
Qed.

(** C4.  The reader never consumes a partial record.  With [n] the size of
    the record at the head of the input (peeked in state [ReadLength], kept
    in [size_] in state [ReadEvent]): what [read_next] leaves of the input
    is the input itself or the input without its first [n] bytes, and the
    latter only when [n] bytes were there; [read_next] returns 0 only when
    they were.  Once the length is known (state [ReadEvent], or four bytes
    buffered and a length within the bounds): with fewer than [n] bytes
    buffered [read_next] returns [n] and changes neither the input nor the
    event; with [n] bytes buffered it takes exactly these [n] bytes, hands
    them to [BinlogEvent::init], and when that succeeds returns 0 with the
    running offset advanced by [n] (as an int64), that offset stored in the
    event, and the state back at [ReadLength]; when [init] fails its error
    is returned. *)
Theorem read_next_whole_records (r : detail.BinlogReader) input event :
  let out := detail.read_next r input event in
  let n := detail.record_size r input in
  (detail.rn_input out = input
   \/ (n <= size input /\ detail.rn_input out = tail_bytes n input))
  /\ (detail.rn_result out = Ok 0 -> n <= size input)
  /\ (detail.state_ r = detail.ReadEvent
      \/ (4 <= size input /\ MIN_EVENT_SIZE <= n <= MAX_EVENT_SIZE) ->
      (size input < n ->
         detail.rn_result out = Ok n
         /\ detail.rn_input out = input
         /\ detail.rn_event out = event
         /\ detail.rn_reader out
            = detail.set_state detail.ReadEvent (detail.set_size n r))
      /\ (n <= size input ->
          let decoded := BinlogEvent_init (head_bytes n input) true event in
          let offset := wrap_int64 (detail.offset_ r + n) in
          detail.rn_input out = tail_bytes n input
          /\ match decoded.1 with
             | Status_OK =>
                 detail.rn_result out = Ok 0
                 /\ detail.rn_event out = event_set_offset offset decoded.2
                 /\ detail.offset_ (detail.rn_reader out) = offset
                 /\ detail.state_ (detail.rn_reader out) = detail.ReadLength
             | Status_Error _ _ _ => detail.rn_result out = Err decoded.1
             end)).
Proof.
  cbv zeta. split; [| split].
  - unfold detail.read_next, detail.record_size.
    destruct (detail.state_ r) eqn:Hst.
    + destruct (Z.ltb_spec (size input) 4); [by left |].
      fold (detail.peek_size input). simpl.
      destruct (Z.gtb_spec (detail.peek_size input) MAX_EVENT_SIZE); [by left |].
      destruct (Z.ltb_spec (detail.peek_size input) MIN_EVENT_SIZE); [by left |].
      apply (read_event_input
               (detail.set_state detail.ReadEvent
                  (detail.set_size (detail.peek_size input) r))).
    + apply read_event_input.
  - unfold detail.read_next, detail.record_size.
    destruct (detail.state_ r) eqn:Hst.
    + destruct (Z.ltb_spec (size input) 4); [simpl; intros [=] |].
      fold (detail.peek_size input). simpl.
      destruct (Z.gtb_spec (detail.peek_size input) MAX_EVENT_SIZE);
        [simpl; intros [=] |].
      destruct (Z.ltb_spec (detail.peek_size input) MIN_EVENT_SIZE);
        [simpl; intros [=] |].
      apply (read_event_produced
               (detail.set_state detail.ReadEvent
                  (detail.set_size (detail.peek_size input) r))).
    + apply read_event_produced.
  - intros Hknown.
    assert (detail.read_next r input event
            = detail.read_event
                (detail.set_state detail.ReadEvent
                   (detail.set_size (detail.record_size r input) r))
                input event) as ->.
    { unfold detail.record_size.
      destruct Hknown as [Hst | (H4 & Hn)].
      - unfold detail.read_next. rewrite Hst.
        destruct r; simpl in *; by subst.
      - unfold detail.record_size in Hn.
        destruct (detail.state_ r) eqn:Hst.
        + by apply read_next_header.
        + unfold detail.read_next. rewrite Hst.
        destruct r; simpl in *; by subst. }
    set (n := detail.record_size r input).
    set (r' := detail.set_state detail.ReadEvent (detail.set_size n r)).
    split.
    + intros Hlt. by rewrite (read_event_short r') by exact Hlt.
    + intros Hle. rewrite (read_event_full r') by exact Hle. simpl.
      destruct (BinlogEvent_init (head_bytes n input) true event) as [[] ?];
        simpl; auto.
Qed.

(** C5.  In state [ReadLength]: with fewer than four bytes buffered
    [read_next] returns 4; with four bytes buffered, a decoded length above
    [MAX_EVENT_SIZE] gives the error "Too big event" and one below
    [MIN_EVENT_SIZE] the error "Too small event"; in these three cases the
    input and the event are as they were and the reader stays in
    [ReadLength]. *)
Theorem read_next_length_errors (r : detail.BinlogReader) input event :
  detail.state_ r = detail.ReadLength ->
  let out := detail.read_next r input event in
  let n := detail.peek_size input in
  (size input < 4 -> detail.rn_result out = Ok 4)
  /\ (4 <= size input -> MAX_EVENT_SIZE < n ->
      detail.rn_result out = Err (detail.too_big n))
  /\ (4 <= size input -> n < MIN_EVENT_SIZE ->
      detail.rn_result out = Err (detail.too_small n))
  /\ (size input < 4 \/ MAX_EVENT_SIZE < n \/ n < MIN_EVENT_SIZE ->
      detail.rn_input out = input
      /\ detail.rn_event out = event
      /\ detail.state_ (detail.rn_reader out) = detail.ReadLength).
Proof.
  intros Hst. cbv zeta. unfold detail.read_next. rewrite Hst.
  fold (detail.peek_size input).
  pose proof size_bounds as [Hmin Hmax].
  destruct (Z.ltb_spec (size input) 4) as [H4 | H4].
  { repeat split; auto; lia. }
  simpl.
  destruct (Z.gtb_spec (detail.peek_size input) MAX_EVENT_SIZE) as [Hb | Hb].
  { repeat split; auto; lia. }
  destruct (Z.ltb_spec (detail.peek_size input) MIN_EVENT_SIZE) as [Hs | Hs].
  { repeat split; auto; lia. }
  repeat split; intros; lia.
Qed.

End ReaderProperties.

(** ** Outcomes *)

Lemma bind_Done {A B} (m : Outcome A) (f : A -> Outcome B) (y : B) :
  m ≫= f = Done y -> exists x, m = Done x /\ f x = Done y.
Proof. destruct m; simpl; intros Heq; try discriminate. eauto. Qed.

Lemma bind_assoc {A B C} (m : Outcome A) (f : A -> Outcome B)
  (g : B -> Outcome C) :
  (m ≫= f) ≫= g = m ≫= (fun x => f x ≫= g).
Proof. by destruct m. Qed.

Lemma CHECK_Done (cond : bool) (why : string) (u : unit) :
  CHECK cond why = Done u -> cond = true.
Proof. by destruct cond. Qed.

(** Reduces the projections of updated engine states. *)
Ltac binlog_simpl :=
  cbn [
    db_key_ old_db_key_ processor_ info_ fd_ fd_output_reader_ fd_size_
    fd_events_ path_ last_id_ db_key_used_ encryption_type_
    aes_ctr_key_salt_ aes_ctr_key_ aes_ctr_state_ state_ buffer_writer_
    buffer_reader_ byte_flow_flag_ aes_xcode_byte_flow_ byte_flow_sink_
    binlog_reader_ptr_ pending_events_ need_sync_ need_flush_since_
    IGNORE_ERASE_HACK fs callback_calls debug_callback_calls set_db_key_
    set_old_db_key_ set_processor_ set_info_ set_fd_ set_fd_output_reader_
    set_fd_size_ set_fd_events_ set_path_ set_last_id_ set_db_key_used_
    set_encryption_type_ set_aes_ctr_key_salt_ set_aes_ctr_key_
    set_aes_ctr_state_ set_state_ set_buffer_writer_ set_buffer_reader_
    set_byte_flow_flag_ set_aes_xcode_byte_flow_ set_byte_flow_sink_
    set_binlog_reader_ptr_ set_pending_events_ set_need_sync_
    set_need_flush_since_ set_IGNORE_ERASE_HACK set_fs set_callback_calls
    set_debug_callback_calls was_created last_id wrong_password is_opened
    set_was_created set_last_id set_wrong_password set_is_opened
    update_info mbind mret Outcome_bind Outcome_ret fst
    snd
  ] in *.

(** Takes apart the hypotheses that say that a composed operation is
    [Done]. *)
Ltac outcome_inv :=
  repeat match goal with
  | H : Done _ = Done _ |- _ => injection H as H
  | H : Fatal _ = Done _ |- _ => discriminate H
  | H : OutOfFuel = Done _ |- _ => discriminate H
  | H : mret _ = Done _ |- _ => injection H as H
  | H : (CHECK ?c _ ≫= _) = Done _ |- _ =>
      let E := fresh "Hcheck" in
      destruct c eqn:E; cbn [CHECK] in H; binlog_simpl
  | H : (?m ≫= _) = Done _ |- _ =>
      let E := fresh "Hdone" in
      let x := fresh "x" in
      destruct m as [x | |] eqn:E; binlog_simpl
  | H : (let '(_, _) := ?p in _) = Done _ |- _ =>
      let E := fresh "Hpair" in destruct p eqn:E; binlog_simpl
  | H : (match ?x with _ => _ end) = Done _ |- _ =>
      let E := fresh "Hcase" in destruct x eqn:E; binlog_simpl
  end.

(** ** What the operations of the engine leave alone *)

Section Footprints.
Context `{Codec} `{Crypto} `{Platform} `{EventsProcessor}.

(** Flushing touches the buffers, the byte flow, the file system and the
    flush and sync marks, and nothing else. *)
Definition io_only (b b' : Binlog) : Prop :=
  state_ b' = state_ b /\ processor_ b' = processor_ b /\ info_ b' = info_ b
  /\ pending_events_ b' = pending_events_ b
  /\ db_key_ b' = db_key_ b /\ old_db_key_ b' = old_db_key_ b
  /\ db_key_used_ b' = db_key_used_ b
  /\ encryption_type_ b' = encryption_type_ b
  /\ aes_ctr_key_salt_ b' = aes_ctr_key_salt_ b
  /\ aes_ctr_key_ b' = aes_ctr_key_ b
  /\ aes_ctr_state_ b' = aes_ctr_state_ b
  /\ fd_size_ b' = fd_size_ b /\ fd_events_ b' = fd_events_ b
  /\ path_ b' = path_ b /\ fd_ b' = fd_ b
  /\ fd_output_reader_ b' = fd_output_reader_ b
  /\ byte_flow_flag_ b' = byte_flow_flag_ b
  /\ last_id_ b' = last_id_ b
  /\ binlog_reader_ptr_ b' = binlog_reader_ptr_ b
  /\ IGNORE_ERASE_HACK b' = IGNORE_ERASE_HACK b
  /\ callback_calls b' = callback_calls b
  /\ debug_callback_calls b' = debug_callback_calls b.

(** [do_event] keeps these; of [info_] it changes at most
    [wrong_password], and only to set it. *)
Definition core_only (b b' : Binlog) : Prop :=
  state_ b' = state_ b
  /\ pending_events_ b' = pending_events_ b
  /\ db_key_ b' = db_key_ b /\ old_db_key_ b' = old_db_key_ b
  /\ path_ b' = path_ b /\ fd_ b' = fd_ b
  /\ last_id_ b' = last_id_ b
  /\ IGNORE_ERASE_HACK b' = IGNORE_ERASE_HACK b
  /\ callback_calls b' = callback_calls b
  /\ debug_callback_calls b' = debug_callback_calls b
  /\ (info_ b' = info_ b \/ info_ b' = set_wrong_password true (info_ b)).

Ltac footprint :=
  unfold io_only, core_only in *; binlog_simpl; destruct_and?; simplify_eq;
  binlog_simpl; repeat case_match; binlog_simpl;
  repeat split; try congruence; auto.

Lemma io_only_refl b : io_only b b.
Proof. by repeat split. Qed.

Lemma io_only_core b b' : io_only b b' -> core_only b b'.
Proof. intros Hio. footprint. Qed.

Lemma core_only_refl b : core_only b b.
Proof. repeat split; auto. Qed.

Lemma core_only_trans b1 b2 b3 :
  core_only b1 b2 -> core_only b2 b3 -> core_only b1 b3.
Proof.
  unfold core_only.
  intros (? & ? & ? & ? & ? & ? & ? & ? & ? & ? & Hi12)
         (? & ? & ? & ? & ? & ? & ? & ? & ? & ? & Hi23).
  repeat split; try congruence.
  destruct Hi12 as [Hi12 | Hi12], Hi23 as [Hi23 | Hi23];
    rewrite Hi23, Hi12; auto.
Qed.

Lemma wakeup_io b b' : byte_flow_source_wakeup b = Done b' -> io_only b b'.
Proof.
  unfold byte_flow_source_wakeup, sync_with_writer. intros Hd.
  binlog_simpl. outcome_inv; footprint.
Qed.

Lemma fd_flush_write_io b r b' :
  fd_flush_write b = Done (r, b') -> io_only b b'.
Proof.
  unfold fd_flush_write, the_fd, sync_with_writer. intros Hd.
  binlog_simpl. outcome_inv; footprint.
Qed.

Lemma fd_flush_read_io n b st b' :
  fd_flush_read n b = Done (st, b') -> io_only b b'.
Proof.
  unfold fd_flush_read, the_fd, buffer_writer_append. intros Hd.
  binlog_simpl. outcome_inv; footprint.
Qed.

Ltac use_io :=
  repeat match goal with
  | H : byte_flow_source_wakeup _ = Done _ |- _ => apply wakeup_io in H
  | H : fd_flush_write _ = Done _ |- _ => apply fd_flush_write_io in H
  | H : fd_flush_read _ _ = Done _ |- _ => apply fd_flush_read_io in H
  end.

Lemma flush_io b b' : flush b = Done b' -> io_only b b'.
Proof.
  unfold flush, flush_events_buffer, ensure. intros Hd.
  binlog_simpl. outcome_inv; use_io; footprint.
Qed.

Lemma sync_io b b' : sync b = Done b' -> io_only b b'.
Proof.
  unfold sync, the_fd, ensure_ok. intros Hd.
  binlog_simpl. outcome_inv.
  all: match goal with H : flush _ = Done _ |- _ => apply flush_io in H end.
  all: footprint.
Qed.

Lemma lazy_flush_io b b' : lazy_flush b = Done b' -> io_only b b'.
Proof.
  unfold lazy_flush, flush_events_buffer, sync_with_writer. intros Hd.
  binlog_simpl. outcome_inv.
  all: try match goal with H : flush _ = Done _ |- _ => apply flush_io in H end.
  all: footprint.
Qed.

Lemma do_event_encryption_core event b b' :
  do_event_encryption event b = Done b' ->
  core_only b b' /\ processor_ b' = processor_ b
  /\ fd_size_ b' = fd_size_ b /\ fd_events_ b' = fd_events_ b.
Proof.
  unfold do_event_encryption, update_encryption, update_read_encryption,
    update_write_encryption, copy_from.
  intros Hd. binlog_simpl. outcome_inv.
  all: try match goal with H : flush _ = Done _ |- _ => apply flush_io in H end.
  all: footprint.
Qed.

Lemma do_event_core event b event' b' :
  do_event event b = Done (event', b') ->
  core_only b b'
  /\ fd_size_ b' = wrap_int64 (fd_size_ b + size (raw_event_ event))
  /\ fd_events_ b' = wrap_uint64 (fd_events_ b + 1)
  /\ (state_ b = Reindex -> event' = event /\ processor_ b' = processor_ b).
Proof.
  unfold do_event, the_processor, buffer_writer_append.
  intros Hd. binlog_simpl. outcome_inv.
  all: try match goal with
           | H : do_event_encryption _ _ = Done _ |- _ =>
               apply do_event_encryption_core in H
           end.
  all: footprint.
Qed.

Lemma do_events_core events b b' :
  do_events events b = Done b' -> core_only b b'.
Proof.
  revert b. induction events as [| event events IH]; intros b Hd.
  - injection Hd as <-. apply core_only_refl.
  - simpl in Hd. destruct (do_event event b) as [[event' b1] | |] eqn:He;
      try discriminate.
    simpl in Hd. apply do_event_core in He as (Hcore & _).
    eapply core_only_trans; [exact Hcore | by apply IH].
Qed.

End Footprints.

(** ** Partial events: [do_add_event] *)

Section DoAddEvent.
Context `{Codec} `{Crypto} `{Platform} `{EventsProcessor}.

Lemma has_flag_clear (flags flag : Z) :
  has_flag (Z.land flags (Z.lnot flag)) flag = false.
Proof.
  unfold has_flag.
  rewrite <- Z.land_assoc, (Z.land_comm (Z.lnot flag)), Z.land_lnot_diag.
  rewrite Z.land_0_r. reflexivity.
Qed.

Lemma do_add_event_partial event b :
  has_flag (flags_ event) Flags_Partial = true ->
  do_add_event event b
  = Done (set_pending_events_ (pending_events_ b ++ [clear_partial event]) b).
Proof. intros Hp. unfold do_add_event. rewrite Hp. reflexivity. Qed.

Lemma set_pending_events_same b :
  set_pending_events_ (pending_events_ b) b = b.
Proof. by destruct b. Qed.

Lemma set_pending_events_twice l l' b :
  set_pending_events_ l (set_pending_events_ l' b) = set_pending_events_ l b.
Proof. reflexivity. Qed.

End DoAddEvent.

(** ** The reindex heuristic: [add_event] *)

Section AddEvent.
Context `{Codec} `{Crypto} `{Platform} `{EventsProcessor}.

Lemma need_reindex_spec fd_size total min_size rate :
  0 <= min_size -> 0 < rate ->
  need_reindex fd_size total min_size rate = true
  <-> fd_size > min_size /\ fd_size / rate > total.
Proof.
  intros Hmin Hrate. unfold need_reindex.
  rewrite andb_true_iff, !Z.gtb_gt. split.
  - intros [Hgt Hq]. rewrite Z.quot_div_nonneg in Hq by lia. lia.
  - intros [Hgt Hq]. rewrite Z.quot_div_nonneg by lia. lia.
Qed.

Lemma reindex_condition_spec fd_size total :
  reindex_condition fd_size total = true
  <-> (fd_size > 100000 /\ fd_size / 5 > total)
      \/ (fd_size > 500000 /\ fd_size / 2 > total).
Proof.
  unfold reindex_condition.
  rewrite orb_true_iff, !need_reindex_spec by lia. reflexivity.
Qed.

(** C7.  Let [b1] be the engine after [do_add_event] and [lazy_flush],
    [fd_size] its [fd_size_] (nothing is buffered in front of it:
    [events_buffer_] is null) and [total] the processor's
    [total_raw_events_size].  Then [add_event] goes on with [do_reindex]
    when the state is [Run] and [fd_size > 100000] with
    [fd_size / 5 > total], or [fd_size > 500000] with [fd_size / 2 > total]
    (the division rounds down); in every other case, the states other than
    [Run] and every [fd_size <= 100000] among them, it ends there with
    [b1]. *)
Theorem add_event_reindex_heuristic (event : BinlogEvent) (b b1 : Binlog)
  (p : BinlogEventsProcessor) :
  do_add_event event b ≫= lazy_flush = Done b1 ->
  processor_ b1 = Some p ->
  let fd_size := fd_size_ b1 in
  let total := processor_total_raw_events_size p in
  let heuristic :=
    (fd_size > 100000 /\ fd_size / 5 > total)
    \/ (fd_size > 500000 /\ fd_size / 2 > total) in
  (state_ b1 = Run /\ heuristic -> add_event event b = do_reindex b1)
  /\ (~ (state_ b1 = Run /\ heuristic) -> add_event event b = Done b1)
  /\ (fd_size <= 100000 -> add_event event b = Done b1).
Proof.
  intros Hd Hp. cbv zeta.
  assert (add_event event b
          = if decide (state_ b1 = Run) then
              if reindex_condition (fd_size_ b1)
                   (processor_total_raw_events_size p)
              then do_reindex b1 else Done b1
            else Done b1) as ->.
  { unfold add_event.
    destruct (do_add_event event b) as [b0 | |]; try discriminate.
    simpl in Hd |- *. rewrite Hd. simpl.
    destruct (decide (state_ b1 = Run)); [| reflexivity].
    unfold the_processor. rewrite Hp. reflexivity. }
  pose proof (reindex_condition_spec (fd_size_ b1)
                (processor_total_raw_events_size p)) as Hspec.
  destruct (decide (state_ b1 = Run)) as [Hrun | Hrun];
    destruct (reindex_condition _ _) eqn:Hc.
  - repeat split; auto.
    + intros Hn. exfalso. apply Hn. split; [done |]. by apply Hspec.
    + intros Hle. assert (Ht : true = true) by done.
      apply Hspec in Ht. lia.
  - repeat split; auto.
    intros [_ Hh]. apply Hspec in Hh. discriminate.
  - repeat split; auto. by intros [? _].
  - repeat split; auto. by intros [? _].
Qed.

End AddEvent.

(** ** Reindex: [do_event] keeps the processor *)

Section ReindexProperties.
Context `{Codec} `{Crypto} `{Platform} `{EventsProcessor}.

Lemma do_event_reindex_plain event b :
  state_ b = Reindex ->
  is_key_record event = false ->
  do_event event b = Done (event, write_event b event).
Proof.
  intros Hst Hkey. unfold do_event, write_event. binlog_simpl.
  rewrite Hst. fold (is_key_record event). rewrite Hkey.
  destruct (encryption_type_ b); binlog_simpl;
    unfold buffer_writer_append; binlog_simpl; rewrite Hst;
    by destruct (decide (Reindex = Reindex)).
Qed.

Lemma write_event_state b event : state_ (write_event b event) = state_ b.
Proof. reflexivity. Qed.

Lemma for_each_do_event_plain events b :
  state_ b = Reindex ->
  Forall (fun e => is_key_record e = false) events ->
  for_each_do_event events b = Done (events, foldl write_event b events).
Proof.
  revert b. induction events as [| e events IH]; intros b Hst Hall.
  - reflexivity.
  - apply Forall_cons in Hall as [Hkey Hall]. simpl.
    rewrite (do_event_reindex_plain _ _ Hst Hkey). simpl.
    rewrite (IH (write_event b e)) by done. reflexivity.
Qed.

Lemma foldl_write_event_buffer events b :
  buffer_writer_ (foldl write_event b events)
  = buffer_writer_ b ++ concat (map raw_event_ events).
Proof.
  revert b. induction events as [| e events IH]; intros b; simpl.
  - by rewrite app_nil_r.
  - rewrite IH. unfold write_event, buffer_writer_append. binlog_simpl.
    by rewrite <- app_assoc.
Qed.

Lemma for_each_do_event_reindex events b visited b' :
  state_ b = Reindex ->
  for_each_do_event events b = Done (visited, b') ->
  visited = events /\ processor_ b' = processor_ b /\ state_ b' = Reindex.
Proof.
  revert b visited b'.
  induction events as [| e events IH]; intros b visited b' Hst Hd.
  - by injection Hd as <- <-.
  - simpl in Hd.
    destruct (do_event e b) as [[e' b1] | |] eqn:He; try discriminate.
    simpl in Hd.
    destruct (for_each_do_event events b1) as [[rest b2] | |] eqn:Hr;
      try discriminate.
    simpl in Hd. injection Hd as <- <-.
    apply do_event_core in He as ((Hst1 & _) & _ & _ & Hre).
    destruct (Hre Hst) as [-> Hp1].
    apply IH in Hr as (-> & Hp2 & Hst2); [| congruence].
    repeat split; congruence.
Qed.

Lemma reset_encryption_reindex b b' :
  state_ b = Reindex ->
  reset_encryption b = Done b' ->
  processor_ b' = processor_ b /\ state_ b' = Reindex.
Proof.
  intros Hst. unfold reset_encryption. intros Hd.
  destruct (DbKey_is_empty (db_key_ b)).
  { injection Hd as <-. by split. }
  destruct (size (aes_ctr_key_salt_ b) =? 0).
  - destruct (secure_bytes _ (fs b)) as [salt fs1]. binlog_simpl.
    destruct (secure_bytes _ fs1) as [iv fs2]. binlog_simpl.
    outcome_inv; subst.
    all: match goal with
         | He : do_event _ _ = Done _ |- _ =>
             apply do_event_core in He as ((Hst1 & _) & _ & _ & Hre)
         end.
    all: binlog_simpl; destruct (Hre Hst) as [_ Hp]; split; congruence.
  - binlog_simpl. destruct (secure_bytes _ (fs b)) as [iv fs2]. binlog_simpl.
    outcome_inv; subst.
    all: match goal with
         | He : do_event _ _ = Done _ |- _ =>
             apply do_event_core in He as ((Hst1 & _) & _ & _ & Hre)
         end.
    all: binlog_simpl; destruct (Hre Hst) as [_ Hp]; split; congruence.
Qed.

Lemma reindex_start_keeps opened_file b :
  state_ (reindex_start opened_file b) = state_ b
  /\ processor_ (reindex_start opened_file b) = processor_ b.
Proof.
  unfold reindex_start, update_write_encryption, reset_buffers, fd_close.
  binlog_simpl. by destruct (fd_ b).
Qed.

Lemma reindex_replay_processor b b' :
  state_ b = Reindex ->
  reindex_replay b = Done b' ->
  processor_ b' = processor_ b /\ state_ b' = Reindex.
Proof.
  intros Hst. unfold reindex_replay, the_processor. intros Hd.
  destruct (processor_ b) as [p |] eqn:Hp; binlog_simpl; [| discriminate Hd].
  destruct (for_each_do_event _ b) as [[visited b1] | |] eqn:Hfor;
    binlog_simpl; [| discriminate Hd ..].
  apply for_each_do_event_reindex in Hfor as (-> & Hp1 & Hst1); [| done].
  rewrite Hp1, Hp in Hd. binlog_simpl. injection Hd as <-. binlog_simpl.
  by rewrite processor_set_events_same.
Qed.

Lemma reindex_finish_processor b b' :
  reindex_finish b = Done b' -> processor_ b' = processor_ b.
Proof.
  unfold reindex_finish, ensure_ok, update_write_encryption, reset_buffers.
  intros Hd.
  destruct (unlink _ _) as [st1 fs1]. outcome_inv.
  destruct (rename _ _ _) as [st2 fs2]. outcome_inv. subst.
  binlog_simpl. by repeat case_match.
Qed.

Lemma do_reindex_processor b b' :
  do_reindex b = Done b' -> processor_ b' = processor_ b.
Proof.
  unfold do_reindex, flush_events_buffer. intros Hd. binlog_simpl.
  destruct (bool_decide (state_ b = Run)); cbn [CHECK] in Hd; binlog_simpl;
    [| discriminate Hd].
  destruct (open_binlog _ _ _) as [[opened | st] fs1]; binlog_simpl.
  2: { by injection Hd as <-. }
  destruct (reindex_start_keeps opened (set_fs fs1 (set_state_ Reindex b)))
    as [Hst0 Hp0].
  destruct (reset_encryption _) as [b1 | |] eqn:Hreset; binlog_simpl;
    [| discriminate Hd ..].
  apply reset_encryption_reindex in Hreset as [Hp1 Hst1]; [| exact Hst0].
  destruct (reindex_replay b1) as [b2 | |] eqn:Hreplay; binlog_simpl;
    [| discriminate Hd ..].
  apply reindex_replay_processor in Hreplay as [Hp2 Hst2]; [| exact Hst1].
  destruct (sync _) as [b3 | |] eqn:Hsync; binlog_simpl;
    [| discriminate Hd ..].
  apply sync_io in Hsync as (_ & Hp3 & _). binlog_simpl.
  apply reindex_finish_processor in Hd. congruence.
Qed.

(** C8.  While the state is [Reindex], [do_event] does not feed the
    processor: it leaves [processor_] and the event it was given by
    reference as they were, and it stays in [Reindex]; for an event that
    is no key record it does nothing but move the counters and append the
    raw bytes of the event to [buffer_writer_], the buffer of the new
    file.  So the replay of [for_each] through [do_event] visits every
    live event without changing it, appends their raw bytes in order, and
    [processor_] is the same before and after the replay, and before and
    after a [do_reindex] that returns. *)
Theorem reindex_keeps_processor :
  (forall event b event' b',
     state_ b = Reindex -> do_event event b = Done (event', b') ->
     event' = event /\ processor_ b' = processor_ b /\ state_ b' = Reindex)
  /\ (forall event b,
        state_ b = Reindex -> is_key_record event = false ->
        do_event event b = Done (event, write_event b event)
        /\ buffer_writer_ (write_event b event)
           = buffer_writer_ b ++ raw_event_ event)
  /\ (forall events b visited b',
        state_ b = Reindex ->
        for_each_do_event events b = Done (visited, b') ->
        visited = events /\ processor_ b' = processor_ b)
  /\ (forall events b,
        state_ b = Reindex ->
        Forall (fun e => is_key_record e = false) events ->
        exists b',
          for_each_do_event events b = Done (events, b')
          /\ processor_ b' = processor_ b
          /\ buffer_writer_ b'
             = buffer_writer_ b ++ concat (map raw_event_ events))
  /\ (forall b b', do_reindex b = Done b' -> processor_ b' = processor_ b).
Proof.
  repeat split.
  - apply do_event_core in H4 as (_ & _ & _ & Hre). by apply Hre.
  - apply do_event_core in H4 as (_ & _ & _ & Hre). by apply Hre.
  - apply do_event_core in H4 as ((Hst & _) & _). congruence.
  - by apply do_event_reindex_plain.
  - by eapply for_each_do_event_reindex.
  - by eapply for_each_do_event_reindex.
  - intros events b Hst Hall. exists (foldl write_event b events).
    split; [by apply for_each_do_event_plain |].
    split; [| apply foldl_write_event_buffer].
    clear Hst Hall. revert b. induction events as [| e events IH]; intros b.
    + reflexivity.
    + simpl. by rewrite IH.
  - apply do_reindex_processor.
Qed.

End ReindexProperties.

(** ** The load loop *)

Section LoadLoop.
Context `{Codec} `{Crypto} `{Platform} `{EventsProcessor}.

(** One turn of the loop, by what [read_next] returned. *)
Lemma load_iteration_turn debug_callback ready_flag b r event b1 :
  reader_read_next BinlogEvent_default b = Done (r, event, b1) ->
  load_iteration debug_callback ready_flag b =
    match turn_of r event with
    | Failed => Done (Break b1)
    | Produced event =>
        if IGNORE_ERASE_HACK b1 && (type_ event =? ServiceTypes_Empty)
           && has_flag (flags_ event) Flags_Rewrite
        then Done (Continue false b1)
        else
          b2 ← do_add_event event
                 (set_debug_callback_calls
                    (call debug_callback event (debug_callback_calls b1)) b1);
          if wrong_password (info_ b2) then Done (Return Status_OK b2)
          else Done (Continue false b2)
    | Need need_size =>
        if ready_flag then Done (Break b1)
        else
          r ← fd_flush_read (Z.max need_size 4096) b1;
          if is_error r.1 then Done (Return r.1 r.2)
          else b3 ← propagate r.2; Done (Continue true b3)
    end.
Proof.
  intros Hread. unfold load_iteration. rewrite Hread. binlog_simpl.
  unfold turn_of. destruct r as [need_size | st]; [| reflexivity].
  destruct (need_size =? 0); [reflexivity |].
  destruct ready_flag; [reflexivity |].
  destruct (fd_flush_read _ b1) as [[status b2] | |]; reflexivity.
Qed.

(** How a turn can end, by what [read_next] returned. *)
Lemma load_iteration_cases debug_callback ready_flag b r event b1 step :
  reader_read_next BinlogEvent_default b = Done (r, event, b1) ->
  load_iteration debug_callback ready_flag b = Done step ->
  match turn_of r event with
  | Failed => step = Break b1
  | Produced _ =>
      (exists b2, step = Continue false b2)
      \/ (exists b2, step = Return Status_OK b2)
  | Need _ =>
      if ready_flag then step = Break b1
      else (exists b2, step = Continue true b2)
           \/ (exists status b2, step = Return status b2)
  end.
Proof.
  intros Hread Hit. rewrite (load_iteration_turn _ _ _ _ _ _ Hread) in Hit.
  destruct (turn_of r event) as [need_size | e |].
  - destruct ready_flag; [by injection Hit |].
    destruct (fd_flush_read _ b1) as [[status b2] | |];
      binlog_simpl; [| discriminate Hit ..].
    destruct (is_error status).
    + injection Hit as <-. right. eauto.
    + destruct (propagate b2) as [b3 | |]; binlog_simpl;
        [| discriminate Hit ..].
      injection Hit as <-. left. eauto.
  - destruct (_ && _).
    + injection Hit as <-. left. eauto.
    + destruct (do_add_event _ _) as [b2 | |]; binlog_simpl;
        [| discriminate Hit ..].
      destruct (wrong_password (info_ b2)); injection Hit as <-; eauto.
  - by injection Hit.
Qed.

Lemma load_iteration_reads debug_callback ready_flag b step :
  load_iteration debug_callback ready_flag b = Done step ->
  exists r event b1,
    reader_read_next BinlogEvent_default b = Done (r, event, b1).
Proof.
  unfold load_iteration. intros Hit.
  destruct (reader_read_next _ b) as [[[r event] b1] | |];
    [| discriminate Hit ..].
  eauto.
Qed.

Lemma runs_nonempty debug_callback ready_flag b turns exit :
  runs debug_callback ready_flag b turns exit -> turns <> [].
Proof. by destruct 1. Qed.

(** A run of the loop that ends is a sequence of turns, and the other way
    round. *)
Lemma load_loop_runs debug_callback fuel ready_flag b exit :
  load_loop fuel debug_callback ready_flag b = Done exit ->
  exists turns, runs debug_callback ready_flag b turns exit.
Proof.
  revert ready_flag b.
  induction fuel as [| fuel IH]; intros ready_flag b Hloop;
    [discriminate Hloop |].
  simpl in Hloop.
  destruct (load_iteration debug_callback ready_flag b) as [step | |] eqn:Hit;
    [| discriminate Hloop ..].
  simpl in Hloop.
  destruct (load_iteration_reads _ _ _ _ Hit) as (r & event & b1 & Hread).
  destruct step as [ready_flag' b' | b' | status b'].
  - destruct (IH _ _ Hloop) as [turns Hruns].
    exists (turn_of r event :: turns). by eapply runs_continue.
  - injection Hloop as <-. exists [turn_of r event]. by eapply runs_break.
  - injection Hloop as <-. exists [turn_of r event]. by eapply runs_return.
Qed.

Lemma runs_load_loop debug_callback ready_flag b turns exit fuel :
  runs debug_callback ready_flag b turns exit ->
  (length turns <= fuel)%nat ->
  load_loop fuel debug_callback ready_flag b = Done exit.
Proof.
  intros Hruns. revert fuel.
  induction Hruns as [? ? ? ? ? ? _ Hit | ? ? ? ? ? ? ? _ Hit
                     | ? ? ? ? ? ? ? ? ? _ Hit _ IH];
    intros [| fuel] Hfuel; simpl in Hfuel; try lia; simpl; rewrite Hit; simpl.
  - reflexivity.
  - reflexivity.
  - apply IH. lia.
Qed.

(** The two strikes.  [ready_flag] is set exactly when the turn before
    got [need_size > 0]; a second such turn in a row ends the run by
    [break]. *)
Lemma runs_two_strikes debug_callback ready_flag b turns exit :
  runs debug_callback ready_flag b turns exit ->
  (ready_flag = true -> forall n rest,
     turns = Need n :: rest -> rest = [] /\ exists b', exit = Broken b')
  /\ (forall pre n1 n2 post,
        turns = pre ++ Need n1 :: Need n2 :: post ->
        post = [] /\ exists b', exit = Broken b')
  /\ (forall n b',
        last turns = Some (Need n) -> exit = Broken b' ->
        (ready_flag = true /\ turns = [Need n])
        \/ exists pre n1, turns = pre ++ [Need n1; Need n]).
Proof.
  induction 1 as [ready_flag b r event b1 b' Hread Hit
                 | ready_flag b r event b1 status b' Hread Hit
                 | ready_flag b r event b1 ready_flag' b' turns exit
                     Hread Hit Hruns IH].
  - pose proof (load_iteration_cases _ _ _ _ _ _ _ Hread Hit) as Hc.
    split; [| split].
    + intros _ n rest [= _ <-]. eauto.
    + intros [| ? [| ? ?]] ? ? ? Heq; discriminate Heq.
    + intros n b'' [= Hlast] _. rewrite Hlast in Hc |- *.
      destruct ready_flag; [by left |].
      destruct Hc as [(? & Hc) | (? & ? & Hc)]; discriminate Hc.
  - pose proof (load_iteration_cases _ _ _ _ _ _ _ Hread Hit) as Hc.
    split; [| split].
    + intros -> n rest [= Ht <-]. rewrite Ht in Hc. discriminate Hc.
    + intros [| ? [| ? ?]] ? ? ? Heq; discriminate Heq.
    + intros n b'' _ Hexit. discriminate Hexit.
  - pose proof (load_iteration_cases _ _ _ _ _ _ _ Hread Hit) as Hc.
    destruct IH as (IH1 & IH2 & IH3).
    split; [| split].
    + intros -> n rest [= Ht <-]. rewrite Ht in Hc. discriminate Hc.
    + intros [| t pre] n1 n2 post Heq; simpl in Heq.
      * injection Heq as Ht ->. rewrite Ht in Hc.
        destruct ready_flag; [discriminate Hc |].
        destruct Hc as [(? & [= -> _]) | (? & ? & Hc)]; [| discriminate Hc].
        by eapply IH1.
      * injection Heq as _ ->. by eapply IH2.
    + intros n b'' Hlast Hexit.
      pose proof (runs_nonempty _ _ _ _ _ Hruns) as Hne.
      assert (last turns = Some (Need n)) as Hlast'.
      { destruct turns; [done | exact Hlast]. }
      destruct (IH3 _ _ Hlast' Hexit) as [[-> ->] | (pre & n1 & ->)].
      * right. exists []. simpl.
        destruct (turn_of r event) as [n1 | e |].
        -- eauto.
        -- destruct Hc as [(? & Hc) | (? & Hc)]; discriminate Hc.
        -- discriminate Hc.
      * right. exists (turn_of r event :: pre), n1. reflexivity.
Qed.

(** C6.  A run of the load loop that ends is a sequence of turns, each
    with what [read_next] returned ([runs], from [load_loop] and back
    with enough fuel).  In a run that starts with [ready_flag] unset: two
    turns in a row with [need_size > 0] (nothing produced between them)
    are the last two turns and the run ends by [break]; and a run that
    ends by [break] on a turn with [need_size > 0] ends with two such
    turns in a row.  On a turn with [need_size > 0] while [ready_flag] is
    unset, the loop calls [fd_.flush_read] with [max(need_size, 4096)],
    and if that is no error sends the bytes through the pipeline and goes
    on with [ready_flag] set.  A turn that produces an event goes on
    with [ready_flag] unset, or returns OK on a wrong password. *)
Theorem load_loop_two_strikes (debug_callback : Callback) :
  (forall fuel b exit,
     load_loop fuel debug_callback false b = Done exit ->
     exists turns,
       runs debug_callback false b turns exit
       /\ (length turns <= fuel)%nat
       /\ (forall pre n1 n2 post,
             turns = pre ++ Need n1 :: Need n2 :: post ->
             post = [] /\ exists b', exit = Broken b')
       /\ (forall n b',
             last turns = Some (Need n) -> exit = Broken b' ->
             exists pre n1, turns = pre ++ [Need n1; Need n]))
  /\ (forall b turns exit fuel,
        runs debug_callback false b turns exit ->
        (length turns <= fuel)%nat ->
        load_loop fuel debug_callback false b = Done exit)
  /\ (forall b need_size event b1,
        reader_read_next BinlogEvent_default b
        = Done (Ok need_size, event, b1) ->
        need_size <> 0 ->
        load_iteration debug_callback true b = Done (Break b1)
        /\ load_iteration debug_callback false b
           = (r ← fd_flush_read (Z.max need_size 4096) b1;
              if is_error r.1 then Done (Return r.1 r.2)
              else b3 ← propagate r.2; Done (Continue true b3))
        /\ need_size <= Z.max need_size 4096
        /\ 4096 <= Z.max need_size 4096)
  /\ (forall ready_flag b event b1 step,
        reader_read_next BinlogEvent_default b = Done (Ok 0, event, b1) ->
        load_iteration debug_callback ready_flag b = Done step ->
        (exists b2, step = Continue false b2)
        \/ (exists b2, step = Return Status_OK b2)).
Proof.
  split; [| split; [| split]].
  - intros fuel b exit Hloop.
    assert (exists turns, runs debug_callback false b turns exit
                          /\ (length turns <= fuel)%nat)
      as (turns & Hruns & Hlen).
    { clear -Hloop. revert Hloop. generalize false as ready_flag. revert b.
      induction fuel as [| fuel IH]; intros b ready_flag Hloop;
        [discriminate Hloop |].
      simpl in Hloop.
      destruct (load_iteration debug_callback ready_flag b)
        as [step | |] eqn:Hit; [| discriminate Hloop ..].
      simpl in Hloop.
      destruct (load_iteration_reads _ _ _ _ Hit) as (r & event & b1 & Hread).
      destruct step as [ready_flag' b' | b' | status b'].
      - destruct (IH _ _ Hloop) as (turns & Hruns & Hlen).
        exists (turn_of r event :: turns).
        split; [by eapply runs_continue | simpl; lia].
      - injection Hloop as <-. exists [turn_of r event].
        split; [by eapply runs_break | simpl; lia].
      - injection Hloop as <-. exists [turn_of r event].
        split; [by eapply runs_return | simpl; lia]. }
    exists turns. split; [exact Hruns |]. split; [exact Hlen |].
    destruct (runs_two_strikes _ _ _ _ _ Hruns) as (_ & Hpair & Hlast3).
    split; [exact Hpair |].
    intros n b' Hlast Hexit.
    destruct (Hlast3 _ _ Hlast Hexit) as [[Hf _] | Hr];
      [discriminate Hf | exact Hr].
  - intros b turns exit fuel. apply runs_load_loop.
  - intros b need_size event b1 Hread Hne.
    rewrite !(load_iteration_turn _ _ _ _ _ _ Hread).
    unfold turn_of. destruct (Z.eqb_spec need_size 0); [done |].
    repeat split; lia.
  - intros ready_flag b event b1 step Hread Hit.
    exact (load_iteration_cases _ _ _ _ _ _ _ Hread Hit).
Qed.

End LoadLoop.

(** ** Load: truncation of a torn tail *)

Section LoadFinish.
Context `{Codec} `{Crypto} `{Platform} `{EventsProcessor}.

Lemma foldl_call callback calls events :
  foldl (fun calls event => call callback event calls) calls events
  = calls ++ match callback with
             | Callback_set => events
             | Callback_empty => []
             end.
Proof.
  revert calls. induction events as [| e events IH]; intros calls; simpl.
  - destruct callback; by rewrite app_nil_r.
  - rewrite IH. destruct callback; simpl; [done |].
    by rewrite <- app_assoc.
Qed.

Lemma switch_to_run_keeps b :
  state_ (switch_to_run b) = Run
  /\ processor_ (switch_to_run b) = processor_ b
  /\ fs (switch_to_run b) = fs b
  /\ db_key_ (switch_to_run b) = db_key_ b
  /\ db_key_used_ (switch_to_run b) = db_key_used_ b
  /\ encryption_type_ (switch_to_run b) = encryption_type_ b
  /\ callback_calls (switch_to_run b) = callback_calls b
  /\ info_ (switch_to_run b) = info_ b
  /\ pending_events_ (switch_to_run b) = pending_events_ b.
Proof.
  unfold switch_to_run, update_write_encryption, reset_buffers.
  binlog_simpl.
  destruct (encryption_type_ b) eqn:He; binlog_simpl; rewrite ?He;
    binlog_simpl; by repeat split.
Qed.

(** The state [load_finish] hands over when it truncates. *)
Lemma load_finish_truncates callback b p fd :
  processor_ b = Some p ->
  fd_ b = Some fd ->
  let offset := processor_offset p in
  let sought := FileFd_seek fd offset (fs b) in
  let truncated := FileFd_truncate_to_current_position fd offset sought.2 in
  offset <> FileFd_get_size fd (fs b) ->
  is_error sought.1 = false ->
  is_error truncated.1 = false ->
  IGNORE_ERASE_HACK b || (fd_size_ b =? offset) = true ->
  load_finish callback b
  = Done (Status_OK,
          switch_to_run
            (b |> set_callback_calls
                    (callback_calls b
                     ++ match callback with
                        | Callback_set => processor_events p
                        | Callback_empty => []
                        end)
               |> set_fs truncated.2
               |> set_db_key_used_ false)).
Proof.
  intros Hp Hfd. cbv zeta. intros Hne Hseek Htrunc Hcheck.
  unfold load_finish, the_processor, the_fd, ensure_ok.
  rewrite Hp. binlog_simpl. rewrite Hfd. binlog_simpl.
  destruct (Z.eqb_spec (processor_offset p) (FileFd_get_size fd (fs b)));
    [done |].
  cbn [negb].
  destruct (FileFd_seek fd (processor_offset p) (fs b)) as [st1 fs1].
  simpl in Hseek, Htrunc. rewrite Hseek. cbn [negb CHECK]. binlog_simpl.
  destruct (FileFd_truncate_to_current_position fd (processor_offset p) fs1)
    as [st2 fs2].
  simpl in Htrunc. rewrite Htrunc. cbn [negb CHECK]. binlog_simpl.
  rewrite Hcheck. cbn [CHECK]. binlog_simpl.
  rewrite foldl_call. reflexivity.
Qed.

Lemma load_binlog_broken fuel callback debug_callback b0 b1 b :
  load_start b0 = Done b1 ->
  load_loop fuel debug_callback false b1 = Done (Broken b) ->
  load_binlog fuel callback debug_callback b0 = load_finish callback b.
Proof.
  intros Hstart Hloop. unfold load_binlog. rewrite Hstart. binlog_simpl.
  rewrite Hloop. reflexivity.
Qed.

Lemma load_binlog_returned fuel callback debug_callback b0 b1 status b :
  load_start b0 = Done b1 ->
  load_loop fuel debug_callback false b1 = Done (Returned status b) ->
  load_binlog fuel callback debug_callback b0 = Done (status, b).
Proof.
  intros Hstart Hloop. unfold load_binlog. rewrite Hstart. binlog_simpl.
  rewrite Hloop. reflexivity.
Qed.

Lemma reader_read_next_keeps event b r event' b' :
  reader_read_next event b = Done (r, event', b') ->
  processor_ b' = processor_ b
  /\ pending_events_ b' = pending_events_ b
  /\ fs b' = fs b /\ info_ b' = info_ b /\ state_ b' = state_ b
  /\ callback_calls b' = callback_calls b
  /\ fd_size_ b' = fd_size_ b.
Proof.
  unfold reader_read_next, reader_input, set_reader_input. intros Hd.
  destruct (binlog_reader_ptr_ b) as [reader |]; [| discriminate Hd].
  destruct (detail.input_ reader); binlog_simpl;
    try discriminate Hd; by injection Hd as <- <- <-.
Qed.

(** X26.  A torn tail is cut off.  When the read loop has ended by
    [break] and the processor's offset is below the size of the file,
    [load_binlog] seeks to that offset, truncates the file there and
    clears [db_key_used_]; it calls the callback on the live events of
    the processor as the loop left it, in order, and returns OK in state
    [Run].  A framing or CRC error of [read_next] ends the loop by
    [break] and leaves the processor and the queue of Partial events as
    they were.  After this, [init] reindexes exactly when [db_key] is
    not empty or the stream is encrypted. *)
Theorem load_truncates_torn_tail (fuel : nat) (callback debug_callback : Callback)
  (b0 b1 b : Binlog) (p : BinlogEventsProcessor) (fd : FileFd) :
  load_start b0 = Done b1 ->
  load_loop fuel debug_callback false b1 = Done (Broken b) ->
  processor_ b = Some p ->
  fd_ b = Some fd ->
  let offset := processor_offset p in
  let sought := FileFd_seek fd offset (fs b) in
  let truncated := FileFd_truncate_to_current_position fd offset sought.2 in
  offset < FileFd_get_size fd (fs b) ->
  is_error sought.1 = false ->
  is_error truncated.1 = false ->
  IGNORE_ERASE_HACK b || (fd_size_ b =? offset) = true ->
  (exists b',
     load_binlog fuel callback debug_callback b0 = Done (Status_OK, b')
     /\ fs b' = truncated.2
     /\ db_key_used_ b' = false
     /\ callback_calls b'
        = callback_calls b
          ++ match callback with
             | Callback_set => processor_events p
             | Callback_empty => []
             end
     /\ state_ b' = Run
     /\ processor_ b' = Some p
     /\ init_needs_reindex b'
        = negb (DbKey_is_empty (db_key_ b))
          || match encryption_type_ b with
             | EncryptionType_None => false
             | EncryptionType_AesCtr => true
             end)
  /\ (forall ready_flag s status event s1,
        reader_read_next BinlogEvent_default s = Done (Err status, event, s1) ->
        load_iteration debug_callback ready_flag s = Done (Break s1)
        /\ processor_ s1 = processor_ s
        /\ pending_events_ s1 = pending_events_ s).
Proof.
  intros Hstart Hloop Hp Hfd. cbv zeta. intros Hlt Hseek Htrunc Hcheck.
  split.
  - eexists. split.
    + rewrite (load_binlog_broken _ _ _ _ _ _ Hstart Hloop).
      apply (load_finish_truncates callback b p fd); auto. lia.
    + destruct (switch_to_run_keeps
                  (b |> set_callback_calls
                          (callback_calls b
                           ++ match callback with
                              | Callback_set => processor_events p
                              | Callback_empty => []
                              end)
                     |> set_fs
                          (FileFd_truncate_to_current_position fd
                             (processor_offset p)
                             (FileFd_seek fd (processor_offset p) (fs b)).2).2
                     |> set_db_key_used_ false))
        as (Hst & Hpr & Hfs & Hk & Hu & He & Hc & _).
      binlog_simpl. repeat split; try assumption; try congruence.
      unfold init_needs_reindex. rewrite Hk, Hu, He.
      destruct (DbKey_is_empty (db_key_ b)), (encryption_type_ b); reflexivity.
  - intros ready_flag s status event s1 Hread.
    rewrite (load_iteration_turn _ _ _ _ _ _ Hread). simpl.
    apply reader_read_next_keeps in Hread as (? & ? & _). auto.
Qed.

End LoadFinish.
(** ** Partial events: what a commit hands on *)

Section Commit.
Context `{Codec} `{Crypto} `{Platform} `{EventsProcessor}.

Lemma processor_add_events_app events events' p :
  processor_add_events (events ++ events') p
  = (p1 ← processor_add_events events p; processor_add_events events' p1).
Proof.
  revert p. induction events as [| e events IH]; intros p; [reflexivity |].
  simpl. destruct (processor_add_event e p) as [[e' p1] | |]; [| reflexivity ..].
  simpl. apply IH.
Qed.

(** Outside [Reindex], [do_event] hands the event to the processor, after
    whatever a key record does to the stream. *)
Lemma do_event_feeds event b event' b' p :
  state_ b <> Reindex ->
  processor_ b = Some p ->
  do_event event b = Done (event', b') ->
  exists p',
    processor_add_event event p = Done (event', p')
    /\ processor_ b' = Some p' /\ state_ b' = state_ b.
Proof.
  intros Hst Hp Hd. unfold do_event in Hd. cbv zeta in Hd.
  match type of Hd with context [do_event_encryption event ?x] =>
    set (b0 := x) in Hd end.
  assert (state_ b0 = state_ b /\ processor_ b0 = processor_ b) as [Hst0 Hp0].
  { subst b0. unfold buffer_writer_append. binlog_simpl.
    destruct (state_ b) eqn:Es, (encryption_type_ b) eqn:Ee; binlog_simpl;
      by split. }
  clearbody b0.
  match type of Hd with (?m ≫= _) = _ =>
    destruct m as [b1 | |] eqn:Hkey; [| discriminate Hd ..] end.
  cbn [mbind Outcome_bind] in Hd.
  assert (state_ b1 = state_ b /\ processor_ b1 = processor_ b) as [Hst1 Hp1].
  { destruct (_ && _).
    - apply do_event_encryption_core in Hkey as ((Hs & _) & Hpr & _).
      split; congruence.
    - injection Hkey as <-. by split. }
  destruct (decide (state_ b1 = Reindex)) as [Hre | _]; [congruence |].
  unfold the_processor in Hd. rewrite Hp1, Hp in Hd.
  cbn [mbind Outcome_bind] in Hd.
  destruct (processor_add_event event p) as [[e1 p1] | |] eqn:Hadd;
    [| discriminate Hd ..].
  cbn [mbind mret Outcome_bind Outcome_ret] in Hd. injection Hd as <- <-.
  exists p1. binlog_simpl. by repeat split.
Qed.

Lemma do_events_feeds events b b' p :
  state_ b <> Reindex ->
  processor_ b = Some p ->
  do_events events b = Done b' ->
  exists p',
    processor_add_events events p = Done p'
    /\ processor_ b' = Some p' /\ state_ b' = state_ b.
Proof.
  revert b p. induction events as [| e events IH]; intros b p Hst Hp Hd.
  - injection Hd as <-. exists p. by repeat split.
  - simpl in Hd.
    destruct (do_event e b) as [[e' b1] | |] eqn:He; [| discriminate Hd ..].
    cbn [mbind Outcome_bind] in Hd.
    destruct (do_event_feeds _ _ _ _ _ Hst Hp He) as (p1 & Hadd & Hp1 & Hst1).
    destruct (IH b1 p1) as (p' & Hadds & Hp' & Hst'); [congruence | done | done |].
    exists p'. simpl. rewrite Hadd. simpl. repeat split; [done | done | congruence].
Qed.

(** A commit hands the queue and then the event to the processor. *)
Lemma do_add_event_feeds event b b' p :
  has_flag (flags_ event) Flags_Partial = false ->
  state_ b <> Reindex ->
  processor_ b = Some p ->
  do_add_event event b = Done b' ->
  exists p',
    processor_add_events (pending_events_ b ++ [event]) p = Done p'
    /\ processor_ b' = Some p' /\ pending_events_ b' = []
    /\ state_ b' = state_ b.
Proof.
  intros Hflag Hst Hp Hd. unfold do_add_event in Hd. rewrite Hflag in Hd.
  destruct (do_events (pending_events_ b) b) as [b1 | |] eqn:Hq;
    [| discriminate Hd ..].
  cbn [mbind Outcome_bind] in Hd.
  destruct (do_event event (set_pending_events_ [] b1)) as [[e' b2] | |] eqn:He;
    [| discriminate Hd ..].
  cbn [mbind mret Outcome_bind Outcome_ret] in Hd. injection Hd as <-.
  destruct (do_events_feeds _ _ _ _ Hst Hp Hq) as (p1 & Hadds & Hp1 & Hst1).
  destruct (do_event_feeds event (set_pending_events_ [] b1) e' b2 p1)
    as (p2 & Hadd & Hp2 & Hst2); [by binlog_simpl; congruence | done | done |].
  pose proof (do_event_core _ _ _ _ He) as ((_ & Hpend & _) & _).
  exists p2. rewrite processor_add_events_app, Hadds. simpl. rewrite Hadd.
  simpl. repeat split; [done | done | ].
  binlog_simpl. congruence.
Qed.



Lemma do_events_fd_events events b b' :
  do_events events b = Done b' ->
  wrap_uint64 (fd_events_ b')
  = wrap_uint64 (fd_events_ b + Z.of_nat (length events)).
Proof.
  revert b. induction events as [| e events IH]; intros b Hd.
  - injection Hd as <-. simpl. by rewrite Z.add_0_r.
  - simpl in Hd.
    destruct (do_event e b) as [[e' b1] | |] eqn:He; [| discriminate Hd ..].
    cbn [mbind Outcome_bind] in Hd.
    apply do_event_core in He as (_ & _ & Hn & _).
    rewrite (IH _ Hd), Hn. unfold wrap_uint64.
    rewrite !Zplus_mod_idemp_l. f_equal. cbn [length]. lia.
Qed.

Lemma do_add_events_app events events' b :
  do_add_events (events ++ events') b
  = (b1 ← do_add_events events b; do_add_events events' b1).
Proof.
  revert b. induction events as [| e events IH]; intros b; [reflexivity |].
  simpl. destruct (do_add_event e b) as [b1 | |]; [| reflexivity ..].
  simpl. apply IH.
Qed.

Lemma do_add_events_partial events b :
  Forall (fun e => has_flag (flags_ e) Flags_Partial = true) events ->
  do_add_events events b
  = Done (set_pending_events_
            (pending_events_ b ++ map clear_partial events) b).
Proof.
  revert b. induction events as [| e events IH]; intros b Hall.
  - simpl. rewrite app_nil_r, set_pending_events_same. reflexivity.
  - apply Forall_cons in Hall as [Hp Hall]. simpl.
    rewrite (do_add_event_partial _ _ Hp). simpl.
    rewrite (IH _ Hall). simpl.
    rewrite set_pending_events_twice, <- app_assoc. reflexivity.
Qed.

(** What the client's callback gets from the replay of [load_binlog]. *)
Lemma load_finish_calls callback b status b' :
  load_finish callback b = Done (status, b') ->
  exists p,
    processor_ b = Some p
    /\ callback_calls b'
       = callback_calls b
         ++ match callback with
            | Callback_set => processor_events p
            | Callback_empty => []
            end.
Proof.
  intros Hload. unfold load_finish, the_processor, the_fd, ensure_ok in Hload.
  destruct (processor_ b) as [p |]; [| discriminate Hload]. binlog_simpl.
  destruct (fd_ b) as [fd |]; [| discriminate Hload]. binlog_simpl.
  match type of Hload with (?m ≫= _) = _ =>
    destruct m as [b0 | |] eqn:Htr; [| discriminate Hload ..] end.
  binlog_simpl.
  destruct (_ || _); [| discriminate Hload]. cbn [CHECK] in Hload.
  binlog_simpl. injection Hload as <- <-.
  pose proof (switch_to_run_keeps b0) as (_ & _ & _ & _ & _ & _ & Hcalls & _).
  exists p. split; [reflexivity |]. rewrite Hcalls, <- foldl_call.
  destruct (negb _); [| by injection Htr as <-].
  destruct (FileFd_seek _ _ _) as [st1 fs1].
  destruct (is_error st1); [discriminate Htr |].
  cbn [negb CHECK] in Htr. binlog_simpl.
  destruct (FileFd_truncate_to_current_position _ _ _) as [st2 fs2].
  destruct (is_error st2); [discriminate Htr |].
  cbn [negb CHECK] in Htr. binlog_simpl. by injection Htr as <-.
Qed.

(** C3.  For every event passed to [do_add_event].  If its Partial flag
    is set, the engine state changes in [pending_events_] only, which gets
    the event with that flag cleared at its end: [do_event] is not run
    (its counters and the write buffer are as they were) and the
    processor is as it was.  If the flag is clear, the queued events go
    through [do_event] one by one from the head of the queue, then the
    event itself, and the queue is empty afterwards: [fd_events_] has
    counted them all, and outside [Reindex] the processor has been given
    the queued events in the order of the queue and then the event.  So
    Partial events at the end of a sequence of events change nothing but
    the queue, however many they are; and since the replay of
    [load_binlog] calls the client's callback on the live events of the
    processor and on nothing else, whatever the queue holds, an event
    that waits in the queue is not shown to the client. *)
Theorem do_add_event_partial_commit (event : BinlogEvent) (b : Binlog) :
  (has_flag (flags_ event) Flags_Partial = true ->
   do_add_event event b
   = Done (set_pending_events_ (pending_events_ b ++ [clear_partial event]) b)
   /\ has_flag (flags_ (clear_partial event)) Flags_Partial = false
   /\ forall b', do_add_event event b = Done b' ->
        processor_ b' = processor_ b
        /\ fd_events_ b' = fd_events_ b /\ fd_size_ b' = fd_size_ b
        /\ buffer_writer_ b' = buffer_writer_ b)
  /\ (has_flag (flags_ event) Flags_Partial = false ->
      do_add_event event b
      = (b1 ← do_events (pending_events_ b) b;
         r ← do_event event (set_pending_events_ [] b1);
         mret r.2)
      /\ (forall s, do_events [] s = Done s)
      /\ (forall pending_event rest s,
            do_events (pending_event :: rest) s
            = (r ← do_event pending_event s; do_events rest r.2))
      /\ forall b',
           do_add_event event b = Done b' ->
           pending_events_ b' = []
           /\ fd_events_ b'
              = wrap_uint64
                  (fd_events_ b + Z.of_nat (length (pending_events_ b)) + 1)
           /\ (state_ b <> Reindex ->
               forall p,
                 processor_ b = Some p ->
                 exists p',
                   processor_add_events (pending_events_ b ++ [event]) p
                   = Done p'
                   /\ processor_ b' = Some p'))
  /\ (forall events trailing,
        Forall (fun e => has_flag (flags_ e) Flags_Partial = true) trailing ->
        do_add_events (events ++ trailing) b
        = (b1 ← do_add_events events b;
           mret (set_pending_events_
                   (pending_events_ b1 ++ map clear_partial trailing) b1)))
  /\ (forall callback queue status b',
        load_finish callback (set_pending_events_ queue b)
        = Done (status, b') ->
        exists p,
          processor_ b = Some p
          /\ callback_calls b'
             = callback_calls b
               ++ match callback with
                  | Callback_set => processor_events p
                  | Callback_empty => []
                  end).
Proof.
  split; [| split; [| split]].
  - intros Hp. rewrite (do_add_event_partial _ _ Hp).
    split; [reflexivity |]. split; [apply has_flag_clear |].
    intros b' [= <-]. by repeat split.
  - intros Hp. split; [| split; [| split]].
    + unfold do_add_event. rewrite Hp.
      destruct (do_events (pending_events_ b) b) as [b1 | |]; try reflexivity.
      simpl. by destruct (do_event event (set_pending_events_ [] b1)) as [[] | |].
    + reflexivity.
    + intros pending_event rest s. simpl.
      by destruct (do_event pending_event s) as [[] | |].
    + intros b' Hd. split; [| split].
      * unfold do_add_event in Hd. rewrite Hp in Hd.
        destruct (do_events (pending_events_ b) b) as [b1 | |];
          try discriminate.
        simpl in Hd.
        destruct (do_event event (set_pending_events_ [] b1))
          as [[event' b2] | |] eqn:He; try discriminate.
        injection Hd as <-.
        apply do_event_core in He as ((_ & Hpending & _) & _).
        exact Hpending.
      * unfold do_add_event in Hd. rewrite Hp in Hd.
        destruct (do_events (pending_events_ b) b) as [b1 | |] eqn:Hq;
          try discriminate.
        simpl in Hd.
        destruct (do_event event (set_pending_events_ [] b1))
          as [[event' b2] | |] eqn:He; try discriminate.
        injection Hd as <-.
        apply do_event_core in He as (_ & _ & Hn & _).
        rewrite Hn. binlog_simpl.
        pose proof (do_events_fd_events _ _ _ Hq) as Hcount.
        unfold wrap_uint64 in *.
        rewrite <- Zplus_mod_idemp_l, Hcount, Zplus_mod_idemp_l.
        reflexivity.
      * intros Hst p Hproc.
        destruct (do_add_event_feeds event b b' p Hp Hst Hproc Hd)
          as (p' & Hfed & Hp' & _).
        exists p'. by split.
  - intros events trailing Hall. rewrite do_add_events_app.
    destruct (do_add_events events b) as [b1 | |]; [| reflexivity ..].
    simpl. by apply do_add_events_partial.
  - intros callback queue status b' Hload.
    apply load_finish_calls in Hload as (p & Hproc & Hcalls).
    exists p. by split.
Qed.

End Commit.

(** ** Keys: wrong password, old key, fresh key *)

Section Keys.
Context `{Codec} `{Crypto} `{Platform} `{EventsProcessor}.

Lemma size_filled n content : 0 <= n -> size (detail.filled n content) = n.
Proof.
  intros Hn. unfold size, detail.filled. rewrite length_resize. lia.
Qed.

Lemma slice_eqb_false (a b : bytes) : a <> b -> slice_eqb a b = false.
Proof. apply bool_decide_eq_false_2. Qed.

Lemma slice_eqb_true (a b : bytes) : a = b -> slice_eqb a b = true.
Proof. apply bool_decide_eq_true_2. Qed.

Lemma generate_key_nonempty encryption_event db_key :
  DbKey_is_empty db_key = false ->
  detail.generate_key encryption_event db_key
  = Done (detail.filled detail.key_size
            (pbkdf2_sha256 (DbKey_data db_key)
               (detail.key_salt_ encryption_event)
               (if DbKey_is_raw_key db_key
                then detail.kdf_fast_iteration_count
                else detail.kdf_iteration_count))).
Proof. intros He. unfold detail.generate_key. by rewrite He. Qed.

Lemma generate_key_size encryption_event db_key key :
  detail.generate_key encryption_event db_key = Done key ->
  size key = detail.key_size.
Proof.
  unfold detail.generate_key.
  destruct (DbKey_is_empty db_key); [discriminate |].
  intros [= <-]. by apply size_filled.
Qed.


(** [update_encryption] and the switch of the read side, in state [Load],
    for a key and an iv that fit. *)
Lemma install_read_encryption key iv b reader :
  state_ b = Load ->
  size key <= size (aes_ctr_key_ b) ->
  size iv <= detail.iv_size ->
  binlog_reader_ptr_ b = Some reader ->
  encryption_type_ b = EncryptionType_AesCtr ->
  exists b',
    (b1 ← update_encryption key iv b;
     if decide (state_ b1 = Load) then update_read_encryption b1
     else
       _ ← CHECK (bool_decide (state_ b1 = Reindex)) "state_ == State::Reindex";
       b2 ← flush b1;
       mret (update_write_encryption b2)) = Done b'
    /\ info_ b' = info_ b /\ db_key_used_ b' = db_key_used_ b
    /\ state_ b' = Load /\ processor_ b' = processor_ b
    /\ encryption_type_ b' = EncryptionType_AesCtr
    /\ fd_ b' = fd_ b /\ need_sync_ b' = need_sync_ b /\ fs b' = fs b
    /\ pending_events_ b' = pending_events_ b
    /\ db_key_ b' = db_key_ b /\ old_db_key_ b' = old_db_key_ b
    /\ aes_ctr_key_salt_ b' = aes_ctr_key_salt_ b
    /\ aes_ctr_key_ b' = key ++ drop (length key) (aes_ctr_key_ b).
Proof.
  intros Hst Hkey Hiv Hreader Henc.
  unfold update_encryption, copy_from.
  destruct (Z.leb_spec (size key) (size (aes_ctr_key_ b))); [| lia].
  cbn [CHECK]. binlog_simpl.
  destruct (Z.leb_spec (size iv) (size (replicate 16 x00)));
    [| unfold size in *; rewrite length_replicate in *;
       unfold detail.iv_size in Hiv; lia].
  cbn [CHECK]. binlog_simpl.
  destruct (decide (state_ b = Load)); [| done].
  unfold update_read_encryption. binlog_simpl. rewrite Hreader, Henc.
  eexists. split; [reflexivity |]. binlog_simpl. by repeat split.
Qed.


(** The hash check fails for the candidate key and the key of
    [old_db_key] passes: the stream is unlocked with the old key,
    [wrong_password] and [db_key_used_] stay as they were. *)
Lemma do_event_encryption_old_key event b key old_key reader :
  state_ b = Load ->
  let encryption_event := detail.parse (data_ event) in
  candidate_key encryption_event b = Done key ->
  detail.generate_hash key <> detail.key_hash_ encryption_event ->
  detail.generate_key encryption_event (old_db_key_ b) = Done old_key ->
  detail.generate_hash old_key = detail.key_hash_ encryption_event ->
  size (aes_ctr_key_ b) = detail.key_size ->
  size (detail.iv_ encryption_event) <= detail.iv_size ->
  binlog_reader_ptr_ b = Some reader ->
  exists b',
    do_event_encryption event b = Done b'
    /\ info_ b' = info_ b
    /\ db_key_used_ b' = db_key_used_ b
    /\ aes_ctr_key_ b' = old_key
    /\ encryption_type_ b' = EncryptionType_AesCtr
    /\ db_key_ b' = db_key_ b.
Proof.
  intros Hst. cbv zeta. intros Hcand Hhash Hgen Hohash Hksize Hiv Hreader.
  pose proof (generate_key_size _ _ _ Hgen) as Hosize.
  unfold do_event_encryption. unfold candidate_key in Hcand.
  rewrite Hcand. binlog_simpl.
  rewrite (slice_eqb_false _ _ Hhash). cbn [negb].
  rewrite Hst. rewrite bool_decide_eq_true_2 by reflexivity.
  cbn [CHECK]. binlog_simpl.
  assert (DbKey_is_empty (old_db_key_ b) = false) as ->.
  { unfold detail.generate_key in Hgen.
    by destruct (DbKey_is_empty (old_db_key_ b)). }
  cbn [negb]. rewrite Hgen. binlog_simpl.
  rewrite (slice_eqb_true _ _ Hohash). cbn [negb]. binlog_simpl.
  edestruct (install_read_encryption old_key
               (detail.iv_ (detail.parse (data_ event)))
               (b |> set_encryption_type_ EncryptionType_AesCtr
                  |> set_aes_ctr_key_salt_
                       (detail.key_salt_ (detail.parse (data_ event))))
               reader)
    as (b' & Hdone & Hinfo & Hrest); binlog_simpl; try done; try lia.
  exists b'. split; [exact Hdone |].
  destruct_and?. repeat split; try done.
  match goal with Hk : aes_ctr_key_ b' = _ |- _ => rewrite Hk end.
  rewrite drop_ge; [by rewrite app_nil_r |].
  unfold size in *. lia.
Qed.



Lemma do_event_wrong_password_kept event b event' b' :
  do_event event b = Done (event', b') ->
  wrong_password (info_ b) = true ->
  wrong_password (info_ b') = true.
Proof.
  intros Hd Hwp. apply do_event_core in Hd as (Hcore & _).
  unfold core_only in Hcore. destruct_and?.
  match goal with Hi : _ \/ _ |- _ => destruct Hi as [-> | ->] end;
    [exact Hwp | reflexivity].
Qed.




Lemma init_loaded fuel path callback db_key old_db_key debug_callback b0 b1 b2 :
  init_start path db_key old_db_key b0 = Done (Status_OK, b1) ->
  load_binlog fuel callback debug_callback b1 = Done (Status_OK, b2) ->
  init fuel path callback db_key old_db_key debug_callback b0 = init_finish b2.
Proof.
  intros Hstart Hload. unfold init. rewrite Hstart. binlog_simpl.
  cbn [is_error]. rewrite Hload. reflexivity.
Qed.

End Keys.

Section KeyProtocol.
Context `{Codec} `{Crypto} `{Platform} `{EventsProcessor}.



Lemma secure_bytes_length n f : length (secure_bytes n f).1 = n.
Proof.
  revert f. induction n as [| n IH]; intros f; simpl; [reflexivity |].
  destruct (Random_secure_byte f) as [x f1].
  specialize (IH f1). destruct (secure_bytes n f1) as [rest f2].
  simpl in *. by rewrite IH.
Qed.

Lemma reindex_start_keys opened_file b :
  aes_ctr_key_salt_ (reindex_start opened_file b) = aes_ctr_key_salt_ b
  /\ aes_ctr_key_ (reindex_start opened_file b) = aes_ctr_key_ b
  /\ db_key_ (reindex_start opened_file b) = db_key_ b
  /\ state_ (reindex_start opened_file b) = state_ b.
Proof.
  unfold reindex_start, update_write_encryption, reset_buffers, fd_close.
  binlog_simpl. by destruct (fd_ b).
Qed.

End KeyProtocol.
Section InitPlain.
Context `{Codec} `{Crypto} `{Platform} `{EventsProcessor}.

(** Lines 186-199 when the load found the password right and no reindex
    is due: [init] only records [last_id] and [is_opened]. *)
Lemma init_finish_plain (b : Binlog) (p : BinlogEventsProcessor) :
  processor_ b = Some p ->
  wrong_password (info_ b) = false ->
  init_needs_reindex b = false ->
  init_finish b
  = Done (Status_OK,
          b |> update_info (set_last_id (processor_last_id p))
            |> set_last_id_ (processor_last_id p)
            |> update_info (set_is_opened true)).
Proof.
  intros Hp Hwp Hneed. unfold init_finish, the_processor. rewrite Hp.
  binlog_simpl.
  rewrite Hwp.
  replace (init_needs_reindex _) with false
    by (rewrite <- Hneed; reflexivity).
  reflexivity.
Qed.

End InitPlain.

(** ** Records in sequence *)

Lemma wrap_int64_add_l (a b : Z) :
  wrap_int64 (wrap_int64 a + b) = wrap_int64 (a + b).
Proof.
  unfold wrap_int64.
  replace ((a + 2 ^ 63) mod 2 ^ 64 - 2 ^ 63 + b + 2 ^ 63)
    with ((a + 2 ^ 63) mod 2 ^ 64 + b) by lia.
  rewrite Zplus_mod_idemp_l. f_equal. f_equal. lia.
Qed.

Lemma wrap_int64_range (a : Z) : - 2 ^ 63 <= wrap_int64 a < 2 ^ 63.
Proof.
  unfold wrap_int64. pose proof (Z.mod_pos_bound (a + 2 ^ 63) (2 ^ 64)). lia.
Qed.

Lemma wrap_int64_small (a : Z) : - 2 ^ 63 <= a < 2 ^ 63 -> wrap_int64 a = a.
Proof. intros Ha. unfold wrap_int64. rewrite Z.mod_small; lia. Qed.

Section ReaderSequences.
Context `{Codec}.

Lemma peek_size_app (raw rest : bytes) :
  4 <= size raw -> detail.peek_size (raw ++ rest) = detail.peek_size raw.
Proof.
  intros H4. unfold detail.peek_size, head_bytes. do 2 f_equal.
  rewrite take_app_le; [reflexivity |]. unfold size in H4. lia.
Qed.

(** One framed record at the head of the input. *)
Lemma read_next_framed (r : detail.BinlogReader) (raw rest : bytes) :
  detail.state_ r = detail.ReadLength ->
  framed raw ->
  let offset := wrap_int64 (detail.offset_ r + size raw) in
  let out := detail.read_next r (raw ++ rest) BinlogEvent_default in
  detail.rn_result out = Ok 0
  /\ detail.rn_input out = rest
  /\ detail.rn_event out
     = event_set_offset offset
         (BinlogEvent_init raw true BinlogEvent_default).2
  /\ detail.state_ (detail.rn_reader out) = detail.ReadLength
  /\ detail.offset_ (detail.rn_reader out) = offset.
Proof.
  intros Hst (Hpeek & [Hmin Hmax] & Hinit). cbv zeta.
  pose proof size_bounds as [Hmin32 _]. rewrite Hmin32 in Hmin.
  assert (detail.peek_size (raw ++ rest) = size raw) as Hpeek'.
  { rewrite peek_size_app; [exact Hpeek | lia]. }
  rewrite read_next_header; [| exact Hst | | ].
  2: { rewrite size_app. pose proof (size_nonneg rest). lia. }
  2: { rewrite Hpeek', Hmin32. lia. }
  rewrite Hpeek'.
  pose proof (read_event_full
                (detail.set_state detail.ReadEvent
                   (detail.set_size (size raw) r))
                (raw ++ rest) BinlogEvent_default) as Hfull.
  cbv zeta in Hfull. simpl in Hfull.
  assert (head_bytes (size raw) (raw ++ rest) = raw) as Hhead.
  { unfold head_bytes, size. rewrite Nat2Z.id. by rewrite take_app_length. }
  assert (tail_bytes (size raw) (raw ++ rest) = rest) as Htail.
  { unfold tail_bytes, size. rewrite Nat2Z.id. by rewrite drop_app_length. }
  rewrite Hhead, Htail, Hinit in Hfull.
  rewrite Hfull.
  - by repeat split.
  - rewrite size_app. pose proof (size_nonneg rest). lia.
Qed.

(** X1.  Records in sequence.  When the input holds framed records one
    after the other (each with its size in its length field and within the
    bounds, each accepted by [BinlogEvent::init]), as many calls of
    [read_next] return them all, one record per call and in order, each
    with the running offset behind it; nothing of what follows the records
    is consumed, the reader ends in state [ReadLength], and its offset (an
    int64) has advanced by the size of all the records together. *)
Theorem read_next_sequence (records : list bytes) (r : detail.BinlogReader)
  (rest : bytes) :
  detail.state_ r = detail.ReadLength ->
  - 2 ^ 63 <= detail.offset_ r < 2 ^ 63 ->
  Forall framed records ->
  exists r',
    read_events (length records) r (concat records ++ rest)
    = (decoded (detail.offset_ r) records, r', rest)
    /\ detail.state_ r' = detail.ReadLength
    /\ detail.offset_ r'
       = wrap_int64 (detail.offset_ r + size (concat records)).
Proof.
  intros Hst Hrange Hall. revert r Hst Hrange.
  induction Hall as [| raw records Hraw _ IH]; intros r Hst Hrange.
  - exists r. simpl. repeat split; [exact Hst |].
    rewrite Z.add_0_r. symmetry. by apply wrap_int64_small.
  - destruct (read_next_framed r raw (concat records ++ rest) Hst Hraw)
      as (Hres & Hin & Hev & Hst' & Hoff).
    destruct (IH (detail.rn_reader
                    (detail.read_next r (raw ++ concat records ++ rest)
                       BinlogEvent_default)))
      as (r' & Hrec & Hst'' & Hoff'); [exact Hst' | |].
    { rewrite Hoff. apply wrap_int64_range. }
    exists r'. split; [| split; [exact Hst'' |]].
    + simpl. rewrite <- app_assoc. rewrite Hres, Hin, Hev.
      rewrite Hoff in Hrec. rewrite Hrec. reflexivity.
    + rewrite Hoff', Hoff. simpl. rewrite wrap_int64_add_l, size_app.
      f_equal. lia.
Qed.

End ReaderSequences.

(** ** The key record *)

Section KeyRecord.
Context `{Codec} `{Crypto}.

(** X2.  What [store] writes, [parse] reads back.  For an
    [AesCtrEncryptionEvent] on whose three fields [td::parse] undoes
    [td::store] whatever follows in the buffer, parsing the stored bytes
    gives the event back: the flags word is skipped and salt, iv and key
    hash are read in the order they were written. *)
Theorem parse_store (ev : detail.AesCtrEncryptionEvent) :
  (forall x rest,
     x ∈ [detail.key_salt_ ev; detail.iv_ ev; detail.key_hash_ ev] ->
     tl_parse (tl_store x ++ rest) = (x, rest)) ->
  detail.parse (detail.store ev) = ev.
Proof.
  intros Hlaw. destruct ev as [salt iv hash]. simpl in Hlaw.
  assert (forall s, tail_bytes 4 (detail.store_flags ++ s) = s) as Hflags
    by reflexivity.
  unfold detail.parse, detail.store. rewrite Hflags.
  cbn [detail.key_salt_ detail.iv_ detail.key_hash_].
  rewrite (Hlaw salt) by set_solver.
  rewrite (Hlaw iv) by set_solver.
  rewrite <- (app_nil_r (tl_store hash)).
  rewrite (Hlaw hash) by set_solver.
  reflexivity.
Qed.

(** X3.  Keys and hashes have their sizes.  [generate_key] stops on its
    CHECK when the [DbKey] is empty; otherwise it returns the 32 bytes that
    [pbkdf2_sha256] fills from the key material and the salt of the event,
    with 2 iterations for a raw key and 60002 for a password.
    [generate_hash] is 32 bytes of HMAC-SHA256 of the fixed message under
    the key. *)
Theorem generate_key_checked (ev : detail.AesCtrEncryptionEvent)
  (db_key : DbKey) :
  (DbKey_is_empty db_key = true ->
   exists why, detail.generate_key ev db_key = Fatal why)
  /\ (DbKey_is_empty db_key = false ->
      detail.generate_key ev db_key
      = Done (detail.filled 32
                (pbkdf2_sha256 (DbKey_data db_key) (detail.key_salt_ ev)
                   (if DbKey_is_raw_key db_key then 2 else 60002)))
      /\ forall key, detail.generate_key ev db_key = Done key -> size key = 32)
  /\ (forall key,
        detail.generate_hash key
        = detail.filled 32
            (hmac_sha256 key
               (String.list_byte_of_string "cucumbers everywhere"))
        /\ size (detail.generate_hash key) = 32).
Proof.
  split; [| split].
  - intros Hempty. unfold detail.generate_key. rewrite Hempty. simpl. eauto.
  - intros Hempty. unfold detail.generate_key. rewrite Hempty. simpl.
    split; [by destruct (DbKey_is_raw_key db_key) |].
    intros key [= <-]. apply size_filled. lia.
  - intros key. split; [reflexivity |]. apply size_filled. lia.
Qed.

End KeyRecord.

Section ReaderErrors.
Context `{Codec}.

(** X24.  A record refused by [BinlogEvent::init] is consumed all the
    same.  In state [ReadLength], when a whole record of a size within the
    bounds is buffered and [init] refuses it (a wrong CRC, say),
    [read_next] returns the error of [init] with the bytes of the record
    taken from the input; the running offset has not moved, and the
    reader is left in state [ReadEvent] with that size: a further call
    would read no length field but take the next bytes for a record of the
    same size. *)
Theorem read_next_refused_record (r : detail.BinlogReader) (input : bytes)
  (event : BinlogEvent) :
  detail.state_ r = detail.ReadLength ->
  4 <= size input ->
  let n := detail.peek_size input in
  MIN_EVENT_SIZE <= n <= MAX_EVENT_SIZE ->
  n <= size input ->
  let refused := BinlogEvent_init (head_bytes n input) true event in
  is_error refused.1 = true ->
  let out := detail.read_next r input event in
  detail.rn_result out = Err refused.1
  /\ detail.rn_input out = tail_bytes n input
  /\ detail.rn_reader out
     = detail.set_state detail.ReadEvent (detail.set_size n r)
  /\ detail.offset_ (detail.rn_reader out) = detail.offset_ r
  /\ forall input' event',
       detail.read_next (detail.rn_reader out) input' event'
       = detail.read_event (detail.rn_reader out) input' event'.
Proof.
  intros Hst H4. cbv zeta. intros Hbounds Hwhole Hrefused.
  rewrite read_next_header by assumption.
  pose proof (read_event_full
                (detail.set_state detail.ReadEvent
                   (detail.set_size (detail.peek_size input) r))
                input event) as Hfull.
  cbv zeta in Hfull. simpl in Hfull. rewrite (Hfull Hwhole). clear Hfull.
  destruct (BinlogEvent_init _ true event) as [status event'].
  simpl in Hrefused |- *.
  destruct status; [discriminate Hrefused |].
  by repeat split.
Qed.

End ReaderErrors.

(** ** Flushing, syncing and closing *)

Section Flushing.
Context `{Codec} `{Crypto} `{Platform} `{EventsProcessor}.

Lemma wakeup_marks b b' :
  byte_flow_source_wakeup b = Done b' ->
  need_sync_ b' = need_sync_ b
  /\ need_flush_since_ b' = need_flush_since_ b
  /\ fs b' = fs b.
Proof.
  unfold byte_flow_source_wakeup, sync_with_writer. intros Hd.
  binlog_simpl. outcome_inv; subst; by binlog_simpl.
Qed.

Lemma fd_flush_write_marks b r b' :
  fd_flush_write b = Done (r, b') ->
  need_sync_ b' = need_sync_ b
  /\ need_flush_since_ b' = need_flush_since_ b.
Proof.
  unfold fd_flush_write, the_fd, sync_with_writer. intros Hd.
  binlog_simpl. outcome_inv; subst; by binlog_simpl.
Qed.

Ltac use_marks :=
  repeat match goal with
  | H : byte_flow_source_wakeup _ = Done _ |- _ =>
      apply wakeup_marks in H as (? & ? & ?)
  | H : fd_flush_write _ = Done _ |- _ =>
      apply fd_flush_write_marks in H as (? & ?)
  end.

(** X4.  [update_encryption] overwrites the head of the 32-byte key.  It
    returns exactly when the key is no longer than [aes_ctr_key_] and the
    iv no longer than 16 bytes ([copy_from] has a CHECK on the sizes); it
    then puts the key over the first bytes of [aes_ctr_key_] and leaves
    the other bytes and the length as they were: a key of the full length
    replaces it, the empty key changes nothing.  Nothing but
    [aes_ctr_key_] and [aes_ctr_state_] changes. *)
Theorem update_encryption_copies (key iv : bytes) (b : Binlog) :
  ((exists b', update_encryption key iv b = Done b')
   <-> size key <= size (aes_ctr_key_ b) /\ size iv <= 16)
  /\ (forall b',
        update_encryption key iv b = Done b' ->
        aes_ctr_key_ b' = key ++ drop (length key) (aes_ctr_key_ b)
        /\ size (aes_ctr_key_ b') = size (aes_ctr_key_ b)
        /\ (size key = size (aes_ctr_key_ b) -> aes_ctr_key_ b' = key)
        /\ (key = [] -> aes_ctr_key_ b' = aes_ctr_key_ b)
        /\ b' = b |> set_aes_ctr_key_ (aes_ctr_key_ b')
                  |> set_aes_ctr_state_ (aes_ctr_state_ b')).
Proof.
  assert (size (replicate 16 x00) = 16) as H16 by reflexivity.
  unfold update_encryption, copy_from. rewrite H16. split.
  - split.
    + intros [b' Hd].
      destruct (Z.leb_spec (size key) (size (aes_ctr_key_ b)));
        [| discriminate Hd].
      destruct (Z.leb_spec (size iv) 16); [| discriminate Hd].
      by split.
    + intros [Hkey Hiv].
      destruct (Z.leb_spec (size key) (size (aes_ctr_key_ b))); [| lia].
      destruct (Z.leb_spec (size iv) 16); [| lia].
      simpl. eauto.
  - intros b' Hd.
    destruct (Z.leb_spec (size key) (size (aes_ctr_key_ b)));
      [| discriminate Hd].
    destruct (Z.leb_spec (size iv) 16); [| discriminate Hd].
    simpl in Hd. injection Hd as <-. binlog_simpl.
    split; [reflexivity |]. split; [| split; [| split]].
    + unfold size in *. rewrite length_app, length_drop. lia.
    + intros Hfull. rewrite drop_ge; [apply app_nil_r |].
      unfold size in Hfull. lia.
    + by intros ->.
    + reflexivity.
Qed.

(** X5.  A flush that returns has written everything.  In state [Load]
    [flush] does nothing.  Otherwise, when it returns, the buffer that
    [fd_] writes from is empty ([fd_.need_flush_write()] is false: a short
    write stops the process), [need_flush_since_] is 0, and [need_sync_] is
    set or as it was; the state, the
    processor, the queue of Partial events, the keys and the counters are
    untouched. *)
Theorem flush_writes_all (b b' : Binlog) :
  flush b = Done b' ->
  (state_ b = Load -> b' = b)
  /\ (state_ b <> Load ->
      fd_need_flush_write b' = false
      /\ need_flush_since_ b' = 0%Q
      /\ (need_sync_ b' = true \/ need_sync_ b' = need_sync_ b))
  /\ state_ b' = state_ b /\ processor_ b' = processor_ b
  /\ pending_events_ b' = pending_events_ b
  /\ fd_size_ b' = fd_size_ b /\ fd_events_ b' = fd_events_ b
  /\ fd_ b' = fd_ b /\ info_ b' = info_ b.
Proof.
  intros Hd.
  pose proof (flush_io b b' Hd) as Hio.
  split; [| split].
  - intros Hload. unfold flush in Hd. rewrite decide_True in Hd by done.
    by injection Hd.
  - intros Hrun. unfold flush, flush_events_buffer, ensure in Hd.
    rewrite decide_False in Hd by done.
    binlog_simpl. outcome_inv.
    all: subst; binlog_simpl.
    all: split; [by apply negb_true_iff |]; split; [reflexivity |].
    all: use_marks.
    all: destruct (_ >? 0); binlog_simpl; [by left | right; congruence].
  - unfold io_only in Hio. destruct_and?. by repeat split.
Qed.

Lemma flush_writes_all_aux (b b' : Binlog) :
  flush b = Done b' -> state_ b <> Load -> fd_need_flush_write b' = false.
Proof.
  intros Hd Hrun. unfold flush, flush_events_buffer, ensure in Hd.
  rewrite decide_False in Hd by done.
  binlog_simpl. outcome_inv.
  all: subst; binlog_simpl; by apply negb_true_iff.
Qed.

(** X6.  After [sync] nothing waits to be synced.  When [sync] returns,
    [need_sync_] is false; outside state [Load] everything buffered has
    been written; the descriptor is synced only when [need_sync_] is set
    once [flush] is done, so a [sync] with nothing written and nothing
    pending leaves the file system as [flush] left it. *)
Theorem sync_clears_need_sync (b b' : Binlog) :
  sync b = Done b' ->
  need_sync_ b' = false
  /\ (state_ b <> Load -> fd_need_flush_write b' = false)
  /\ (forall b1, flush b = Done b1 -> need_sync_ b1 = false -> b' = b1)
  /\ state_ b' = state_ b /\ processor_ b' = processor_ b
  /\ pending_events_ b' = pending_events_ b /\ fd_ b' = fd_ b.
Proof.
  intros Hd. pose proof (sync_io b b' Hd) as Hio.
  unfold sync in Hd.
  destruct (flush b) as [b1 | |] eqn:Hflush; [| discriminate Hd ..].
  pose proof (flush_writes_all_aux b b1 Hflush) as Hwritten.
  binlog_simpl. unfold the_fd, ensure_ok in Hd.
  split; [| split; [| split]].
  - destruct (need_sync_ b1) eqn:Hns; outcome_inv; subst; by binlog_simpl.
  - intros Hrun. specialize (Hwritten Hrun).
    destruct (need_sync_ b1) eqn:Hns; outcome_inv; subst; by binlog_simpl.
  - intros ? [= <-] Hns. rewrite Hns in Hd. by injection Hd.
  - unfold io_only in Hio. destruct_and?. by repeat split.
Qed.

(** X7.  [lazy_flush] writes only past 16384 buffered bytes.  With
    [buffered] the bytes appended and not yet written
    ([buffer_reader_] after [sync_with_writer]): past [1 << 14] of them
    [lazy_flush] is [flush]; up to that it returns without touching the
    file system, and it notes the time in [need_flush_since_] only when
    something is buffered and no time is noted yet (a later event does not
    restart the delay). *)
Theorem lazy_flush_threshold (b : Binlog) :
  let buffered := size (buffer_reader_ b) + size (buffer_writer_ b) in
  (buffered > 16384 -> lazy_flush b = flush (sync_with_writer b))
  /\ (buffered <= 16384 ->
      exists b',
        lazy_flush b = Done b'
        /\ fs b' = fs b
        /\ need_sync_ b' = need_sync_ b
        /\ buffer_reader_ b' = buffer_reader_ b ++ buffer_writer_ b
        /\ need_flush_since_ b'
           = if (0 <? buffered) && Qeq_bool (need_flush_since_ b) 0
             then Time_now_cached (fs b)
             else need_flush_since_ b).
Proof.
  cbv zeta. unfold lazy_flush, flush_events_buffer.
  assert (size (buffer_reader_ (sync_with_writer b)) + 0
          = size (buffer_reader_ b) + size (buffer_writer_ b)) as ->.
  { unfold sync_with_writer. binlog_simpl. rewrite size_app. lia. }
  assert (need_flush_since_ (sync_with_writer b) = need_flush_since_ b)
    as -> by reflexivity.
  assert (fs (sync_with_writer b) = fs b) as -> by reflexivity.
  change (Z.shiftl 1 14) with 16384.
  set (buffered := size (buffer_reader_ b) + size (buffer_writer_ b)).
  split; intros Hsize.
  - destruct (Z.gtb_spec buffered 16384); [reflexivity | lia].
  - destruct (Z.gtb_spec buffered 16384); [lia |].
    replace (buffered >? 0) with (0 <? buffered)
      by (rewrite Z.gtb_ltb; reflexivity).
    destruct ((0 <? buffered) && Qeq_bool (need_flush_since_ b) 0);
      eexists; (split; [reflexivity |]); by binlog_simpl.
Qed.

Lemma close_result need_sync b status b' :
  close need_sync b = Done (status, b') ->
  status = Status_OK /\ fd_ b' = None
  /\ (fd_ b = None -> b' = b)
  /\ (fd_ b <> None ->
      path_ b' = EmptyString /\ is_opened (info_ b') = false)
  /\ pending_events_ b' = pending_events_ b
  /\ db_key_ b' = db_key_ b /\ last_id_ b' = last_id_ b.
Proof.
  unfold close. intros Hd.
  destruct (fd_ b) as [fd |] eqn:Hfd.
  - destruct (if need_sync then sync b else flush b) as [b1 | |] eqn:Hio;
      [| discriminate Hd ..].
    assert (io_only b b1) as Hb1.
    { destruct need_sync; [by apply sync_io | by apply flush_io]. }
    simpl in Hd. injection Hd as <- <-.
    unfold io_only in Hb1. destruct_and?.
    unfold fd_close. binlog_simpl.
    destruct (fd_ b1) eqn:Hfd1; binlog_simpl; [| congruence].
    repeat split; auto; discriminate.
  - injection Hd as <- <-. rewrite Hfd. repeat split; auto; done.
Qed.

(** X8.  [close] is idempotent and writes no pending event.  On an
    engine without descriptor [close] returns OK and changes nothing.  On
    an open engine, when it returns, the status is OK, the descriptor is
    gone, the path is empty, [is_opened] and [need_sync_] are false; the
    queue of Partial events is neither written nor dropped, and the state
    and the processor stay.  A second [close] then changes nothing. *)
Theorem close_idempotent (need_sync : bool) (b : Binlog)
  (status : Status) (b' : Binlog) :
  close need_sync b = Done (status, b') ->
  status = Status_OK
  /\ fd_ b' = None
  /\ (fd_ b = None -> b' = b)
  /\ (fd_ b <> None ->
      path_ b' = EmptyString /\ is_opened (info_ b') = false
      /\ need_sync_ b' = false)
  /\ pending_events_ b' = pending_events_ b
  /\ processor_ b' = processor_ b /\ state_ b' = state_ b
  /\ forall need_sync', close need_sync' b' = Done (Status_OK, b').
Proof.
  unfold close. intros Hd.
  destruct (fd_ b) as [fd |] eqn:Hfd.
  - destruct (if need_sync then sync b else flush b) as [b1 | |] eqn:Hio;
      [| discriminate Hd ..].
    assert (io_only b b1) as Hb1.
    { destruct need_sync; [by apply sync_io | by apply flush_io]. }
    simpl in Hd. injection Hd as <- <-.
    unfold io_only in Hb1. destruct_and?.
    unfold fd_close. binlog_simpl.
    destruct (fd_ b1) eqn:Hfd1; binlog_simpl; [| congruence].
    repeat split; auto; discriminate.
  - injection Hd as <- <-. rewrite Hfd.
    repeat split; auto; done.
Qed.

(** X9.  [close_and_destroy] unlinks the file it had open.  The path is
    read before [close] clears it: an open engine is flushed and closed
    without sync, then its file and the file with the suffix ".new" are
    unlinked, whatever [unlink] answers, and the status is that of
    [close], OK.  On an engine that was closed before, [path_] is already
    empty: only the paths "" and ".new" are unlinked. *)
Theorem close_and_destroy_unlinks (b : Binlog) :
  (forall b1 status,
     close false b = Done (status, b1) ->
     close_and_destroy b
     = Done (Status_OK,
             set_fs (unlink (path_ b +:+ ".new")
                       (unlink (path_ b) (fs b1)).2).2 b1)
     /\ (destroy (path_ b) (fs b1)).1 = Status_OK)
  /\ (forall need_sync status b1,
        fd_ b <> None ->
        close need_sync b = Done (status, b1) ->
        close_and_destroy b1
        = Done (Status_OK,
                set_fs (unlink ".new" (unlink "" (fs b1)).2).2 b1)).
Proof.
  assert (forall path f,
            destroy path f
            = (Status_OK, (unlink (path +:+ ".new") (unlink path f).2).2))
    as Hdestroy.
  { intros path f. unfold destroy.
    destruct (unlink path f) as [? f1]. simpl.
    by destruct (unlink (path +:+ ".new") f1). }
  split.
  - intros b1 status Hclose.
    pose proof (close_result false b status b1 Hclose) as (-> & _).
    unfold close_and_destroy. rewrite Hclose. binlog_simpl.
    rewrite !Hdestroy. by split.
  - intros need_sync status b1 Hopen Hclose.
    pose proof (close_result need_sync b status b1 Hclose)
      as (-> & Hfd & _ & Hclosed & _).
    destruct (Hclosed Hopen) as (Hpath & _).
    unfold close_and_destroy, close. rewrite Hfd. binlog_simpl.
    rewrite Hdestroy, Hpath. reflexivity.
Qed.

End Flushing.

(** ** Key records and counters *)

Section KeyRecords.
Context `{Codec} `{Crypto} `{Platform} `{EventsProcessor}.

(** X10.  The right key is accepted.  In state [Load], when the key that
    lines 312-317 pick for an [AesCtrEncryption] record (the cached key if
    the salt of the record is the cached salt, else the key derived from
    [db_key_]) has the HMAC stored in the record, [do_event]'s handling of
    the record marks [db_key_] as used, leaves [wrong_password] and the
    rest of [info_] as they were, whatever [old_db_key_] holds, caches
    the salt of the record, installs the key, and switches the stream to
    AES-CTR without touching the file system. *)
Theorem key_record_accepts_right_key (event : BinlogEvent) (b : Binlog)
  (key : bytes) (reader : detail.BinlogReader) :
  state_ b = Load ->
  let encryption_event := detail.parse (data_ event) in
  candidate_key encryption_event b = Done key ->
  detail.generate_hash key = detail.key_hash_ encryption_event ->
  size key <= size (aes_ctr_key_ b) ->
  size (detail.iv_ encryption_event) <= detail.iv_size ->
  binlog_reader_ptr_ b = Some reader ->
  exists b',
    do_event_encryption event b = Done b'
    /\ db_key_used_ b' = true
    /\ info_ b' = info_ b
    /\ encryption_type_ b' = EncryptionType_AesCtr
    /\ aes_ctr_key_salt_ b' = detail.key_salt_ encryption_event
    /\ aes_ctr_key_ b' = key ++ drop (length key) (aes_ctr_key_ b)
    /\ state_ b' = Load /\ fs b' = fs b /\ processor_ b' = processor_ b.
Proof.
  intros Hst. cbv zeta. intros Hcand Hhash Hksize Hiv Hreader.
  unfold do_event_encryption. unfold candidate_key in Hcand.
  rewrite Hcand. binlog_simpl.
  rewrite (slice_eqb_true _ _ Hhash). cbn [negb]. binlog_simpl.
  edestruct (install_read_encryption key
               (detail.iv_ (detail.parse (data_ event)))
               (b |> set_db_key_used_ true
                  |> set_encryption_type_ EncryptionType_AesCtr
                  |> set_aes_ctr_key_salt_
                       (detail.key_salt_ (detail.parse (data_ event))))
               reader)
    as (b' & Hdone & Hinfo & Hrest); binlog_simpl; try done.
  exists b'. split; [exact Hdone |].
  destruct_and?. by repeat split.
Qed.

(** X11.  A cached salt stands in for the password.  In state [Load],
    when the salt of an [AesCtrEncryption] record is the salt the engine
    has cached and the cached key has the HMAC of the record, the record
    is accepted and [db_key_] is marked as used whatever [db_key_] and
    [old_db_key_] hold, and the cached key stays installed. *)
Theorem cached_salt_skips_db_key (event : BinlogEvent) (b : Binlog)
  (reader : detail.BinlogReader) (db_key old_db_key : DbKey) :
  state_ b = Load ->
  let encryption_event := detail.parse (data_ event) in
  aes_ctr_key_salt_ b = detail.key_salt_ encryption_event ->
  detail.generate_hash (aes_ctr_key_ b) = detail.key_hash_ encryption_event ->
  size (detail.iv_ encryption_event) <= detail.iv_size ->
  binlog_reader_ptr_ b = Some reader ->
  exists b',
    do_event_encryption event
      (b |> set_db_key_ db_key |> set_old_db_key_ old_db_key) = Done b'
    /\ db_key_used_ b' = true
    /\ wrong_password (info_ b') = wrong_password (info_ b)
    /\ aes_ctr_key_ b' = aes_ctr_key_ b
    /\ db_key_ b' = db_key.
Proof.
  intros Hst. cbv zeta. intros Hsalt Hhash Hiv Hreader.
  unfold do_event_encryption. binlog_simpl.
  rewrite (slice_eqb_true _ _ Hsalt). binlog_simpl.
  rewrite (slice_eqb_true _ _ Hhash). cbn [negb]. binlog_simpl.
  edestruct (install_read_encryption (aes_ctr_key_ b)
               (detail.iv_ (detail.parse (data_ event)))
               (b |> set_db_key_ db_key |> set_old_db_key_ old_db_key
                  |> set_db_key_used_ true
                  |> set_encryption_type_ EncryptionType_AesCtr
                  |> set_aes_ctr_key_salt_
                       (detail.key_salt_ (detail.parse (data_ event))))
               reader)
    as (b' & Hdone & Hinfo & Hused & _ & _ & _ & _ & _ & _ & _ & Hdb & _
        & _ & Hkey);
    binlog_simpl; try done; try lia.
  exists b'. split; [exact Hdone |]. split; [exact Hused |].
  split; [by rewrite Hinfo |]. split; [| exact Hdb].
  rewrite Hkey. rewrite drop_ge by lia. apply app_nil_r.
Qed.

Lemma update_encryption_state key iv b b1 :
  update_encryption key iv b = Done b1 -> state_ b1 = state_ b.
Proof.
  unfold update_encryption, copy_from. intros Hd.
  destruct (size key <=? _); [| discriminate Hd].
  destruct (size iv <=? _); [| discriminate Hd].
  by injection Hd as <-.
Qed.

Lemma do_event_encryption_not_in_run event b b' :
  state_ b = Run -> do_event_encryption event b <> Done b'.
Proof.
  intros Hst. unfold do_event_encryption.
  match goal with |- (?m ≫= _) <> _ =>
    destruct m as [key | |]; [| discriminate ..] end.
  cbn [mbind Outcome_bind].
  destruct (negb (slice_eqb _ _)).
  - rewrite Hst. rewrite bool_decide_eq_false_2 by done. discriminate.
  - cbn [mbind mret Outcome_bind Outcome_ret].
    destruct (update_encryption _ _ _) as [b1 | |] eqn:Hu; [| discriminate ..].
    apply update_encryption_state in Hu. cbn [mbind Outcome_bind].
    assert (state_ b1 = Run) as Hst1 by (rewrite Hu; exact Hst).
    rewrite Hst1. rewrite decide_False by done.
    rewrite bool_decide_eq_false_2 by done. discriminate.
Qed.

(** X12.  A key record is for loading and reindexing only.  [do_event]
    returns from an [AesCtrEncryption] record only in state [Load] or
    [Reindex]: in state [Run] every path ends on a CHECK (on [state_ ==
    State::Load] when the hash differs, on [state_ == State::Reindex]
    when it matches, or earlier in [generate_key] or [copy_from]), so an
    event of that type given to [add_event] of a running engine stops the
    process. *)
Theorem key_record_stops_running_engine (event : BinlogEvent) (b : Binlog) :
  state_ b = Run ->
  is_key_record event = true ->
  (forall r, do_event event b <> Done r)
  /\ (has_flag (flags_ event) Flags_Partial = false ->
      pending_events_ b = [] ->
      forall b', add_event event b <> Done b').
Proof.
  intros Hst Hkey.
  assert (forall r, do_event event b <> Done r) as Hnever.
  { intros r Hd. unfold do_event in Hd. binlog_simpl.
    rewrite Hst in Hd. unfold is_key_record in Hkey. rewrite Hkey in Hd.
    destruct (do_event_encryption _ _) as [b1 | |] eqn:He;
      [| discriminate Hd ..].
    revert He. apply do_event_encryption_not_in_run.
    unfold buffer_writer_append.
    by destruct (encryption_type_ _); binlog_simpl. }
  split; [exact Hnever |].
  intros Hflag Hpending b' Hd. unfold add_event, do_add_event in Hd.
  rewrite Hflag, Hpending in Hd. simpl in Hd.
  destruct (do_event event (set_pending_events_ [] b)) as [r | |] eqn:He;
    [| discriminate Hd ..].
  rewrite <- Hpending in He.
  replace (set_pending_events_ (pending_events_ b) b) with b in He
    by (by destruct b).
  by apply Hnever in He.
Qed.

End KeyRecords.

Section Counters.
Context `{Codec} `{Crypto} `{Platform} `{EventsProcessor}.

Lemma wrap_uint64_add_l (a b : Z) :
  wrap_uint64 (wrap_uint64 a + b) = wrap_uint64 (a + b).
Proof. unfold wrap_uint64. by rewrite Zplus_mod_idemp_l. Qed.

(** X13.  The counters follow every event.  Whatever the state and the
    types of the events, when the events of a list have gone through
    [do_event] one after the other, [fd_events_] (a uint64) has advanced
    by their number and [fd_size_] (an int64) by the size of their raw
    bytes together; the state, the path, the descriptor and the keys given
    to [init] are as before. *)
Theorem do_events_counts (events : list BinlogEvent) (b b' : Binlog) :
  0 <= fd_events_ b < 2 ^ 64 ->
  - 2 ^ 63 <= fd_size_ b < 2 ^ 63 ->
  do_events events b = Done b' ->
  fd_events_ b' = wrap_uint64 (fd_events_ b + Z.of_nat (length events))
  /\ fd_size_ b'
     = wrap_int64 (fd_size_ b + size (concat (map raw_event_ events)))
  /\ state_ b' = state_ b /\ path_ b' = path_ b /\ fd_ b' = fd_ b
  /\ db_key_ b' = db_key_ b /\ old_db_key_ b' = old_db_key_ b.
Proof.
  intros Hev Hsz Hd.
  pose proof (do_events_core events b b' Hd) as Hcore.
  assert (fd_events_ b' = wrap_uint64 (fd_events_ b + Z.of_nat (length events))
          /\ fd_size_ b'
             = wrap_int64 (fd_size_ b + size (concat (map raw_event_ events))))
    as [Hn Hs].
  { clear Hcore. revert b Hev Hsz Hd.
    induction events as [| event events IH]; intros b Hev Hsz Hd.
    - injection Hd as <-. simpl. rewrite !Z.add_0_r. split.
      + unfold wrap_uint64. by rewrite Z.mod_small.
      + by rewrite wrap_int64_small.
    - simpl in Hd.
      destruct (do_event event b) as [[event' b1] | |] eqn:He;
        [| discriminate Hd ..].
      simpl in Hd. apply do_event_core in He as (_ & Hs1 & Hn1 & _).
      destruct (IH b1) as [Hn Hs]; [| | exact Hd |].
      { rewrite Hn1. unfold wrap_uint64. apply Z.mod_pos_bound. lia. }
      { rewrite Hs1. apply wrap_int64_range. }
      split.
      + rewrite Hn, Hn1, wrap_uint64_add_l. f_equal.
        rewrite length_cons. lia.
      + rewrite Hs, Hs1, wrap_int64_add_l. f_equal.
        rewrite map_cons, concat_cons, size_app. lia. }
  unfold core_only in Hcore. destruct_and?. by repeat split.
Qed.

(** X14.  A cached salt is written again with the cached key.  When
    [db_key_] is not empty and a salt is cached, [reset_encryption] takes
    only the 16 bytes of the iv from the random generator and writes a key
    record with the cached salt and the HMAC of the cached key
    [aes_ctr_key_], which it hands to [do_event]. *)
Theorem reset_encryption_cached_salt (b : Binlog) :
  DbKey_is_empty (db_key_ b) = false ->
  aes_ctr_key_salt_ b <> [] ->
  let ived := secure_bytes (Z.to_nat detail.iv_size) (fs b) in
  reset_encryption b
  = (raw_event ← BinlogEvent_of_raw
                   (key_record (aes_ctr_key_salt_ b) ived.1 (aes_ctr_key_ b));
     r ← do_event raw_event (set_fs ived.2 b);
     mret r.2).
Proof.
  intros Hdb Hsalt. cbv zeta. unfold reset_encryption. rewrite Hdb.
  assert ((size (aes_ctr_key_salt_ b) =? 0) = false) as ->.
  { apply Z.eqb_neq. unfold size. destruct (aes_ctr_key_salt_ b); [done |].
    simpl. lia. }
  destruct (secure_bytes (Z.to_nat detail.iv_size) (fs b)) as [iv fs2].
  binlog_simpl.
  rewrite slice_eqb_true by reflexivity.
  binlog_simpl. unfold key_record.
  destruct (BinlogEvent_of_raw _) as [raw_event | |]; [| reflexivity ..].
  binlog_simpl.
  by destruct (do_event raw_event _) as [[] | |].
Qed.

End Counters.

(** ** Reindexing *)

Section Reindexing.
Context `{Codec} `{Crypto} `{Platform} `{EventsProcessor}.

Ltac footprint_here :=
  unfold io_only, core_only in *; binlog_simpl; destruct_and?; simplify_eq;
  binlog_simpl; repeat case_match; binlog_simpl;
  repeat split; try congruence; auto.

Lemma core_only_set_fs f b : core_only b (set_fs f b).
Proof. repeat split; auto. Qed.

Lemma reset_encryption_core b b' :
  reset_encryption b = Done b' -> core_only b b'.
Proof.
  unfold reset_encryption. intros Hd.
  destruct (DbKey_is_empty (db_key_ b)).
  { injection Hd as <-. repeat split; auto. }
  destruct (size (aes_ctr_key_salt_ b) =? 0).
  - destruct (secure_bytes _ (fs b)) as [salt fs1]. binlog_simpl.
    destruct (secure_bytes _ fs1) as [iv fs2]. binlog_simpl.
    outcome_inv; subst.
    all: match goal with
         | He : do_event _ _ = Done _ |- _ =>
             apply do_event_core in He as (Hcore & _)
         end.
    all: footprint_here.
  - binlog_simpl. destruct (secure_bytes _ (fs b)) as [iv fs2]. binlog_simpl.
    outcome_inv; subst.
    all: match goal with
         | He : do_event _ _ = Done _ |- _ =>
             apply do_event_core in He as (Hcore & _)
         end.
    all: footprint_here.
Qed.

Lemma for_each_do_event_core events b visited b' :
  for_each_do_event events b = Done (visited, b') -> core_only b b'.
Proof.
  revert b visited b'.
  induction events as [| e events IH]; intros b visited b' Hd.
  - injection Hd as <- <-. apply core_only_refl.
  - simpl in Hd.
    destruct (do_event e b) as [[e' b1] | |] eqn:He; try discriminate.
    simpl in Hd.
    destruct (for_each_do_event events b1) as [[rest b2] | |] eqn:Hr;
      try discriminate.
    simpl in Hd. injection Hd as <- <-.
    apply do_event_core in He as (Hcore & _).
    eapply core_only_trans; [exact Hcore | by eapply IH].
Qed.

Lemma reindex_replay_core b b' :
  reindex_replay b = Done b' -> core_only b b'.
Proof.
  unfold reindex_replay, the_processor. intros Hd.
  destruct (processor_ b) as [p |]; binlog_simpl; [| discriminate Hd].
  destruct (for_each_do_event _ b) as [[visited b1] | |] eqn:Hfor;
    binlog_simpl; [| discriminate Hd ..].
  apply for_each_do_event_core in Hfor.
  destruct (processor_ b1); binlog_simpl; [| discriminate Hd].
  injection Hd as <-. footprint_here.
Qed.

Lemma reindex_start_result opened_file b :
  let b' := reindex_start opened_file b in
  fd_ b' = Some opened_file /\ state_ b' = state_ b /\ path_ b' = path_ b
  /\ db_key_ b' = db_key_ b /\ old_db_key_ b' = old_db_key_ b
  /\ pending_events_ b' = pending_events_ b.
Proof.
  cbv zeta.
  unfold reindex_start, update_write_encryption, reset_buffers, fd_close.
  binlog_simpl. by destruct (fd_ b).
Qed.

Lemma reindex_finish_result b b' :
  reindex_finish b = Done b' ->
  state_ b' = Run /\ fd_size_ b' = file_size (path_ b) (fs b')
  /\ fd_ b' = fd_ b /\ need_sync_ b' = need_sync_ b
  /\ buffer_writer_ b' = [] /\ buffer_reader_ b' = []
  /\ path_ b' = path_ b /\ db_key_ b' = db_key_ b
  /\ old_db_key_ b' = old_db_key_ b
  /\ pending_events_ b' = pending_events_ b.
Proof.
  unfold reindex_finish, ensure_ok, update_write_encryption, reset_buffers.
  intros Hd.
  destruct (unlink _ _) as [st1 fs1]. outcome_inv.
  destruct (rename _ _ _) as [st2 fs2]. outcome_inv. subst.
  binlog_simpl.
  match goal with Hc : (_ =? _) = true |- _ => apply Z.eqb_eq in Hc end.
  by repeat case_match.
Qed.

(** What [do_reindex] leaves behind when the new file was opened. *)
Lemma do_reindex_opened b b' opened_file fs1 :
  open_binlog (new_path b) [Flag_Write; Flag_Create; Flag_Truncate] (fs b)
  = (Ok opened_file, fs1) ->
  do_reindex b = Done b' ->
  state_ b' = Run /\ fd_ b' = Some opened_file
  /\ fd_size_ b' = file_size (path_ b) (fs b')
  /\ need_sync_ b' = false
  /\ buffer_writer_ b' = [] /\ buffer_reader_ b' = []
  /\ path_ b' = path_ b /\ db_key_ b' = db_key_ b
  /\ old_db_key_ b' = old_db_key_ b
  /\ pending_events_ b' = pending_events_ b.
Proof.
  intros Hopen. unfold do_reindex, flush_events_buffer. intros Hd.
  binlog_simpl.
  destruct (bool_decide (state_ b = Run)); cbn [CHECK] in Hd; binlog_simpl;
    [| discriminate Hd].
  unfold new_path in Hopen, Hd. binlog_simpl.
  rewrite Hopen in Hd. binlog_simpl.
  pose proof (reindex_start_result opened_file
                (set_fs fs1 (set_state_ Reindex b))) as Hstart.
  cbv zeta in Hstart. destruct Hstart as (Hfd0 & _ & Hpath0 & Hk0 & Ho0 & Hq0).
  destruct (reset_encryption _) as [b1 | |] eqn:Hreset; binlog_simpl;
    [| discriminate Hd ..].
  apply reset_encryption_core in Hreset.
  destruct (reindex_replay b1) as [b2 | |] eqn:Hreplay; binlog_simpl;
    [| discriminate Hd ..].
  apply reindex_replay_core in Hreplay.
  pose proof (core_only_trans _ _ _ Hreset Hreplay) as Hcore.
  destruct (sync _) as [b3 | |] eqn:Hsync; binlog_simpl;
    [| discriminate Hd ..].
  pose proof (sync_io _ _ Hsync) as Hio.
  assert (need_sync_ b3 = false) as Hns.
  { clear -Hsync. unfold sync, the_fd, ensure_ok in Hsync.
    destruct (flush _) as [bf | |]; [| discriminate Hsync ..].
    binlog_simpl.
    destruct (need_sync_ bf) eqn:Hbf; outcome_inv; subst; by binlog_simpl. }
  apply reindex_finish_result in Hd.
  unfold core_only in Hcore. unfold io_only in Hio. binlog_simpl.
  destruct_and?. repeat split; congruence.
Qed.

Lemma do_reindex_cannot_open_aux b :
  state_ b <> Run -> exists why, do_reindex b = Fatal why.
Proof.
  intros Hst. unfold do_reindex, flush_events_buffer.
  rewrite bool_decide_eq_false_2 by done. simpl. eauto.
Qed.

(** X15.  A reindex that cannot start changes nothing.  [do_reindex]
    stops on its CHECK outside state [Run].  In state [Run], when the new
    file cannot be opened or locked, it returns at once with the engine
    as it was (but for what the attempt did to the file system): the
    same descriptor, buffers, counters, keys and encryption, in state
    [Run]. *)
Theorem do_reindex_cannot_open (b : Binlog) :
  (state_ b <> Run -> exists why, do_reindex b = Fatal why)
  /\ (forall status fs1,
        state_ b = Run ->
        open_binlog (new_path b) [Flag_Write; Flag_Create; Flag_Truncate]
          (fs b) = (Err status, fs1) ->
        do_reindex b = Done (set_fs fs1 b)).
Proof.
  split; [apply do_reindex_cannot_open_aux |].
  intros status fs1 Hst Hopen. unfold do_reindex, flush_events_buffer.
  rewrite bool_decide_eq_true_2 by done. cbn [CHECK]. binlog_simpl.
  unfold new_path in *. binlog_simpl.
  rewrite Hopen. binlog_simpl. f_equal.
  rewrite <- Hst. by destruct b.
Qed.

(** X16.  After a reindex the engine writes to the new file and its
    size is accounted for.  When [do_reindex] has opened the new file
    and returns, the engine is in state [Run] on the new descriptor,
    [fd_size_] is the size of the file now at [path_] (the CHECK of line
    610), nothing waits to be written or synced, and the path, the keys
    given by the caller, the processor and the queue of Partial events
    are as they were. *)
Theorem do_reindex_accounts (b b' : Binlog) (opened_file : FileFd) (fs1 : FS) :
  open_binlog (new_path b) [Flag_Write; Flag_Create; Flag_Truncate] (fs b)
  = (Ok opened_file, fs1) ->
  do_reindex b = Done b' ->
  state_ b' = Run /\ fd_ b' = Some opened_file
  /\ fd_size_ b' = file_size (path_ b) (fs b')
  /\ need_sync_ b' = false
  /\ buffer_writer_ b' = [] /\ buffer_reader_ b' = []
  /\ path_ b' = path_ b /\ db_key_ b' = db_key_ b
  /\ old_db_key_ b' = old_db_key_ b
  /\ pending_events_ b' = pending_events_ b
  /\ processor_ b' = processor_ b.
Proof.
  intros Hopen Hd.
  pose proof (do_reindex_opened b b' opened_file fs1 Hopen Hd) as Hres.
  pose proof (do_reindex_processor b b' Hd) as Hp.
  destruct_and?. by repeat split.
Qed.

(** X17.  [change_key] installs the new key even when nothing is
    rewritten.  [change_key] is [do_reindex] on the engine with the new
    [db_key_] and no cached salt.  When it returns, [db_key_] is the new
    key and the processor is as it was.  When the new file cannot be
    opened it returns all the same, with the new [db_key_], the salt
    cleared, and the file, the descriptor and the encryption of the
    stream as they were. *)
Theorem change_key_installs (new_db_key : DbKey) (b : Binlog) :
  (forall b',
     change_key new_db_key b = Done b' ->
     db_key_ b' = new_db_key /\ processor_ b' = processor_ b
     /\ state_ b' = Run /\ state_ b = Run)
  /\ (forall status fs1,
        state_ b = Run ->
        open_binlog (new_path b) [Flag_Write; Flag_Create; Flag_Truncate]
          (fs b) = (Err status, fs1) ->
        change_key new_db_key b
        = Done (b |> set_db_key_ new_db_key |> set_aes_ctr_key_salt_ []
                  |> set_fs fs1)).
Proof.
  split.
  - intros b' Hd. unfold change_key in Hd.
    pose proof (do_reindex_processor _ _ Hd) as Hp. binlog_simpl.
    assert (state_ b = Run) as Hst.
    { destruct (decide (state_ b = Run)) as [| Hne]; [done |].
      destruct (do_reindex_cannot_open_aux
                  (b |> set_db_key_ new_db_key |> set_aes_ctr_key_salt_ []))
        as [why Hf]; [exact Hne |].
      rewrite Hf in Hd. discriminate Hd. }
    destruct (open_binlog
                (new_path (b |> set_db_key_ new_db_key
                             |> set_aes_ctr_key_salt_ []))
                [Flag_Write; Flag_Create; Flag_Truncate] (fs b))
      as [[opened_file | status] fs1] eqn:Hopen.
    + destruct (do_reindex_opened _ _ _ _ Hopen Hd)
        as (Hrun & _ & _ & _ & _ & _ & _ & Hkey & _).
      binlog_simpl. by repeat split.
    + unfold do_reindex, flush_events_buffer in Hd. binlog_simpl.
      rewrite bool_decide_eq_true_2 in Hd by done.
      cbn [CHECK] in Hd. binlog_simpl.
      unfold new_path in Hopen. binlog_simpl. unfold new_path in Hd.
      binlog_simpl. rewrite Hopen in Hd. binlog_simpl.
      injection Hd as <-. by repeat split.
  - intros status fs1 Hst Hopen. unfold change_key.
    unfold do_reindex, flush_events_buffer. binlog_simpl.
    rewrite bool_decide_eq_true_2 by done. cbn [CHECK]. binlog_simpl.
    unfold new_path in *. binlog_simpl. rewrite Hopen. binlog_simpl.
    f_equal. rewrite <- Hst. by destruct b.
Qed.

End Reindexing.

(** ** Loading *)

Section Loading.
Context `{Codec} `{Crypto} `{Platform} `{EventsProcessor}.

(** X18.  A log that ends where its last event ends is left alone.
    After the loop, when the offset of the processor is the size of the
    file, [load_binlog] neither seeks nor truncates and leaves
    [db_key_used_] as the load set it; it replays the live events in
    order through the callback and switches to state [Run] with empty
    buffers and no reader.  In both cases it stops on the CHECK of line
    501 when the bytes counted in [fd_size_] are not the offset of the
    processor, unless [IGNORE_ERASE_HACK] is set. *)
Theorem load_finish_clean (callback : Callback) (b : Binlog)
  (p : BinlogEventsProcessor) (fd : FileFd) :
  processor_ b = Some p ->
  fd_ b = Some fd ->
  processor_offset p = FileFd_get_size fd (fs b) ->
  (IGNORE_ERASE_HACK b || (fd_size_ b =? processor_offset p) = true ->
   exists b',
     load_finish callback b = Done (Status_OK, b')
     /\ fs b' = fs b
     /\ db_key_used_ b' = db_key_used_ b
     /\ callback_calls b'
        = callback_calls b
          ++ match callback with
             | Callback_set => processor_events p
             | Callback_empty => []
             end
     /\ state_ b' = Run /\ binlog_reader_ptr_ b' = None
     /\ buffer_writer_ b' = [] /\ buffer_reader_ b' = []
     /\ processor_ b' = Some p
     /\ pending_events_ b' = pending_events_ b)
  /\ (IGNORE_ERASE_HACK b || (fd_size_ b =? processor_offset p) = false ->
      exists why, load_finish callback b = Fatal why).
Proof.
  intros Hp Hfd Hoff.
  unfold load_finish, the_processor, the_fd.
  rewrite Hp. binlog_simpl. rewrite Hfd. binlog_simpl.
  rewrite <- Hoff, Z.eqb_refl. cbn [negb]. binlog_simpl.
  split; intros Hcheck; rewrite Hcheck; cbn [CHECK]; binlog_simpl;
    [| eauto].
  eexists. split; [reflexivity |].
  rewrite foldl_call.
  unfold switch_to_run, update_write_encryption, reset_buffers.
  binlog_simpl.
  destruct (encryption_type_ b) eqn:He; binlog_simpl; rewrite ?He;
    binlog_simpl; by repeat split.
Qed.

Lemma do_add_event_core event b b' :
  do_add_event event b = Done b' ->
  state_ b' = state_ b /\ callback_calls b' = callback_calls b
  /\ debug_callback_calls b' = debug_callback_calls b
  /\ fd_ b' = fd_ b /\ path_ b' = path_ b
  /\ db_key_ b' = db_key_ b /\ old_db_key_ b' = old_db_key_ b.
Proof.
  unfold do_add_event. intros Hd.
  destruct (has_flag _ _).
  { injection Hd as <-. by repeat split. }
  destruct (do_events _ b) as [b1 | |] eqn:Hq; [| discriminate Hd ..].
  binlog_simpl.
  destruct (do_event event _) as [[e b2] | |] eqn:He; [| discriminate Hd ..].
  binlog_simpl. injection Hd as <-.
  apply do_events_core in Hq. apply do_event_core in He as (He & _).
  unfold core_only in *. binlog_simpl. destruct_and?.
  repeat split; congruence.
Qed.

(** What every turn of the loop keeps. *)
Definition loop_keeps (b b' : Binlog) : Prop :=
  state_ b' = state_ b /\ callback_calls b' = callback_calls b
  /\ fd_ b' = fd_ b /\ path_ b' = path_ b
  /\ db_key_ b' = db_key_ b /\ old_db_key_ b' = old_db_key_ b.

Lemma load_iteration_keeps debug_callback ready_flag b step :
  load_iteration debug_callback ready_flag b = Done step ->
  match step with
  | Continue _ b' | Break b' | Return _ b' => loop_keeps b b'
  end.
Proof.
  intros Hit.
  destruct (load_iteration_reads _ _ _ _ Hit) as (r & event & b1 & Hread).
  rewrite (load_iteration_turn _ _ _ _ _ _ Hread) in Hit.
  assert (loop_keeps b b1) as Hb1.
  { clear Hit. unfold reader_read_next, reader_input, set_reader_input in Hread.
    destruct (binlog_reader_ptr_ b) as [reader |]; [| discriminate Hread].
    destruct (detail.input_ reader); binlog_simpl;
      try discriminate Hread; by injection Hread as <- <- <-. }
  unfold loop_keeps in *.
  destruct (turn_of r event) as [need_size | e |].
  - destruct ready_flag; [by injection Hit as <- |].
    destruct (fd_flush_read _ b1) as [[status b2] | |] eqn:Hfr;
      binlog_simpl; [| discriminate Hit ..].
    apply fd_flush_read_io in Hfr. unfold io_only in Hfr.
    destruct (is_error status).
    + injection Hit as <-. destruct_and?. repeat split; congruence.
    + unfold propagate in Hit.
      destruct (byte_flow_flag_ (sync_with_writer b2)).
      * destruct (byte_flow_source_wakeup _) as [b3 | |] eqn:Hw;
          binlog_simpl; [| discriminate Hit ..].
        injection Hit as <-. apply wakeup_io in Hw. unfold io_only in Hw.
        unfold sync_with_writer in Hw. binlog_simpl.
        destruct_and?. repeat split; congruence.
      * binlog_simpl. injection Hit as <-. unfold sync_with_writer.
        binlog_simpl. destruct_and?. repeat split; congruence.
  - destruct (_ && _).
    + by injection Hit as <-.
    + destruct (do_add_event _ _) as [b2 | |] eqn:Ha; binlog_simpl;
        [| discriminate Hit ..].
      apply do_add_event_core in Ha. binlog_simpl.
      destruct (wrong_password (info_ b2)); injection Hit as <-;
        destruct_and?; repeat split; congruence.
  - by injection Hit as <-.
Qed.

Lemma load_loop_keeps fuel debug_callback ready_flag b exit :
  load_loop fuel debug_callback ready_flag b = Done exit ->
  match exit with Broken b' | Returned _ b' => loop_keeps b b' end.
Proof.
  revert ready_flag b.
  induction fuel as [| fuel IH]; intros ready_flag b Hloop;
    [discriminate Hloop |].
  simpl in Hloop.
  destruct (load_iteration debug_callback ready_flag b) as [step | |] eqn:Hit;
    [| discriminate Hloop ..].
  simpl in Hloop. apply load_iteration_keeps in Hit.
  destruct step as [ready_flag' b1 | b1 | status b1].
  - apply IH in Hloop. unfold loop_keeps in *.
    destruct exit; destruct_and?; repeat split; congruence.
  - by injection Hloop as <-.
  - by injection Hloop as <-.
Qed.

Lemma load_iteration_returns debug_callback ready_flag b status b' :
  load_iteration debug_callback ready_flag b = Done (Return status b') ->
  (status = Status_OK /\ wrong_password (info_ b') = true)
  \/ is_error status = true.
Proof.
  intros Hit.
  destruct (load_iteration_reads _ _ _ _ Hit) as (r & event & b1 & Hread).
  rewrite (load_iteration_turn _ _ _ _ _ _ Hread) in Hit.
  destruct (turn_of r event) as [need_size | e |].
  - destruct ready_flag; [discriminate Hit |].
    destruct (fd_flush_read _ b1) as [[st b2] | |];
      binlog_simpl; [| discriminate Hit ..].
    destruct (is_error st) eqn:Herr.
    + injection Hit as <- <-. by right.
    + destruct (propagate b2); binlog_simpl; discriminate Hit.
  - destruct (_ && _); [discriminate Hit |].
    destruct (do_add_event _ _) as [b2 | |]; binlog_simpl;
      [| discriminate Hit ..].
    destruct (wrong_password (info_ b2)) eqn:Hwp; [| discriminate Hit].
    injection Hit as <- <-. by left.
  - discriminate Hit.
Qed.

Lemma load_loop_returns fuel debug_callback ready_flag b status b' :
  load_loop fuel debug_callback ready_flag b = Done (Returned status b') ->
  (status = Status_OK /\ wrong_password (info_ b') = true)
  \/ is_error status = true.
Proof.
  revert ready_flag b.
  induction fuel as [| fuel IH]; intros ready_flag b Hloop;
    [discriminate Hloop |].
  simpl in Hloop.
  destruct (load_iteration debug_callback ready_flag b) as [step | |] eqn:Hit;
    [| discriminate Hloop ..].
  simpl in Hloop.
  destruct step as [ready_flag' b1 | b1 | st b1].
  - by eapply IH.
  - discriminate Hloop.
  - injection Hloop as -> ->. by eapply load_iteration_returns.
Qed.

(** X19.  An early return replays nothing.  When the loop of
    [load_binlog] returns (with OK on a wrong password, with its error
    when the file cannot be read), [load_binlog] returns that status at
    once: the callback has not been called, neither before nor after the
    loop, nothing is truncated after the loop, and the engine is left in
    state [Load] on the same descriptor and path. *)
Theorem load_early_return (fuel : nat) (callback debug_callback : Callback)
  (b0 b1 : Binlog) (status : Status) (b : Binlog) :
  load_start b0 = Done b1 ->
  load_loop fuel debug_callback false b1 = Done (Returned status b) ->
  load_binlog fuel callback debug_callback b0 = Done (status, b)
  /\ callback_calls b = callback_calls b0
  /\ state_ b = Load
  /\ fd_ b = fd_ b0 /\ path_ b = path_ b0
  /\ ((status = Status_OK /\ wrong_password (info_ b) = true)
      \/ is_error status = true).
Proof.
  intros Hstart Hloop.
  split; [by eapply load_binlog_returned |].
  pose proof (load_loop_keeps _ _ _ _ _ Hloop) as Hkeeps.
  unfold loop_keeps in Hkeeps.
  unfold load_start, update_read_encryption, reset_buffers in Hstart.
  binlog_simpl.
  assert (state_ b1 = Load /\ callback_calls b1 = callback_calls b0
          /\ fd_ b1 = fd_ b0 /\ path_ b1 = path_ b0) as Hb1.
  { destruct (encryption_type_ b0); injection Hstart as <-; by binlog_simpl. }
  pose proof (load_loop_returns _ _ _ _ _ _ Hloop) as Hwhy.
  destruct_and?. repeat split; congruence || exact Hwhy.
Qed.

End Loading.

(** ** Opening *)

Section Opening.
Context `{Codec} `{Crypto} `{Platform} `{EventsProcessor}.

Lemma init_start_result path db_key old_db_key b status b1 :
  init_start path db_key old_db_key b = Done (status, b1) ->
  db_key_ b1 = db_key /\ is_opened (info_ b1) = false
  /\ (is_error status = true -> fd_ b1 = None).
Proof.
  unfold init_start. intros Hd.
  destruct (close true b) as [[st bc] | |] eqn:Hclose; [| discriminate Hd ..].
  apply close_result in Hclose as (_ & Hfd & _). binlog_simpl.
  destruct (stat path (fs bc)); binlog_simpl.
  all: match type of Hd with context [open_binlog ?p ?fl ?f] =>
         destruct (open_binlog p fl f) as [[fd | st1] fs1] end.
  all: injection Hd as <- <-; by binlog_simpl.
Qed.

Lemma load_finish_result callback b status b' :
  load_finish callback b = Done (status, b') ->
  status = Status_OK /\ state_ b' = Run /\ fd_ b' = fd_ b /\ fd_ b <> None
  /\ db_key_ b' = db_key_ b /\ info_ b' = info_ b.
Proof.
  unfold load_finish, the_processor, the_fd, ensure_ok. intros Hd.
  destruct (processor_ b) as [p |]; [| discriminate Hd]. binlog_simpl.
  destruct (fd_ b) as [fd |] eqn:Hfd; [| discriminate Hd]. binlog_simpl.
  match type of Hd with (?m ≫= _) = _ =>
    destruct m as [b1 | |] eqn:Htr; [| discriminate Hd ..] end.
  binlog_simpl.
  destruct (_ || _); [| discriminate Hd]. cbn [CHECK] in Hd. binlog_simpl.
  injection Hd as <- <-.
  assert (fd_ b1 = Some fd /\ db_key_ b1 = db_key_ b /\ info_ b1 = info_ b)
    as (Hfd1 & Hk1 & Hi1).
  { destruct (negb _); [| by injection Htr as <-].
    destruct (FileFd_seek _ _ _) as [st1 fs1].
    destruct (is_error st1); [discriminate Htr |].
    cbn [negb CHECK] in Htr. binlog_simpl.
    destruct (FileFd_truncate_to_current_position _ _ _) as [st2 fs2].
    destruct (is_error st2); [discriminate Htr |].
    cbn [negb CHECK] in Htr. binlog_simpl. by injection Htr as <-. }
  unfold switch_to_run, update_write_encryption, reset_buffers.
  binlog_simpl.
  destruct (encryption_type_ b1) eqn:He; binlog_simpl; rewrite ?He;
    binlog_simpl; by repeat split.
Qed.

Lemma do_add_event_opened event b b' :
  do_add_event event b = Done b' ->
  is_opened (info_ b') = is_opened (info_ b).
Proof.
  unfold do_add_event. intros Ha.
  destruct (has_flag _ _); [by injection Ha as <- |].
  destruct (do_events _ _) as [b3 | |] eqn:Hq; [| discriminate Ha ..].
  binlog_simpl.
  destruct (do_event _ _) as [[e' b4] | |] eqn:He; [| discriminate Ha ..].
  binlog_simpl. injection Ha as <-.
  apply do_events_core in Hq. apply do_event_core in He as (He & _).
  unfold core_only in *. binlog_simpl. destruct_and?.
  repeat match goal with
         | Hi : _ \/ _ |- _ => destruct Hi as [Hi | Hi]; rewrite Hi
         end; by binlog_simpl.
Qed.

Lemma load_loop_info fuel debug_callback ready_flag b exit :
  load_loop fuel debug_callback ready_flag b = Done exit ->
  match exit with
  | Broken b' | Returned _ b' => is_opened (info_ b') = is_opened (info_ b)
  end.
Proof.
  revert ready_flag b.
  induction fuel as [| fuel IH]; intros ready_flag b Hloop;
    [discriminate Hloop |].
  simpl in Hloop.
  destruct (load_iteration debug_callback ready_flag b) as [step | |] eqn:Hit;
    [| discriminate Hloop ..].
  simpl in Hloop.
  assert (match step with
          | Continue _ b' | Break b' | Return _ b' =>
              is_opened (info_ b') = is_opened (info_ b)
          end) as Hstep.
  { clear Hloop IH.
    destruct (load_iteration_reads _ _ _ _ Hit) as (r & event & b1 & Hread).
    rewrite (load_iteration_turn _ _ _ _ _ _ Hread) in Hit.
    apply reader_read_next_keeps in Hread as (_ & _ & _ & Hinfo & _).
    rewrite <- Hinfo.
    destruct (turn_of r event) as [need_size | e |].
    - destruct ready_flag; [by injection Hit as <- |].
      destruct (fd_flush_read _ b1) as [[status b2] | |] eqn:Hfr;
        binlog_simpl; [| discriminate Hit ..].
      apply fd_flush_read_io in Hfr as (_ & _ & Hi2 & _).
      destruct (is_error status).
      + injection Hit as <-. by rewrite Hi2.
      + unfold propagate in Hit.
        destruct (byte_flow_flag_ (sync_with_writer b2)).
        * destruct (byte_flow_source_wakeup _) as [b3 | |] eqn:Hw;
            binlog_simpl; [| discriminate Hit ..].
          injection Hit as <-. apply wakeup_io in Hw as (_ & _ & Hi3 & _).
          rewrite Hi3. unfold sync_with_writer. binlog_simpl. by rewrite Hi2.
        * binlog_simpl. injection Hit as <-. unfold sync_with_writer.
          binlog_simpl. by rewrite Hi2.
    - destruct (_ && _); [by injection Hit as <- |].
      destruct (do_add_event _ _) as [b2 | |] eqn:Ha; binlog_simpl;
        [| discriminate Hit ..].
      apply do_add_event_opened in Ha. binlog_simpl.
      destruct (wrong_password (info_ b2)); by injection Hit as <-.
    - by injection Hit as <-. }
  destruct step as [ready_flag' b1 | b1 | status b1].
  - apply IH in Hloop. destruct exit; congruence.
  - by injection Hloop as <-.
  - by injection Hloop as <-.
Qed.

Lemma load_binlog_result fuel callback debug_callback b1 status b2 :
  load_binlog fuel callback debug_callback b1 = Done (status, b2) ->
  db_key_ b2 = db_key_ b1
  /\ is_opened (info_ b2) = is_opened (info_ b1)
  /\ (is_error status = false -> wrong_password (info_ b2) = false ->
      state_ b2 = Run /\ fd_ b2 <> None).
Proof.
  unfold load_binlog. intros Hd.
  destruct (load_start b1) as [s | |] eqn:Hstart; [| discriminate Hd ..].
  binlog_simpl.
  assert (db_key_ s = db_key_ b1 /\ is_opened (info_ s) = is_opened (info_ b1))
    as [Hk0 Hi0].
  { clear Hd. unfold load_start, update_read_encryption, reset_buffers in Hstart.
    binlog_simpl.
    destruct (encryption_type_ b1); injection Hstart as <-; by binlog_simpl. }
  destruct (load_loop _ _ _ s) as [exit | |] eqn:Hloop; [| discriminate Hd ..].
  binlog_simpl.
  pose proof (load_loop_keeps _ _ _ _ _ Hloop) as Hkeeps.
  pose proof (load_loop_info _ _ _ _ _ Hloop) as Hinfo.
  destruct exit as [b | st b].
  - apply load_finish_result in Hd as (-> & Hrun & Hfd & Hsome & Hk & Hi).
    unfold loop_keeps in Hkeeps. destruct_and?.
    repeat split; congruence.
  - injection Hd as <- <-.
    apply load_loop_returns in Hloop.
    unfold loop_keeps in Hkeeps. destruct_and?.
    split; [congruence |]. split; [congruence |].
    intros Herr Hwp. destruct Hloop as [[_ Hwp'] | Herr']; congruence.
Qed.

Lemma do_reindex_result b b' :
  do_reindex b = Done b' ->
  state_ b' = Run /\ (fd_ b <> None -> fd_ b' <> None)
  /\ db_key_ b' = db_key_ b /\ last_id_ b' = last_id_ b
  /\ last_id (info_ b') = last_id (info_ b)
  /\ pending_events_ b' = pending_events_ b.
Proof.
  unfold do_reindex, flush_events_buffer. intros Hd.
  binlog_simpl.
  destruct (bool_decide (state_ b = Run)); cbn [CHECK] in Hd; binlog_simpl;
    [| discriminate Hd].
  destruct (open_binlog _ _ _) as [[opened_file | status] fs1]; binlog_simpl.
  2: { injection Hd as <-. by binlog_simpl. }
  assert (let s := reindex_start opened_file (set_fs fs1 (set_state_ Reindex b))
          in fd_ s = Some opened_file /\ db_key_ s = db_key_ b
             /\ last_id_ s = last_id_ b /\ info_ s = info_ b
             /\ pending_events_ s = pending_events_ b) as Hstart.
  { cbv zeta.
    unfold reindex_start, update_write_encryption, reset_buffers, fd_close.
    binlog_simpl. by destruct (fd_ b). }
  cbv zeta in Hstart. destruct Hstart as (Hfd0 & Hk0 & Hl0 & Hi0 & Hq0).
  destruct (reset_encryption _) as [b1 | |] eqn:Hreset; binlog_simpl;
    [| discriminate Hd ..].
  apply reset_encryption_core in Hreset.
  destruct (reindex_replay b1) as [b2 | |] eqn:Hreplay; binlog_simpl;
    [| discriminate Hd ..].
  apply reindex_replay_core in Hreplay.
  pose proof (core_only_trans _ _ _ Hreset Hreplay) as Hcore.
  destruct (sync _) as [b3 | |] eqn:Hsync; binlog_simpl;
    [| discriminate Hd ..].
  apply sync_io in Hsync.
  assert (state_ b' = Run /\ fd_ b' = fd_ b3 /\ db_key_ b' = db_key_ b3
          /\ last_id_ b' = last_id_ b3 /\ info_ b' = info_ b3
          /\ pending_events_ b' = pending_events_ b3) as Hfin.
  { clear -Hd.
    unfold reindex_finish, ensure_ok, update_write_encryption, reset_buffers
      in Hd.
    destruct (unlink _ _) as [st1 fs2]. outcome_inv.
    destruct (rename _ _ _) as [st2 fs3]. outcome_inv. subst.
    binlog_simpl. by repeat case_match. }
  unfold core_only in Hcore. unfold io_only in Hsync. binlog_simpl.
  destruct_and?.
  assert (last_id (info_ b2) = last_id (info_ b)) as Hlast.
  { match goal with
    | Hi : info_ b2 = _ \/ info_ b2 = _ |- _ =>
        destruct Hi as [Hi | Hi]; rewrite Hi, ?Hi0; by binlog_simpl
    end. }
  repeat split; try congruence.
Qed.

(** X20.  [init] ends open or closed.  When [init] returns an error (the
    file could not be opened or locked, it could not be read, or the
    password is wrong), the engine holds no descriptor and is not marked
    open.  When it returns without error, the status is OK, the engine
    is marked open, in state [Run], holds a descriptor, and [info_.last_id]
    is [last_id_].  In both cases [db_key_] is the key given. *)
Theorem init_opens_or_closes (fuel : nat) (path : string)
  (callback : Callback) (db_key old_db_key : DbKey)
  (debug_callback : Callback) (b : Binlog) (status : Status) (b' : Binlog) :
  init fuel path callback db_key old_db_key debug_callback b
  = Done (status, b') ->
  db_key_ b' = db_key
  /\ (is_error status = true ->
      fd_ b' = None /\ is_opened (info_ b') = false)
  /\ (is_error status = false ->
      status = Status_OK /\ is_opened (info_ b') = true
      /\ state_ b' = Run /\ fd_ b' <> None
      /\ last_id (info_ b') = last_id_ b').
Proof.
  unfold init. intros Hd.
  destruct (init_start _ _ _ b) as [[st1 b1] | |] eqn:Hstart;
    [| discriminate Hd ..].
  apply init_start_result in Hstart as (Hk1 & Ho1 & Hfd1). binlog_simpl.
  destruct (is_error st1) eqn:Herr1.
  { injection Hd as <- <-. rewrite Herr1. split; [done |].
    split; [auto | done]. }
  destruct (load_binlog _ _ _ b1) as [[st2 b2] | |] eqn:Hload;
    [| discriminate Hd ..].
  apply load_binlog_result in Hload as (Hk2 & Ho2 & Hrun2). binlog_simpl.
  destruct (is_error st2) eqn:Herr2.
  { destruct (close true b2) as [[st3 b3] | |] eqn:Hclose;
      [| discriminate Hd ..].
    binlog_simpl. injection Hd as <- <-. rewrite Herr2.
    apply close_result in Hclose as (_ & Hfd3 & Hsame & Hopen & _ & Hk3 & _).
    split; [congruence |]. split; [| done]. intros _. split; [done |].
    destruct (fd_ b2) eqn:Hfd2.
    - by apply Hopen.
    - rewrite Hsame by done. congruence. }
  unfold init_finish, the_processor in Hd.
  destruct (processor_ b2) as [p |]; [| discriminate Hd]. binlog_simpl.
  destruct (wrong_password (info_ b2)) eqn:Hwp.
  { destruct (close true _) as [[st3 b3] | |] eqn:Hclose;
      [| discriminate Hd ..].
    binlog_simpl. injection Hd as <- <-.
    apply close_result in Hclose as (_ & Hfd3 & Hsame & Hopen & _ & Hk3 & _).
    binlog_simpl.
    split; [congruence |]. split; [| done]. intros _. split; [done |].
    destruct (fd_ b2) eqn:Hfd2.
    - by apply Hopen.
    - rewrite Hsame by done. binlog_simpl. congruence. }
  destruct (Hrun2 eq_refl eq_refl) as [Hst2 Hfd2].
  match type of Hd with (?m ≫= _) = _ =>
    destruct m as [b3 | |] eqn:Hre; [| discriminate Hd ..] end.
  binlog_simpl. injection Hd as <- <-. binlog_simpl.
  split; [| split; [done |]].
  - destruct (init_needs_reindex _).
    + apply do_reindex_result in Hre as (_ & _ & Hk3 & _). binlog_simpl.
      congruence.
    + injection Hre as <-. binlog_simpl. congruence.
  - intros _. split; [done |]. split; [done |].
    destruct (init_needs_reindex _).
    + apply do_reindex_result in Hre as (Hst3 & Hfd3 & _ & Hl3 & Hi3 & _).
      binlog_simpl. repeat split; [done | by apply Hfd3 | congruence].
    + injection Hre as <-. by binlog_simpl.
Qed.

Lemma close_state need_sync b status b' :
  close need_sync b = Done (status, b') -> state_ b' = state_ b.
Proof.
  unfold close, fd_close. intros Hd.
  destruct (fd_ b) as [fd |] eqn:Hfd; [| by injection Hd as <- <-].
  match type of Hd with (?m ≫= _) = _ =>
    destruct m as [b1 | |] eqn:Hflush; [| discriminate Hd ..] end.
  cbn [mbind mret Outcome_bind Outcome_ret] in Hd. injection Hd as <- <-.
  assert (io_only b b1) as (Hst & _ & _ & _ & _ & _ & _ & _ & _ & _ & _ & _
                            & _ & _ & Hfd1 & _).
  { destruct need_sync; [by apply sync_io | by apply flush_io]. }
  binlog_simpl. rewrite Hfd1, Hfd. binlog_simpl. exact Hst.
Qed.

Lemma init_finish_state b status b' :
  state_ b = Run -> init_finish b = Done (status, b') -> state_ b' = Run.
Proof.
  intros Hrun Hinit. unfold init_finish, the_processor in Hinit.
  destruct (processor_ b) as [p |]; [| discriminate Hinit]. binlog_simpl.
  destruct (wrong_password (info_ b)).
  - destruct (close true _) as [[st3 b3] | |] eqn:Hclose;
      [| discriminate Hinit ..].
    binlog_simpl. injection Hinit as <- <-.
    apply close_state in Hclose. by rewrite Hclose.
  - match type of Hinit with (?m ≫= _) = _ =>
      destruct m as [b3 | |] eqn:Hre; [| discriminate Hinit ..] end.
    binlog_simpl. injection Hinit as <- <-. binlog_simpl.
    destruct (init_needs_reindex _).
    + by apply do_reindex_result in Hre as (Hst3 & _).
    + by injection Hre as <-.
Qed.

(** X23.  Partial events that wait when the load ends keep waiting.
    Neither the end of [load_binlog] nor the end of [init] touches
    [pending_events_]: Partial events decoded before the end of the file
    (or before the offending record of a torn tail, which is cut off)
    stay queued, whether [init] closes, reindexes or just opens, and the
    first event without the Partial flag added afterwards hands them to
    the processor, in the order of the queue, before itself. *)
Theorem pending_events_survive_load (callback : Callback) (b : Binlog)
  (status : Status) (b1 : Binlog) (status' : Status) (b2 : Binlog) :
  load_finish callback b = Done (status, b1) ->
  init_finish b1 = Done (status', b2) ->
  pending_events_ b1 = pending_events_ b
  /\ pending_events_ b2 = pending_events_ b
  /\ forall event p b3,
       has_flag (flags_ event) Flags_Partial = false ->
       processor_ b2 = Some p ->
       do_add_event event b2 = Done b3 ->
       exists p',
         processor_add_events (pending_events_ b ++ [event]) p = Done p'
         /\ processor_ b3 = Some p'
         /\ pending_events_ b3 = [].
Proof.
  intros Hload Hinit.
  assert (pending_events_ b1 = pending_events_ b) as Hq1.
  { clear Hinit. unfold load_finish, the_processor, the_fd, ensure_ok in Hload.
    destruct (processor_ b) as [p |]; [| discriminate Hload]. binlog_simpl.
    destruct (fd_ b) as [fd |]; [| discriminate Hload]. binlog_simpl.
    match type of Hload with (?m ≫= _) = _ =>
      destruct m as [b0 | |] eqn:Htr; [| discriminate Hload ..] end.
    binlog_simpl.
    destruct (_ || _); [| discriminate Hload]. cbn [CHECK] in Hload.
    binlog_simpl. injection Hload as <- <-.
    pose proof (switch_to_run_keeps b0) as Hkeeps. destruct_and?.
    assert (pending_events_ b0 = pending_events_ b) as Hq0.
    { destruct (negb _); [| by injection Htr as <-].
      destruct (FileFd_seek _ _ _) as [st1 fs1].
      destruct (is_error st1); [discriminate Htr |].
      cbn [negb CHECK] in Htr. binlog_simpl.
      destruct (FileFd_truncate_to_current_position _ _ _) as [st2 fs2].
      destruct (is_error st2); [discriminate Htr |].
      cbn [negb CHECK] in Htr. binlog_simpl. by injection Htr as <-. }
    congruence. }
  assert (pending_events_ b2 = pending_events_ b1) as Hq2.
  { clear Hload. unfold init_finish, the_processor in Hinit.
    destruct (processor_ b1) as [p |]; [| discriminate Hinit]. binlog_simpl.
    destruct (wrong_password (info_ b1)).
    - destruct (close true _) as [[st3 b3] | |] eqn:Hclose;
        [| discriminate Hinit ..].
      binlog_simpl. injection Hinit as <- <-.
      apply close_result in Hclose as (_ & _ & _ & _ & Hq & _).
      by rewrite Hq.
    - match type of Hinit with (?m ≫= _) = _ =>
        destruct m as [b3 | |] eqn:Hre; [| discriminate Hinit ..] end.
      binlog_simpl. injection Hinit as <- <-. binlog_simpl.
      destruct (init_needs_reindex _).
      + apply do_reindex_result in Hre as (_ & _ & _ & _ & _ & Hq).
        by rewrite Hq.
      + by injection Hre as <-. }
  split; [exact Hq1 |]. split; [congruence |].
  intros event p b3 Hflag Hproc Hadd.
  apply load_finish_result in Hload as (_ & Hrun & _).
  pose proof (init_finish_state _ _ _ Hrun Hinit) as Hrun2.
  destruct (do_add_event_feeds event b2 b3 p) as (p' & Hfed & Hp' & Hq3 & _);
    [done | by rewrite Hrun2 | done | done |].
  exists p'. rewrite <- Hq1, <- Hq2. by repeat split.
Qed.

End Opening.

Section PlainEvents.
Context `{Codec} `{Crypto} `{Platform} `{EventsProcessor}.

(** X21.  Where an event goes.  For an event that is no key record, on
    an engine whose processor takes it: in state [Load] [do_event] moves
    the counters and gives the event to the processor, and appends
    nothing to the write buffer (the bytes are in the file already); in
    state [Run] it also appends the raw bytes of the event to
    [buffer_writer_], whatever the encryption of the stream.  In both
    states the caller gets back what the processor left of the event. *)
Theorem do_event_plain (event : BinlogEvent) (b : Binlog)
  (p : BinlogEventsProcessor) (event' : BinlogEvent)
  (p' : BinlogEventsProcessor) :
  is_key_record event = false ->
  processor_ b = Some p ->
  processor_add_event event p = Done (event', p') ->
  (state_ b = Load ->
   do_event event b
   = Done (event',
           b |> set_fd_events_ (wrap_uint64 (fd_events_ b + 1))
             |> set_fd_size_ (wrap_int64 (fd_size_ b + size (raw_event_ event)))
             |> set_processor_ (Some p')))
  /\ (state_ b = Run ->
      do_event event b
      = Done (event', set_processor_ (Some p') (write_event b event))
      /\ buffer_writer_ (write_event b event)
         = buffer_writer_ b ++ raw_event_ event).
Proof.
  intros Hkey Hp Hadd. unfold is_key_record in Hkey.
  split; intros Hst; [| split; [| reflexivity]].
  - unfold do_event, the_processor. binlog_simpl. rewrite Hst, Hkey.
    binlog_simpl. rewrite Hst. rewrite decide_False by done.
    rewrite Hp. binlog_simpl. rewrite Hadd. reflexivity.
  - unfold do_event, the_processor, write_event, buffer_writer_append.
    binlog_simpl. rewrite Hst, Hkey.
    destruct (encryption_type_ b); binlog_simpl; rewrite Hst;
      rewrite decide_False by done; rewrite Hp; binlog_simpl;
      rewrite Hadd; reflexivity.
Qed.

End PlainEvents.

(** ** Timestamps *)

Lemma SFabs_binary_round_aux prec emax mx ex lx :
  SFabs (binary_round_aux prec emax true mx ex lx)
  = SFabs (binary_round_aux prec emax false mx ex lx).
Proof.
  unfold binary_round_aux.
  destruct (shr_fexp prec emax mx ex lx) as [mrs' e'].
  destruct (shr_fexp prec emax _ e' loc_Exact) as [mrs'' e''].
  destruct (shr_m mrs''); [reflexivity | | reflexivity].
  destruct (e'' <=? emax - prec); reflexivity.
Qed.

Lemma SFabs_binary_normalize prec emax m e :
  SFabs (binary_normalize prec emax (- m) e false)
  = SFabs (binary_normalize prec emax m e false).
Proof.
  destruct m as [| p | p]; simpl; [reflexivity | |].
  - unfold binary_round. destruct (shl_align _ _ _).
    apply SFabs_binary_round_aux.
  - unfold binary_round. destruct (shl_align _ _ _).
    symmetry. apply SFabs_binary_round_aux.
Qed.

(** The distance of two binary64 numbers does not depend on their
    order. *)
Lemma SFabs_SFsub_comm prec emax x y :
  SFabs (SFsub prec emax x y) = SFabs (SFsub prec emax y x).
Proof.
  destruct x as [sx | sx | | sx mx ex], y as [sy | sy | | sy my ey];
    try (destruct sx; reflexivity); try (destruct sy; reflexivity);
    try (destruct sx, sy; reflexivity); try reflexivity.
  unfold SFsub. rewrite (Z.min_comm ey ex).
  rewrite <- SFabs_binary_normalize. f_equal. f_equal. lia.
Qed.

Lemma SFsub_self prec emax x :
  SFsub prec emax x x
  = match x with
    | S754_zero _ | S754_finite _ _ _ => S754_zero false
    | S754_infinity _ | S754_nan => S754_nan
    end.
Proof.
  destruct x as [s | s | | s m e]; try (destruct s; reflexivity);
    [reflexivity |].
  unfold SFsub. rewrite Z.sub_diag. reflexivity.
Qed.

(** X22.  Equality of timestamps is a tolerance, not an equivalence.
    [operator==] holds for two instants less than a microsecond apart.
    It is symmetric.  It is reflexive exactly on the instants that are
    numbers: a timestamp at NaN or at an infinity is not equal to itself,
    the difference being NaN.  It is not transitive: it relates 0 to
    0.9e-6 and 0.9e-6 to 1.8e-6 but not 0 to 1.8e-6. *)
Theorem Timestamp_eq_tolerance :
  (forall a b, Timestamp_eq a b = Timestamp_eq b a)
  /\ (forall a, Timestamp_eq a a = Timestamp_is_finite a)
  /\ Timestamp_eq (mkTimestamp infinity) (mkTimestamp infinity) = false
  /\ ~ (forall a b c,
          Timestamp_eq a b = true -> Timestamp_eq b c = true ->
          Timestamp_eq a c = true).
Proof.
  split; [| split; [| split; [reflexivity |]]].
  - intros a b. unfold Timestamp_eq. f_equal.
    apply Prim2SF_inj. rewrite !abs_spec, !sub_spec.
    apply SFabs_SFsub_comm.
  - intros a. unfold Timestamp_eq, Timestamp_is_finite.
    rewrite ltb_spec, abs_spec, sub_spec.
    unfold SF64sub. rewrite SFsub_self.
    destruct (Prim2SF (at_ a)); reflexivity.
  - intros Htrans.
    specialize (Htrans (mkTimestamp 0) (mkTimestamp 0x1.e32f0ee144531p-21)
                  (mkTimestamp 0x1.e32f0ee144531p-20) eq_refl eq_refl).
    discriminate Htrans.
Qed.
(** ** The writer after a key record *)

Section KeyRecordWritten.
Context `{Codec} `{Crypto} `{Platform} `{EventsProcessor}.

Lemma bind_Done_l {A B} (x : A) (f : A -> Outcome B) : Done x ≫= f = f x.
Proof. reflexivity. Qed.

Lemma update_encryption_fits key iv b :
  size key <= size (aes_ctr_key_ b) ->
  size iv <= detail.iv_size ->
  update_encryption key iv b
  = Done (b |> set_aes_ctr_key_ (key ++ drop (length key) (aes_ctr_key_ b))
            |> set_aes_ctr_state_
                 (Some
                    (AesCtrState_init
                       (key ++ drop (length key) (aes_ctr_key_ b))
                       (iv ++ drop (length iv) (replicate 16 x00))))).
Proof.
  intros Hkey Hiv. unfold update_encryption, copy_from.
  destruct (Z.leb_spec (size key) (size (aes_ctr_key_ b))); [| lia].
  destruct (Z.leb_spec (size iv) (size (replicate 16 x00)));
    [reflexivity |].
  unfold size in *. rewrite length_replicate in *.
  unfold detail.iv_size in Hiv. lia.
Qed.

(** Lines 318-346 in state [Reindex] for a key that passes the check. *)
Lemma do_event_encryption_reindex event b key :
  state_ b = Reindex ->
  candidate_key (detail.parse (data_ event)) b = Done key ->
  detail.generate_hash key = detail.key_hash_ (detail.parse (data_ event)) ->
  size key <= size (aes_ctr_key_ b) ->
  size (detail.iv_ (detail.parse (data_ event))) <= detail.iv_size ->
  do_event_encryption event b
  = (b1 ← update_encryption key (detail.iv_ (detail.parse (data_ event)))
            (b |> set_db_key_used_ true
               |> set_encryption_type_ EncryptionType_AesCtr
               |> set_aes_ctr_key_salt_
                    (detail.key_salt_ (detail.parse (data_ event))));
     b2 ← flush b1;
     mret (update_write_encryption b2)).
Proof.
  intros Hst Hcand Hhash Hksize Hiv.
  unfold do_event_encryption. unfold candidate_key in Hcand.
  rewrite Hcand. cbn [mbind Outcome_bind].
  rewrite (slice_eqb_true _ _ Hhash). cbn [negb mbind mret Outcome_bind
                                            Outcome_ret].
  destruct (update_encryption _ _ _) as [b1 | |] eqn:Hu; [| reflexivity ..].
  apply update_encryption_state in Hu. cbn [mbind Outcome_bind].
  assert (state_ b1 = Reindex) as Hst1 by (rewrite Hu; exact Hst).
  rewrite Hst1. rewrite decide_False by done.
  rewrite bool_decide_eq_true_2 by done. reflexivity.
Qed.

Lemma update_encryption_installs encryption_event key b :
  size key <= size (aes_ctr_key_ b) ->
  size (detail.iv_ encryption_event) <= detail.iv_size ->
  update_encryption key (detail.iv_ encryption_event)
    (b |> set_db_key_used_ true
       |> set_encryption_type_ EncryptionType_AesCtr
       |> set_aes_ctr_key_salt_ (detail.key_salt_ encryption_event))
  = Done (install_key encryption_event key b).
Proof.
  intros Hkey Hiv. rewrite update_encryption_fits; [reflexivity | | exact Hiv].
  exact Hkey.
Qed.

Lemma do_event_encryption_installs event b key :
  state_ b = Reindex ->
  candidate_key (detail.parse (data_ event)) b = Done key ->
  detail.generate_hash key = detail.key_hash_ (detail.parse (data_ event)) ->
  size key <= size (aes_ctr_key_ b) ->
  size (detail.iv_ (detail.parse (data_ event))) <= detail.iv_size ->
  do_event_encryption event b
  = (b' ← flush (install_key (detail.parse (data_ event)) key b);
     mret (update_write_encryption b')).
Proof.
  intros Hst Hcand Hhash Hksize Hiv.
  rewrite (do_event_encryption_reindex event b key Hst Hcand Hhash Hksize Hiv).
  rewrite (update_encryption_installs _ _ _ Hksize Hiv).
  rewrite bind_Done_l. reflexivity.
Qed.

Lemma flushed_then_encrypted b b1 :
  state_ b <> Load ->
  encryption_type_ b = EncryptionType_AesCtr ->
  flush b = Done b1 ->
  let b' := update_write_encryption b1 in
  fd_output_reader_ b' = OutputByteFlowSink
  /\ byte_flow_flag_ b' = true
  /\ byte_flow_sink_ b' = []
  /\ aes_xcode_byte_flow_ b' = aes_ctr_state_ b
  /\ aes_ctr_state_ b' = None
  /\ db_key_used_ b' = db_key_used_ b
  /\ encryption_type_ b' = EncryptionType_AesCtr
  /\ state_ b' = state_ b
  /\ (fd_output_reader_ b = OutputBufferReader -> buffer_reader_ b' = []).
Proof.
  intros Hst Henc Hflush. cbv zeta.
  pose proof (flush_io _ _ Hflush) as Hio.
  pose proof (flush_writes_all_aux _ _ Hflush Hst) as Hwritten.
  unfold io_only in Hio.
  destruct Hio as (Hst1 & _ & _ & _ & _ & _ & Hused & Henc1 & _ & _ & Hstate
                   & _ & _ & _ & _ & Hout & _).
  unfold update_write_encryption. rewrite Henc1, Henc. binlog_simpl.
  repeat split; try done; [congruence |].
  intros Hreader. unfold fd_need_flush_write in Hwritten.
  rewrite Hout, Hreader in Hwritten.
  apply negb_false_iff, Z.eqb_eq in Hwritten.
  unfold size in Hwritten. by destruct (buffer_reader_ b1).
Qed.

(** X25.  A key record is written in plain, what follows is encrypted.
    In state [Reindex], when the key picked for an [AesCtrEncryption]
    record has the HMAC of the record, [do_event]'s handling of it marks
    [db_key_] as used, installs salt, key and iv, flushes what is buffered
    (the record itself included) through the writer as it was, and only
    then routes writing through a fresh AES-CTR flow under that key and
    iv: when it returns, the output of [fd_] is the sink of the flow, the
    sink is empty, the flow holds the state made from key and iv, and if
    [fd_] was writing from [buffer_reader_] nothing is left in it. *)
Theorem key_record_switches_writer (event : BinlogEvent) (b : Binlog)
  (key : bytes) :
  state_ b = Reindex ->
  let encryption_event := detail.parse (data_ event) in
  candidate_key encryption_event b = Done key ->
  detail.generate_hash key = detail.key_hash_ encryption_event ->
  size key <= size (aes_ctr_key_ b) ->
  size (detail.iv_ encryption_event) <= detail.iv_size ->
  let installed := install_key encryption_event key b in
  do_event_encryption event b
  = (b' ← flush installed; mret (update_write_encryption b'))
  /\ forall b',
       do_event_encryption event b = Done b' ->
       fd_output_reader_ b' = OutputByteFlowSink
       /\ byte_flow_flag_ b' = true
       /\ byte_flow_sink_ b' = []
       /\ aes_xcode_byte_flow_ b' = aes_ctr_state_ installed
       /\ aes_ctr_state_ b' = None
       /\ db_key_used_ b' = true
       /\ encryption_type_ b' = EncryptionType_AesCtr
       /\ state_ b' = Reindex
       /\ (fd_output_reader_ b = OutputBufferReader -> buffer_reader_ b' = []).
Proof.
  intros Hst. cbv zeta. intros Hcand Hhash Hksize Hiv.
  pose proof (do_event_encryption_installs event b key Hst Hcand Hhash
                Hksize Hiv) as Heq.
  split; [exact Heq |].
  intros b' Hd. rewrite Heq in Hd.
  destruct (flush _) as [b1 | |] eqn:Hflush; [| discriminate Hd ..].
  rewrite bind_Done_l in Hd. injection Hd as <-.
  assert (state_ (install_key (detail.parse (data_ event)) key b) <> Load)
    as Hst'.
  { change (state_ b <> Load). by rewrite Hst. }
  destruct (flushed_then_encrypted
              (install_key (detail.parse (data_ event)) key b) b1
              Hst' eq_refl Hflush)
    as (H1' & H2' & H3' & H4' & H5' & H6' & H7' & H8' & H9').
  split; [exact H1' |]. split; [exact H2' |]. split; [exact H3' |].
  split; [exact H4' |]. split; [exact H5' |]. split; [exact H6' |].
  split; [exact H7' |]. split; [by rewrite H8' |]. exact H9'.
Qed.

End KeyRecordWritten.

(** ** Keys: the forced reindex and the empty key *)

Section Keys.
Context `{Codec} `{Crypto} `{Platform} `{EventsProcessor}.

(** The fields that say how the stream is keyed. *)
Lemma reindex_finish_keys b b' :
  reindex_finish b = Done b' ->
  encryption_type_ b' = encryption_type_ b
  /\ aes_ctr_key_salt_ b' = aes_ctr_key_salt_ b
  /\ aes_ctr_key_ b' = aes_ctr_key_ b
  /\ db_key_used_ b' = db_key_used_ b.
Proof.
  unfold reindex_finish, ensure_ok, update_write_encryption, reset_buffers.
  intros Hd.
  destruct (unlink _ _) as [st1 fs1]. outcome_inv.
  destruct (rename _ _ _) as [st2 fs2]. outcome_inv. subst.
  binlog_simpl. by repeat case_match.
Qed.

Lemma foldl_write_event_keys events b :
  encryption_type_ (foldl write_event b events) = encryption_type_ b
  /\ aes_ctr_key_salt_ (foldl write_event b events) = aes_ctr_key_salt_ b
  /\ aes_ctr_key_ (foldl write_event b events) = aes_ctr_key_ b
  /\ db_key_used_ (foldl write_event b events) = db_key_used_ b.
Proof.
  revert b. induction events as [| e events IH]; intros b; [done |].
  simpl. destruct (IH (write_event b e)) as (-> & -> & -> & ->).
  by repeat split.
Qed.

Lemma reindex_replay_keys b b' p :
  state_ b = Reindex ->
  processor_ b = Some p ->
  Forall (fun e => is_key_record e = false) (processor_events p) ->
  reindex_replay b = Done b' ->
  encryption_type_ b' = encryption_type_ b
  /\ aes_ctr_key_salt_ b' = aes_ctr_key_salt_ b
  /\ aes_ctr_key_ b' = aes_ctr_key_ b
  /\ db_key_used_ b' = db_key_used_ b.
Proof.
  intros Hst Hp Hplain. unfold reindex_replay, the_processor. rewrite Hp.
  cbn [mbind Outcome_bind].
  rewrite (for_each_do_event_plain _ _ Hst Hplain).
  cbn [mbind Outcome_bind].
  destruct (processor_ (foldl write_event b (processor_events p)));
    [| discriminate].
  cbn [mbind mret Outcome_bind Outcome_ret]. intros [= <-]. binlog_simpl.
  apply foldl_write_event_keys.
Qed.

(** Lines 595-626 after [reset_encryption], when no live event is a key
    record: the replay, the sync and the swap of the files leave the
    keying of the stream as [reset_encryption] set it. *)
Lemma reindex_tail_keys b b' p :
  state_ b = Reindex ->
  processor_ b = Some p ->
  Forall (fun e => is_key_record e = false) (processor_events p) ->
  (b ← reindex_replay b;
   b ← sync (set_need_sync_ true b);
   reindex_finish b) = Done b' ->
  encryption_type_ b' = encryption_type_ b
  /\ aes_ctr_key_salt_ b' = aes_ctr_key_salt_ b
  /\ aes_ctr_key_ b' = aes_ctr_key_ b
  /\ db_key_used_ b' = db_key_used_ b.
Proof.
  intros Hst Hp Hplain Hd.
  destruct (reindex_replay b) as [b1 | |] eqn:Hreplay; [| discriminate Hd ..].
  cbn [mbind Outcome_bind] in Hd.
  destruct (sync _) as [b2 | |] eqn:Hsync; [| discriminate Hd ..].
  cbn [mbind Outcome_bind] in Hd.
  apply (reindex_replay_keys _ _ _ Hst Hp Hplain) in Hreplay
    as (He1 & Hs1 & Hk1 & Hu1).
  apply sync_io in Hsync
    as (_ & _ & _ & _ & _ & _ & Hu2 & He2 & Hs2 & Hk2 & _).
  binlog_simpl.
  apply reindex_finish_keys in Hd as (He3 & Hs3 & Hk3 & Hu3).
  repeat split; congruence.
Qed.

(** [flush] on a stream that is written in plain. *)
Lemma flush_plain b b' fd :
  state_ b <> Load ->
  byte_flow_flag_ b = false ->
  fd_ b = Some fd ->
  fd_output_reader_ b = OutputBufferReader ->
  flush b = Done b' ->
  fs b' = (FileFd_write fd (buffer_reader_ b ++ buffer_writer_ b) (fs b)).2.
Proof.
  intros Hst Hflag Hfd Hout. unfold flush, flush_events_buffer.
  destruct (decide (state_ b = Load)) as [| _]; [done |].
  rewrite Hflag. cbn [mbind mret Outcome_bind Outcome_ret].
  unfold fd_flush_write, the_fd, sync_with_writer. rewrite Hfd.
  binlog_simpl. rewrite Hout.
  destruct (FileFd_write _ _ _) as [[n | st] fs1]; binlog_simpl.
  - unfold ensure. binlog_simpl.
    destruct (negb _); cbn [CHECK mbind Outcome_bind]; [| discriminate].
    intros [= <-]. by destruct (n >? 0).
  - discriminate.
Qed.



(** [do_event] on a key record in state [Reindex]. *)
Lemma do_event_reindex_key event b :
  state_ b = Reindex ->
  is_key_record event = true ->
  do_event event b
  = (b1 ← do_event_encryption event (write_event b event); mret (event, b1)).
Proof.
  intros Hst Hkey. unfold do_event, write_event. binlog_simpl.
  rewrite Hst. fold (is_key_record event). rewrite Hkey.
  assert (forall s : Binlog,
            state_ s = Reindex ->
            (b1 ← do_event_encryption event s;
             if decide (state_ b1 = Reindex) then mret (event, b1)
             else
               p ← the_processor b1;
               '(event, p) ← processor_add_event event p;
               mret (event, set_processor_ (Some p) b1))
            = (b1 ← do_event_encryption event s; mret (event, b1))) as Hsame.
  { intros s Hs.
    destruct (do_event_encryption event s) as [b1 | |] eqn:Hd;
      [| reflexivity ..].
    apply do_event_encryption_core in Hd as ((Hs1 & _) & _).
    cbn [mbind Outcome_bind]. rewrite Hs1, Hs.
    by destruct (decide (Reindex = Reindex)). }
  destruct (encryption_type_ b); apply Hsame; by binlog_simpl.
Qed.

(** [reset_encryption] with no salt cached and a [db_key_]: the salt
    and the iv are drawn, the key is derived from [db_key_]. *)
Lemma reset_encryption_fresh_salt b :
  aes_ctr_key_salt_ b = [] ->
  DbKey_is_empty (db_key_ b) = false ->
  let salted := secure_bytes (Z.to_nat detail.default_salt_size) (fs b) in
  let ived := secure_bytes (Z.to_nat detail.iv_size) salted.2 in
  let key :=
    detail.filled detail.key_size
      (pbkdf2_sha256 (DbKey_data (db_key_ b)) salted.1
         (if DbKey_is_raw_key (db_key_ b)
          then detail.kdf_fast_iteration_count
          else detail.kdf_iteration_count)) in
  reset_encryption b
  = (raw_event ← BinlogEvent_of_raw (key_record salted.1 ived.1 key);
     r ← do_event raw_event (set_fs ived.2 b);
     mret r.2).
Proof.
  intros Hsalt Hdb. cbv zeta.
  pose proof (secure_bytes_length (Z.to_nat detail.default_salt_size) (fs b))
    as Hlen.
  unfold reset_encryption. rewrite Hdb, Hsalt.
  change (size [] =? 0) with true. cbv iota.
  destruct (secure_bytes (Z.to_nat detail.default_salt_size) (fs b))
    as [salt fs1].
  binlog_simpl.
  destruct (secure_bytes (Z.to_nat detail.iv_size) fs1) as [iv fs2].
  binlog_simpl. rewrite ?Hsalt.
  rewrite slice_eqb_false.
  2: { intros <-. simpl in Hlen. by compute in Hlen. }
  rewrite generate_key_nonempty by (binlog_simpl; exact Hdb).
  binlog_simpl. unfold key_record.
  destruct (BinlogEvent_of_raw _) as [raw_event | |]; [| reflexivity ..].
  binlog_simpl.
  by destruct (do_event raw_event _) as [[] | |].
Qed.

(** What that [reset_encryption] leaves: the key record is the first
    thing written to the descriptor, in plain, and the stream is keyed
    by the fresh salt and the key derived from [db_key_]. *)
Lemma reset_encryption_writes_key b fd raw_event b' :
  state_ b = Reindex ->
  fd_ b = Some fd ->
  fd_output_reader_ b = OutputBufferReader ->
  byte_flow_flag_ b = false ->
  buffer_writer_ b = [] ->
  buffer_reader_ b = [] ->
  aes_ctr_key_salt_ b = [] ->
  DbKey_is_empty (db_key_ b) = false ->
  size (aes_ctr_key_ b) = detail.key_size ->
  let salted := secure_bytes (Z.to_nat detail.default_salt_size) (fs b) in
  let ived := secure_bytes (Z.to_nat detail.iv_size) salted.2 in
  let key :=
    detail.filled detail.key_size
      (pbkdf2_sha256 (DbKey_data (db_key_ b)) salted.1
         (if DbKey_is_raw_key (db_key_ b)
          then detail.kdf_fast_iteration_count
          else detail.kdf_iteration_count)) in
  BinlogEvent_of_raw (key_record salted.1 ived.1 key) = Done raw_event ->
  is_key_record raw_event = true ->
  raw_event_ raw_event = key_record salted.1 ived.1 key ->
  detail.parse (data_ raw_event)
  = detail.mkAesCtrEncryptionEvent salted.1 ived.1 (detail.generate_hash key) ->
  reset_encryption b = Done b' ->
  fs b' = (FileFd_write fd (key_record salted.1 ived.1 key) ived.2).2
  /\ encryption_type_ b' = EncryptionType_AesCtr
  /\ aes_ctr_key_salt_ b' = salted.1
  /\ aes_ctr_key_ b' = key
  /\ db_key_used_ b' = true
  /\ fd_output_reader_ b' = OutputByteFlowSink
  /\ state_ b' = Reindex
  /\ processor_ b' = processor_ b.
Proof.
  intros Hst Hfd Hout Hflag Hbw Hbr Hsalt Hdb Hksize. cbv zeta.
  intros Hraw Hrecord Hbytes Hparse.
  rewrite (reset_encryption_fresh_salt b Hsalt Hdb). cbv zeta.
  rewrite Hraw. rewrite bind_Done_l.
  set (salted := secure_bytes (Z.to_nat detail.default_salt_size) (fs b)) in *.
  set (ived := secure_bytes (Z.to_nat detail.iv_size) salted.2) in *.
  set (key := detail.filled detail.key_size _) in *.
  rewrite (do_event_reindex_key raw_event (set_fs ived.2 b) Hst Hrecord).
  set (s := write_event (set_fs ived.2 b) raw_event).
  assert (size key = detail.key_size) as Hkey.
  { subst key. by apply size_filled. }
  assert (size ived.1 = detail.iv_size) as Hiv.
  { unfold size. subst ived.
    by rewrite (secure_bytes_length (Z.to_nat detail.iv_size)). }
  assert (size salted.1 = detail.default_salt_size) as Hssize.
  { unfold size. subst salted.
    by rewrite (secure_bytes_length (Z.to_nat detail.default_salt_size)). }
  assert (candidate_key (detail.parse (data_ raw_event)) s = Done key)
    as Hcand.
  { unfold candidate_key. rewrite Hparse. subst s.
    unfold write_event, buffer_writer_append.
    binlog_simpl. rewrite Hsalt.
    rewrite slice_eqb_false.
    2: { intros Heq. cbn [detail.key_salt_] in Heq.
         rewrite <- Heq in Hssize. by compute in Hssize. }
    rewrite Hdb. cbn [negb].
    rewrite generate_key_nonempty by exact Hdb. reflexivity. }
  rewrite (do_event_encryption_installs raw_event s key);
    [| done | exact Hcand | by rewrite Hparse
     | subst s; unfold write_event, buffer_writer_append; binlog_simpl; lia
     | rewrite Hparse; simpl; lia].
  set (installed := install_key (detail.parse (data_ raw_event)) key s).
  assert (state_ installed = Reindex /\ byte_flow_flag_ installed = false
          /\ fd_ installed = Some fd
          /\ fd_output_reader_ installed = OutputBufferReader
          /\ buffer_reader_ installed ++ buffer_writer_ installed
             = key_record salted.1 ived.1 key
          /\ fs installed = ived.2
          /\ aes_ctr_key_salt_ installed = salted.1
          /\ aes_ctr_key_ installed = key
          /\ db_key_used_ installed = true
          /\ encryption_type_ installed = EncryptionType_AesCtr
          /\ processor_ installed = processor_ b)
    as (Hi1 & Hi2 & Hi3 & Hi4 & Hi5 & Hi6 & Hi7 & Hi8 & Hi9 & Hi10 & Hi11).
  { subst installed s. unfold install_key, write_event, buffer_writer_append.
    binlog_simpl. rewrite Hparse, Hbw, Hbr, Hbytes. cbn [detail.key_salt_ app].
    repeat split; try done.
    rewrite drop_ge; [by rewrite app_nil_r |].
    unfold size, detail.key_size in *. lia. }
  clearbody installed. intros Hd.
  destruct (flush installed) as [b1 | |] eqn:Hflush; [| discriminate Hd ..].
  rewrite !bind_Done_l in Hd. injection Hd as <-.
  pose proof (flush_io _ _ Hflush) as Hio.
  apply (flush_plain _ _ fd) in Hflush;
    [| by rewrite Hi1 | exact Hi2 | exact Hi3 | exact Hi4].
  rewrite Hi5, Hi6 in Hflush.
  unfold io_only in Hio.
  destruct Hio as (Hst1 & Hp1 & _ & _ & _ & _ & Hused & Henc1 & Hs1 & Hk1 & _).
  unfold update_write_encryption. rewrite Henc1, Hi10. binlog_simpl.
  repeat split; congruence.
Qed.



(** Lines 583-593: the engine when the new file is open. *)
Lemma reindex_start_plain opened_file b :
  let s := reindex_start opened_file b in
  fd_ s = Some opened_file
  /\ fd_output_reader_ s = OutputBufferReader
  /\ byte_flow_flag_ s = false
  /\ buffer_writer_ s = [] /\ buffer_reader_ s = []
  /\ encryption_type_ s = EncryptionType_None
  /\ state_ s = state_ b /\ processor_ s = processor_ b
  /\ aes_ctr_key_salt_ s = aes_ctr_key_salt_ b
  /\ aes_ctr_key_ s = aes_ctr_key_ b
  /\ db_key_ s = db_key_ b
  /\ db_key_used_ s = db_key_used_ b.
Proof.
  cbv zeta.
  unfold reindex_start, update_write_encryption, reset_buffers, fd_close.
  binlog_simpl. by destruct (fd_ b).
Qed.

Lemma do_reindex_started b opened_file fs1 :
  state_ b = Run ->
  open_binlog (new_path b) [Flag_Write; Flag_Create; Flag_Truncate] (fs b)
  = (Ok opened_file, fs1) ->
  do_reindex b
  = (b ← reset_encryption
           (reindex_start opened_file (set_fs fs1 (set_state_ Reindex b)));
     b ← reindex_replay b;
     b ← sync (set_need_sync_ true b);
     reindex_finish b).
Proof.
  intros Hst Hopen. unfold do_reindex, flush_events_buffer. binlog_simpl.
  rewrite Hst. rewrite bool_decide_eq_true_2 by reflexivity.
  cbn [CHECK]. binlog_simpl.
  change (new_path (set_state_ Reindex b)) with (new_path b).
  rewrite Hopen. reflexivity.
Qed.

Lemma do_reindex_not_opened b status fs1 :
  state_ b = Run ->
  open_binlog (new_path b) [Flag_Write; Flag_Create; Flag_Truncate] (fs b)
  = (Err status, fs1) ->
  do_reindex b = Done (set_fs fs1 b).
Proof.
  intros Hst Hopen. unfold do_reindex, flush_events_buffer.
  rewrite bool_decide_eq_true_2 by done. cbn [CHECK]. binlog_simpl.
  unfold new_path in *. binlog_simpl.
  rewrite Hopen. binlog_simpl. f_equal.
  rewrite <- Hst. by destruct b.
Qed.

(** Lines 186-198 when the password was right and a reindex is due. *)
Lemma init_finish_reindexes b p :
  processor_ b = Some p ->
  wrong_password (info_ b) = false ->
  init_needs_reindex b = true ->
  init_finish b
  = (b' ← do_reindex
            (b |> update_info (set_last_id (processor_last_id p))
               |> set_last_id_ (processor_last_id p)
               |> set_aes_ctr_key_salt_ []);
     mret (Status_OK, update_info (set_is_opened true) b')).
Proof.
  intros Hp Hwp Hneed. unfold init_finish, the_processor.
  rewrite Hp. binlog_simpl. rewrite Hwp.
  replace (init_needs_reindex _) with true; [reflexivity | ..].
  all: rewrite <- Hneed; reflexivity.
Qed.

(** The reindex on the new file when [db_key_] is empty: the file is
    written without encryption. *)
Lemma reindex_opened_strips s p b' :
  state_ s = Reindex ->
  processor_ s = Some p ->
  DbKey_is_empty (db_key_ s) = true ->
  Forall (fun e => is_key_record e = false) (processor_events p) ->
  (b ← reset_encryption s;
   b ← reindex_replay b;
   b ← sync (set_need_sync_ true b);
   reindex_finish b) = Done b' ->
  encryption_type_ b' = EncryptionType_None.
Proof.
  intros Hst Hp Hdb Hplain Hd.
  apply bind_Done in Hd as (b1 & Hreset & Htail).
  unfold reset_encryption in Hreset. rewrite Hdb in Hreset.
  injection Hreset as <-.
  by apply (reindex_tail_keys _ _ p) in Htail as (-> & _).
Qed.

(** The reindex on the new file with no salt cached and a [db_key_]:
    it writes a key record of a fresh salt and of the key derived from
    [db_key_], and leaves the stream keyed by them. *)
Lemma reindex_opened_rekeys s p fd raw_event b' :
  state_ s = Reindex ->
  processor_ s = Some p ->
  fd_ s = Some fd ->
  fd_output_reader_ s = OutputBufferReader ->
  byte_flow_flag_ s = false ->
  buffer_writer_ s = [] ->
  buffer_reader_ s = [] ->
  aes_ctr_key_salt_ s = [] ->
  DbKey_is_empty (db_key_ s) = false ->
  size (aes_ctr_key_ s) = detail.key_size ->
  Forall (fun e => is_key_record e = false) (processor_events p) ->
  let salted := secure_bytes (Z.to_nat detail.default_salt_size) (fs s) in
  let ived := secure_bytes (Z.to_nat detail.iv_size) salted.2 in
  let key :=
    detail.filled detail.key_size
      (pbkdf2_sha256 (DbKey_data (db_key_ s)) salted.1
         (if DbKey_is_raw_key (db_key_ s)
          then detail.kdf_fast_iteration_count
          else detail.kdf_iteration_count)) in
  BinlogEvent_of_raw (key_record salted.1 ived.1 key) = Done raw_event ->
  is_key_record raw_event = true ->
  raw_event_ raw_event = key_record salted.1 ived.1 key ->
  detail.parse (data_ raw_event)
  = detail.mkAesCtrEncryptionEvent salted.1 ived.1 (detail.generate_hash key) ->
  (b ← reset_encryption s;
   b ← reindex_replay b;
   b ← sync (set_need_sync_ true b);
   reindex_finish b) = Done b' ->
  encryption_type_ b' = EncryptionType_AesCtr
  /\ aes_ctr_key_salt_ b' = salted.1
  /\ aes_ctr_key_ b' = key
  /\ db_key_used_ b' = true
  /\ exists written,
       reset_encryption s = Done written
       /\ fs written
          = (FileFd_write fd (key_record salted.1 ived.1 key) ived.2).2.
Proof.
  intros Hst Hp Hfd Hout Hflag Hbw Hbr Hsalt Hdb Hksize Hplain. cbv zeta.
  intros Hraw Hrecord Hbytes Hparse Hd.
  apply bind_Done in Hd as (written & Hreset & Htail).
  destruct (reset_encryption_writes_key s fd raw_event written)
    as (Hfs & He1 & Hs1 & Hk1 & Hu1 & _ & Hst1 & Hp1); try done.
  apply (reindex_tail_keys _ _ p) in Htail as (He3 & Hs3 & Hk3 & Hu3);
    [| exact Hst1 | congruence | exact Hplain].
  split; [congruence |]. split; [congruence |]. split; [congruence |].
  split; [congruence |]. exists written. by split.
Qed.



(** C10, as amended.  When [init] forces a reindex it clears the stored
    salt first and calls [do_reindex].  If [db_key] is not empty and the
    new file can be opened, [reset_encryption] draws a fresh salt of 32
    bytes and an iv from the secure random generator, derives the key
    from [db_key] and that salt by PBKDF2 (the cached key is not used),
    and the record of that salt, that iv and the hash of that key is the
    first thing written to the new file, in plain; when [init] returns,
    the stream is encrypted under that salt and key and [db_key_used_]
    is set.  Such a record is accepted by a later load under [db_key].
    When a load unlocks the stream with the key of [old_db_key],
    [db_key_used_] stays as it was, so that [init] with a [db_key] that
    is not empty reindexes under [db_key].  If [db_key] is empty,
    [reset_encryption] draws nothing and writes no key record, and
    [init] returns with a stream that is not encrypted.  If the new file
    cannot be opened or locked, [init] returns OK all the same, with
    the engine as the load left it but for [last_id], the cleared salt
    and what the attempt did to the file system: nothing is written and
    the stream keeps its key.  (No live event of the processor is a key
    record; the codec decodes the key record it has encoded.) *)
Theorem forced_reindex_uses_db_key (b : Binlog) (p : BinlogEventsProcessor) :
  state_ b = Run ->
  processor_ b = Some p ->
  wrong_password (info_ b) = false ->
  init_needs_reindex b = true ->
  Forall (fun e => is_key_record e = false) (processor_events p) ->
  let cleared :=
    b |> update_info (set_last_id (processor_last_id p))
      |> set_last_id_ (processor_last_id p)
      |> set_aes_ctr_key_salt_ [] in
  init_finish b
  = (b' ← do_reindex cleared;
     mret (Status_OK, update_info (set_is_opened true) b'))
  /\ (forall opened_file fs1 raw_event status b',
        open_binlog (new_path b) [Flag_Write; Flag_Create; Flag_Truncate]
          (fs b) = (Ok opened_file, fs1) ->
        DbKey_is_empty (db_key_ b) = false ->
        size (aes_ctr_key_ b) = detail.key_size ->
        let started :=
          reindex_start opened_file (set_fs fs1 (set_state_ Reindex cleared)) in
        let salted :=
          secure_bytes (Z.to_nat detail.default_salt_size) (fs started) in
        let ived := secure_bytes (Z.to_nat detail.iv_size) salted.2 in
        let key :=
          detail.filled detail.key_size
            (pbkdf2_sha256 (DbKey_data (db_key_ b)) salted.1
               (if DbKey_is_raw_key (db_key_ b)
                then detail.kdf_fast_iteration_count
                else detail.kdf_iteration_count)) in
        BinlogEvent_of_raw (key_record salted.1 ived.1 key) = Done raw_event ->
        is_key_record raw_event = true ->
        raw_event_ raw_event = key_record salted.1 ived.1 key ->
        detail.parse (data_ raw_event)
        = detail.mkAesCtrEncryptionEvent salted.1 ived.1
            (detail.generate_hash key) ->
        init_finish b = Done (status, b') ->
        status = Status_OK
        /\ size salted.1 = detail.default_salt_size
        /\ encryption_type_ b' = EncryptionType_AesCtr
        /\ aes_ctr_key_salt_ b' = salted.1
        /\ aes_ctr_key_ b' = key
        /\ db_key_used_ b' = true
        /\ (exists written,
              reset_encryption started = Done written
              /\ fs written
                 = (FileFd_write opened_file (key_record salted.1 ived.1 key)
                      ived.2).2)
        /\ forall l reader,
             state_ l = Load ->
             db_key_ l = db_key_ b ->
             aes_ctr_key_salt_ l <> salted.1 ->
             size (aes_ctr_key_ l) = detail.key_size ->
             binlog_reader_ptr_ l = Some reader ->
             exists l',
               do_event_encryption raw_event l = Done l'
               /\ db_key_used_ l' = true
               /\ info_ l' = info_ l
               /\ aes_ctr_key_ l' = key)
  /\ (forall opened_file fs1 status b',
        open_binlog (new_path b) [Flag_Write; Flag_Create; Flag_Truncate]
          (fs b) = (Ok opened_file, fs1) ->
        DbKey_is_empty (db_key_ b) = true ->
        (forall s, db_key_ s = db_key_ b ->
           reset_encryption s = Done (set_encryption_type_ EncryptionType_None s))
        /\ (init_finish b = Done (status, b') ->
            status = Status_OK
            /\ encryption_type_ b' = EncryptionType_None))
  /\ (forall status fs1,
        open_binlog (new_path b) [Flag_Write; Flag_Create; Flag_Truncate]
          (fs b) = (Err status, fs1) ->
        init_finish b
        = Done (Status_OK,
                update_info (set_is_opened true) (set_fs fs1 cleared)))
  /\ (forall event l key old_key reader,
        state_ l = Load ->
        let encryption_event := detail.parse (data_ event) in
        candidate_key encryption_event l = Done key ->
        detail.generate_hash key <> detail.key_hash_ encryption_event ->
        detail.generate_key encryption_event (old_db_key_ l) = Done old_key ->
        detail.generate_hash old_key = detail.key_hash_ encryption_event ->
        size (aes_ctr_key_ l) = detail.key_size ->
        size (detail.iv_ encryption_event) <= detail.iv_size ->
        binlog_reader_ptr_ l = Some reader ->
        exists l',
          do_event_encryption event l = Done l'
          /\ wrong_password (info_ l') = wrong_password (info_ l)
          /\ db_key_used_ l' = db_key_used_ l
          /\ aes_ctr_key_ l' = old_key).
Proof.
  intros Hst Hp Hwp Hneed Hplain. cbv zeta.
  pose proof (init_finish_reindexes b p Hp Hwp Hneed) as Hinit.
  split; [exact Hinit |]. split; [| split; [| split]].
  - intros opened_file fs1 raw_event status b' Hopen Hdb Hksize.
    intros Hraw Hrecord Hbytes Hparse Hd.
    rewrite Hinit in Hd.
    rewrite (do_reindex_started _ opened_file fs1) in Hd;
      [| exact Hst | exact Hopen].
    apply bind_Done in Hd as (b3 & Htail & Hret).
    injection Hret as <- <-.
    pose proof (reindex_start_plain opened_file
                  (set_fs fs1
                     (set_state_ Reindex
                        (b |> update_info (set_last_id (processor_last_id p))
                           |> set_last_id_ (processor_last_id p)
                           |> set_aes_ctr_key_salt_ [])))) as Hstart.
    cbv zeta in Hstart.
    destruct Hstart as (Hfd0 & Hout0 & Hflag0 & Hbw0 & Hbr0 & _ & Hs0 & Hp0
                        & Hsalt0 & Hkey0 & Hk0 & _).
    binlog_simpl.
    match type of Htail with context [reset_encryption ?s] =>
      destruct (reindex_opened_rekeys s p opened_file raw_event b3)
        as (He3 & Hs3 & Hk3 & Hu3 & Hwritten);
        [done | congruence | done | done | done | done | done | done
         | by rewrite Hk0 | by rewrite Hkey0 | done
         | by rewrite Hk0 | done | by rewrite Hk0 | by rewrite Hk0
         | exact Htail |]
    end.
    rewrite Hk0 in Hk3, Hwritten.
    split; [reflexivity |].
    split.
    { unfold size.
      by rewrite (secure_bytes_length (Z.to_nat detail.default_salt_size)). }
    split; [exact He3 |]. split; [exact Hs3 |]. split; [exact Hk3 |].
    split; [exact Hu3 |]. split; [exact Hwritten |].
    intros l reader Hload Hkey Hcached Hlsize Hreader.
    destruct (install_read_encryption
                (detail.filled detail.key_size
                   (pbkdf2_sha256 (DbKey_data (db_key_ b))
                      (secure_bytes (Z.to_nat detail.default_salt_size)
                         (fs (reindex_start opened_file
                                (set_fs fs1
                                   (set_state_ Reindex
                                      (b |> update_info
                                              (set_last_id (processor_last_id p))
                                         |> set_last_id_ (processor_last_id p)
                                         |> set_aes_ctr_key_salt_ [])))))).1
                      (if DbKey_is_raw_key (db_key_ b)
                       then detail.kdf_fast_iteration_count
                       else detail.kdf_iteration_count)))
                (detail.iv_ (detail.parse (data_ raw_event)))
                (l |> set_db_key_used_ true
                   |> set_encryption_type_ EncryptionType_AesCtr
                   |> set_aes_ctr_key_salt_
                        (detail.key_salt_ (detail.parse (data_ raw_event))))
                reader)
      as (l' & Hdone & Hinfo & Hused & _ & _ & _ & _ & _ & _ & _ & _ & _ & _
          & Hlkey); try done.
    { binlog_simpl. rewrite size_filled by done. lia. }
    { rewrite Hparse. cbn [detail.iv_]. unfold size.
      rewrite (secure_bytes_length (Z.to_nat detail.iv_size)). done. }
    exists l'. split; [| split; [exact Hused | split; [exact Hinfo |]]].
    + unfold do_event_encryption. rewrite Hparse.
      cbn [detail.key_salt_ detail.key_hash_ detail.iv_].
      rewrite (slice_eqb_false _ _ Hcached), Hkey, Hdb. cbn [negb].
      rewrite (generate_key_nonempty _ (db_key_ b) Hdb).
      cbn [detail.key_salt_]. rewrite bind_Done_l.
      rewrite slice_eqb_true by reflexivity. cbn [negb].
      rewrite bind_Done_l. rewrite Hparse in Hdone.
      cbn [detail.key_salt_ detail.iv_] in Hdone. exact Hdone.
    + rewrite Hlkey. binlog_simpl.
      rewrite drop_ge; [by rewrite app_nil_r |].
      pose proof (size_filled detail.key_size
                    (pbkdf2_sha256 (DbKey_data (db_key_ b))
                       (secure_bytes (Z.to_nat detail.default_salt_size)
                          (fs (reindex_start opened_file
                                 (set_fs fs1
                                    (set_state_ Reindex
                                       (b |> update_info
                                               (set_last_id
                                                  (processor_last_id p))
                                          |> set_last_id_ (processor_last_id p)
                                          |> set_aes_ctr_key_salt_ [])))))).1
                       (if DbKey_is_raw_key (db_key_ b)
                        then detail.kdf_fast_iteration_count
                        else detail.kdf_iteration_count))) as Hsz.
      unfold size, detail.key_size in *. lia.
  - intros opened_file fs1 status b' Hopen Hdb. split.
    + intros s Hs. unfold reset_encryption. by rewrite Hs, Hdb.
    + intros Hd. rewrite Hinit in Hd.
      rewrite (do_reindex_started _ opened_file fs1) in Hd;
        [| exact Hst | exact Hopen].
      apply bind_Done in Hd as (b3 & Htail & Hret).
      injection Hret as <- <-.
      pose proof (reindex_start_plain opened_file
                    (set_fs fs1
                       (set_state_ Reindex
                          (b |> update_info (set_last_id (processor_last_id p))
                             |> set_last_id_ (processor_last_id p)
                             |> set_aes_ctr_key_salt_ [])))) as Hstart.
      cbv zeta in Hstart.
      destruct Hstart as (_ & _ & _ & _ & _ & _ & Hs0 & Hp0 & _ & _ & Hk0 & _).
      binlog_simpl.
      split; [reflexivity |].
      match type of Htail with context [reset_encryption ?s] =>
        apply (reindex_opened_strips s p b3);
          [done | congruence | by rewrite Hk0 | done | exact Htail]
      end.
  - intros status fs1 Hopen. rewrite Hinit.
    rewrite (do_reindex_not_opened _ status fs1); [reflexivity | exact Hst |].
    exact Hopen.
  - intros event l key old_key reader Hload. cbv zeta.
    intros Hcand Hhash Hgen Hohash Hksize Hiv Hreader.
    destruct (do_event_encryption_old_key event l key old_key reader)
      as (l' & Hdone & Hinfo & Hused & Hkey & _); auto.
    exists l'. rewrite Hinfo. auto.
Qed.





End Keys.

(** * Runs on the reference platform *)

Section Runs.
Import Reference Scenario.

(** Closed goals on numbers, bytes and flags are settled by evaluation;
    an equation between engines is never compared field by field but
    obtained from the lemmas below. *)
Ltac computed :=
  vm_compute; repeat split;
  first [reflexivity | let Hc := fresh "Hc" in intros Hc; discriminate Hc].

Ltac run :=
  lazymatch goal with
  | |- _ = _ => vm_compute; reflexivity
  | |- _ => computed
  end.

Lemma get_Done {A} (d : A) (o : Outcome A) :
  is_done o = true -> o = Done (get d o).
Proof. by destruct o. Qed.

Lemma get_Done_pair {A B} (d : A * B) (o : Outcome (A * B)) (a : A) :
  is_done o = true -> (get d o).1 = a -> o = Done (a, (get d o).2).
Proof. destruct o as [[??] | |]; simpl; [| done ..]. by intros _ ->. Qed.

Lemma get_Done_both {A B} (d : A * B) (o : Outcome (A * B)) :
  is_done o = true -> o = Done ((get d o).1, (get d o).2).
Proof. by destruct o as [[??] | |]. Qed.

Lemma get_Done_read {A B C} (d : A * B * C) (o : Outcome (A * B * C)) (a : A) :
  is_done o = true -> (get d o).1.1 = a ->
  o = Done (a, (get d o).1.2, (get d o).2).
Proof. destruct o as [[[??]?] | |]; simpl; [| done ..]. by intros _ ->. Qed.

Lemma get_Done_broken (d : LoopExit) (o : Outcome LoopExit) :
  is_done o = true -> is_broken (get d o) = true ->
  o = Done (Broken (exit_state (get d o))).
Proof. by destruct o as [[] | |]. Qed.

Lemma get_Done_returned (d : LoopExit) (o : Outcome LoopExit) (s : Status) :
  is_done o = true -> exit_status (get d o) = Some s ->
  o = Done (Returned s (exit_state (get d o))).
Proof.
  destruct o as [[] | |]; simpl; [done | | done ..]. by intros _ [= ->].
Qed.

Lemma default_Some {A} (d : A) (o : option A) :
  is_some o = true -> o = Some (default d o).
Proof. by destruct o. Qed.

Lemma pair_eta_fst {A B} (x : A * B) (a : A) : x.1 = a -> x = (a, x.2).
Proof. destruct x; simpl. by intros ->. Qed.

Lemma no_key_records (events : list BinlogEvent) :
  forallb (fun e => negb (is_key_record e)) events = true ->
  Forall (fun e => is_key_record e = false) events.
Proof.
  induction events as [| e events IH]; simpl; [constructor |].
  intros [He Hall]%andb_true_iff. constructor; [| by apply IH].
  by apply negb_true_iff.
Qed.

(** C5 on a length field of 1. *)
Lemma read_next_length_errors_witness :
  detail.rn_result
    (detail.read_next detail.BinlogReader_default [x01; x00; x00; x00]
       BinlogEvent_default)
  = Err (detail.too_small 1)
  /\ detail.rn_input
       (detail.read_next detail.BinlogReader_default [x01; x00; x00; x00]
          BinlogEvent_default)
     = [x01; x00; x00; x00].
Proof.
  destruct (read_next_length_errors detail.BinlogReader_default
              [x01; x00; x00; x00] BinlogEvent_default eq_refl)
    as (_ & _ & Hsmall & Hkept).
  split.
  - apply Hsmall; computed.
  - apply Hkept. right. right. computed.
Defined.

(** C4 on a record of 36 bytes followed by the first ten bytes of the
    next one, and on these ten bytes alone. *)
Lemma read_next_whole_records_witness :
  detail.rn_result
    (detail.read_next detail.BinlogReader_default (ev1 ++ take 10 ev2)
       BinlogEvent_default) = Ok 0
  /\ detail.rn_input
       (detail.read_next detail.BinlogReader_default (ev1 ++ take 10 ev2)
          BinlogEvent_default) = take 10 ev2
  /\ detail.rn_result
       (detail.read_next detail.BinlogReader_default (take 10 ev2)
          BinlogEvent_default) = Ok 36.
Proof.
  destruct (read_next_whole_records detail.BinlogReader_default
              (ev1 ++ take 10 ev2) BinlogEvent_default)
    as (_ & _ & Hknown).
  destruct Hknown as [_ Hfull].
  { right. computed. }
  destruct Hfull as [Hinput Hdecoded]; [computed |].
  destruct (read_next_whole_records detail.BinlogReader_default
              (take 10 ev2) BinlogEvent_default)
    as (_ & _ & Hknown2).
  destruct Hknown2 as [Hshort _].
  { right. computed. }
  destruct Hshort as [Hres _]; [computed |].
  split; [| split].
  - vm_compute in Hdecoded. exact (proj1 Hdecoded).
  - rewrite Hinput. computed.
  - rewrite Hres. computed.
Defined.

(** C3 on the running engine: the Partial events 3 and 4 wait in the
    queue and the processor holds the events 1 and 2; the event 5
    commits them, and the processor is given 3, 4 and 5 in this order. *)
Lemma do_add_event_partial_commit_witness :
  do_add_events ([] ++ partial_events) running
  = Done (set_pending_events_
            (pending_events_ running ++ map clear_partial partial_events)
            running)
  /\ (exists p',
        processor_add_events
          (pending_events_ queued ++ [event 5 7 0 [x7a]]) (live_of queued)
        = Done p'
        /\ processor_ committed = Some p'
        /\ map id_ (processor_events p') = [1; 2; 3; 4; 5])
  /\ pending_events_ committed = []
  /\ fd_events_ committed
     = wrap_uint64
         (fd_events_ queued + Z.of_nat (length (pending_events_ queued)) + 1)
  /\ map id_ (pending_events_ queued) = [3; 4]
  /\ map id_ (processor_events (live_of queued)) = [1; 2].
Proof.
  destruct (do_add_event_partial_commit (event 5 7 0 [x7a]) queued)
    as (_ & Hcommit & _).
  destruct (do_add_event_partial_commit (event 5 7 0 [x7a]) running)
    as (_ & _ & Htrailing & _).
  destruct Hcommit as (_ & _ & _ & Hafter); [run |].
  destruct (Hafter committed) as (Hempty & Hcount & Hfeed).
  { apply (get_Done queued). run. }
  destruct (Hfeed ltac:(computed) (live_of queued)) as (p' & Hfed & Hp').
  { apply (default_Some BinlogEventsProcessor_new). run. }
  assert (processor_ committed = Some (live_of committed)) as Hlive.
  { apply (default_Some BinlogEventsProcessor_new). run. }
  assert (p' = live_of committed) as Hsame by congruence.
  split.
  { rewrite (Htrailing [] partial_events); [reflexivity |].
    repeat constructor. }
  split.
  { exists p'. split; [exact Hfed |]. split; [exact Hp' |].
    rewrite Hsame. run. }
  split; [exact Hempty |]. split; [exact Hcount |]. split; run.
Defined.

(** C7 on a file of 200000 bytes with nothing live. *)
Lemma add_event_reindex_heuristic_witness :
  add_event (event 1 7 0 [x61]) grown = do_reindex appended.
Proof.
  destruct (add_event_reindex_heuristic (event 1 7 0 [x61]) grown appended
              (live_of appended))
    as (Hreindex & _ & _).
  - apply (get_Done grown). run.
  - apply (default_Some BinlogEventsProcessor_new). run.
  - apply Hreindex. split; [run |]. left. split; computed.
Defined.

(** C8 on an event written during a reindex. *)
Lemma reindex_keeps_processor_witness :
  do_event (event 1 7 0 [x61]) reindexing
  = Done (event 1 7 0 [x61], write_event reindexing (event 1 7 0 [x61]))
  /\ buffer_writer_ (write_event reindexing (event 1 7 0 [x61]))
     = buffer_writer_ reindexing ++ raw_event_ (event 1 7 0 [x61]).
Proof.
  destruct reindex_keeps_processor as (_ & Hplain & _).
  apply Hplain; run.
Defined.

(** C6 on the load of the torn log: the run of the loop, and its first
    turn. *)
Lemma load_loop_two_strikes_witness :
  (exists turns,
     runs Callback_set false (loading no_key no_key torn_start) turns
       (loop_exit no_key no_key torn_start)
     /\ (length turns <= 20)%nat)
  /\ load_iteration Callback_set true (loading no_key no_key torn_start)
     = Done (Break (first_read no_key no_key torn_start).2).
Proof.
  destruct (load_loop_two_strikes Callback_set) as (Hruns & _ & Hneed & _).
  split.
  - destruct (Hruns 20%nat (loading no_key no_key torn_start)
                (loop_exit no_key no_key torn_start))
      as (turns & Hr & Hlen & _).
    { apply (get_Done (Broken torn_start)). run. }
    exists turns. split; assumption.
  - destruct (Hneed (loading no_key no_key torn_start) 4
                (first_read no_key no_key torn_start).1.2
                (first_read no_key no_key torn_start).2)
      as (Hbreak & _).
    + apply (get_Done_read (Ok 0, BinlogEvent_default, torn_start)); run.
    + computed.
    + exact Hbreak.
Defined.

(** X26 on the torn log without key. *)
Lemma load_truncates_torn_tail_witness :
  exists b',
    load_binlog 20 Callback_set Callback_set (opened no_key no_key torn_start)
    = Done (Status_OK, b')
    /\ db_key_used_ b' = false
    /\ state_ b' = Run.
Proof.
  pose proof (load_truncates_torn_tail 20 Callback_set Callback_set
              (opened no_key no_key torn_start)
              (loading no_key no_key torn_start)
              (exit_state (loop_exit no_key no_key torn_start))
              (live_of (exit_state (loop_exit no_key no_key torn_start)))
              (fd_of (exit_state (loop_exit no_key no_key torn_start))))
    as Hload.
  cbv zeta in Hload.
  destruct Hload as ((b' & Hload & _ & Hused & _ & Hrun & _) & _).
  - apply (get_Done torn_start). run.
  - apply (get_Done_broken (Broken torn_start)); run.
  - apply (default_Some BinlogEventsProcessor_new). run.
  - apply (default_Some 0%nat). run.
  - computed.
  - run.
  - run.
  - run.
  - exists b'. repeat split; assumption.
Defined.



(** C10, as amended, on the encrypted log opened with the password
    "ww" and the old password "pw": the load leaves [db_key_] unused,
    [init] reindexes under a fresh salt and the key of "ww", and the new
    file opens with "ww" and no longer with "pw".  When another process
    holds the lock of the new file, [init] returns OK without a
    reindex, and the file still opens with "pw" and not with "ww". *)
Lemma forced_reindex_uses_db_key_witness :
  encryption_type_ rotating = EncryptionType_AesCtr
  /\ db_key_used_ rotating = false
  /\ encryption_type_ rotated = EncryptionType_AesCtr
  /\ db_key_used_ rotated = true
  /\ aes_ctr_key_salt_ rotated = take 32 (entropy encrypted_disk)
  /\ aes_ctr_key_ rotated
     = detail.filled 32
         (pbkdf2_sha256 (DbKey_data other_pw)
            (take 32 (entropy encrypted_disk)) 60002)
  /\ (get (Status_OK, rotated)
        (init 20 "log" Callback_set other_pw no_key Callback_set
           (fresh (fs rotated)))).1 = Status_OK
  /\ (get (Status_OK, rotated)
        (init 20 "log" Callback_set pw no_key Callback_set
           (fresh (fs rotated)))).1 = wrong_password_status
  /\ init_finish rotation_jammed
     = Done (Status_OK,
             update_info (set_is_opened true)
               (set_fs
                  (open_binlog (new_path rotation_jammed)
                     [Flag_Write; Flag_Create; Flag_Truncate]
                     (fs rotation_jammed)).2
                  (rotation_jammed
                     |> update_info
                          (set_last_id
                             (processor_last_id (live_of rotation_jammed)))
                     |> set_last_id_
                          (processor_last_id (live_of rotation_jammed))
                     |> set_aes_ctr_key_salt_ [])))
  /\ file_content "log" (fs unrotated) = file_content "log" encrypted_disk
  /\ (get (Status_OK, unrotated)
        (init 20 "log" Callback_set other_pw no_key Callback_set
           (fresh (fs unrotated)))).1 = wrong_password_status
  /\ (get (Status_OK, unrotated)
        (init 20 "log" Callback_set pw no_key Callback_set
           (fresh (fs unrotated)))).1 = Status_OK.
Proof.
  pose proof (forced_reindex_uses_db_key rotating (live_of rotating))
    as Hforced.
  pose proof (forced_reindex_uses_db_key rotation_jammed
                (live_of rotation_jammed)) as Hjammed.
  cbv zeta in Hforced, Hjammed.
  destruct Hforced as (_ & Hrekey & _).
  - run.
  - apply (default_Some BinlogEventsProcessor_new). run.
  - run.
  - run.
  - apply no_key_records. run.
  - destruct Hjammed as (_ & _ & _ & Hfail & _).
    + run.
    + apply (default_Some BinlogEventsProcessor_new). run.
    + run.
    + run.
    + apply no_key_records. run.
    + destruct (Hrekey 6%nat
                  (open_binlog (new_path rotating)
                     [Flag_Write; Flag_Create; Flag_Truncate] (fs rotating)).2
                  rotation_record Status_OK rotated)
        as (_ & _ & Henc & Hsalt & Hkey & Hused & _).
      * apply pair_eta_fst. run.
      * run.
      * run.
      * apply (get_Done BinlogEvent_default). run.
      * run.
      * run.
      * run.
      * apply (get_Done_pair (Status_OK, rotating)); run.
      * split; [run |]. split; [run |]. split; [exact Henc |].
        split; [exact Hused |].
        split; [rewrite Hsalt; run |]. split; [rewrite Hkey; run |].
        split; [run |]. split; [run |].
        split.
        { apply (Hfail (io_error "lock")). apply pair_eta_fst. run. }
        split; [run |]. split; run.
Defined.

(** C1.  The log without key holds one event and a second record whose
    CRC32 is overwritten.  Opened without keys, [load_binlog] stops at
    the second record, replays the first event through the callback,
    cuts the file of 72 bytes to the 36 bytes of the first record and
    clears [db_key_used_]; but the condition of [init] reads that flag
    only when [db_key] is not empty, so no reindex follows: [init]
    returns the engine as the load left it, but for [info_] and
    [last_id_].  On the encrypted log with the same damage, opened with
    its password, the cleared flag does make [init] reindex: the file is
    written anew. *)
Theorem keyless_torn_log_is_not_reindexed :
  let b1 := loaded no_key no_key cut_start in
  let k1 := loaded pw no_key cut_encrypted_start in
  size cut_file = 72
  /\ (BinlogEvent_init torn_record true BinlogEvent_default).1 = bad_crc
  /\ load_binlog 20 Callback_set Callback_set (opened no_key no_key cut_start)
     = Done (Status_OK, b1)
  /\ file_content "log" (fs b1) = Some ev1
  /\ map id_ (callback_calls b1) = [1]
  /\ db_key_used_ b1 = false
  /\ init_needs_reindex b1 = false
  /\ init 20 "log" Callback_set no_key no_key Callback_set cut_start
     = Done (Status_OK,
             b1 |> update_info (set_last_id (processor_last_id (live_of b1)))
                |> set_last_id_ (processor_last_id (live_of b1))
                |> update_info (set_is_opened true))
  /\ db_key_used_ (loaded pw no_key encrypted_start) = true
  /\ init_needs_reindex (loaded pw no_key encrypted_start) = false
  /\ db_key_used_ k1 = false
  /\ init_needs_reindex k1 = true
  /\ map id_ (callback_calls k1) = [1]
  /\ log_inode (fs (initialised pw no_key cut_encrypted_start))
     <> log_inode (fs k1).
Proof.
  cbv zeta.
  assert (load_binlog 20 Callback_set Callback_set
            (opened no_key no_key cut_start)
          = Done (Status_OK, loaded no_key no_key cut_start)) as Hload.
  { apply (get_Done_pair (Status_OK, cut_start)); run. }
  split; [run |]. split; [run |]. split; [exact Hload |].
  split; [run |]. split; [run |]. split; [run |]. split; [run |].
  split.
  { rewrite (init_loaded 20 "log" Callback_set no_key no_key Callback_set
               cut_start (opened no_key no_key cut_start)
               (loaded no_key no_key cut_start)); [| | exact Hload].
    - apply init_finish_plain; [| run | run].
      apply (default_Some BinlogEventsProcessor_new). run.
    - apply (get_Done_pair (Status_OK, cut_start)); run. }
  split; [run |]. split; [run |]. split; [run |]. split; [run |].
  split; [run | computed].
Qed.

(** The claim C10 as it stands fails when [init] forces the reindex of
    an encrypted log with an empty [db_key] (the log is unlocked by
    [old_db_key]): the load ends with the stream encrypted and a reindex
    due; [init] clears the salt and reindexes, and [reset_encryption]
    draws nothing from the random generator and writes no key record:
    the new file holds the two live events in plain bytes. *)
Lemma reindex_without_key_writes_no_key_record :
  let b1 := loaded no_key pw encrypted_start in
  let b' := initialised no_key pw encrypted_start in
  encryption_type_ b1 = EncryptionType_AesCtr
  /\ wrong_password (info_ b1) = false
  /\ init_needs_reindex b1 = true
  /\ init 20 "log" Callback_set no_key pw Callback_set encrypted_start
     = Done (Status_OK, b')
  /\ encryption_type_ b' = EncryptionType_None
  /\ aes_ctr_key_salt_ b' = []
  /\ entropy encrypted_disk = drop 48 random
  /\ entropy (fs b') = drop 48 random
  /\ file_content "log" (fs b') = Some (ev1 ++ ev2).
Proof.
  cbv zeta.
  split; [run |]. split; [run |]. split; [run |].
  split; [apply (get_Done_pair (Status_OK, encrypted_start)); run |].
  split; [run |]. split; [run |]. split; [run |]. split; run.
Qed.


(** ** Further runs *)

(** X1 on the two records of the torn log that are whole, followed by
    ten bytes. *)
Lemma read_next_sequence_witness :
  exists r',
    read_events 2 detail.BinlogReader_default
      (concat [ev1; ev3_partial] ++ take 10 ev2)
    = (decoded 0 [ev1; ev3_partial], r', take 10 ev2)
    /\ detail.state_ r' = detail.ReadLength
    /\ detail.offset_ r' = wrap_int64 (0 + size (concat [ev1; ev3_partial])).
Proof.
  apply (read_next_sequence [ev1; ev3_partial] detail.BinlogReader_default
           (take 10 ev2)).
  - reflexivity.
  - computed.
  - repeat (constructor; [computed |]). constructor.
Defined.

(** X2 on an event with short fields, under the TL encoding of the
    reference platform. *)
Lemma parse_store_witness :
  detail.parse
    (detail.store
       (detail.mkAesCtrEncryptionEvent [x01; x02] [x03] [x04; x05; x06; x07]))
  = detail.mkAesCtrEncryptionEvent [x01; x02] [x03] [x04; x05; x06; x07].
Proof.
  apply parse_store. intros x rest Hin.
  repeat (apply elem_of_cons in Hin as [-> | Hin]; [reflexivity |]).
  by apply elem_of_nil in Hin.
Defined.

(** X3 on the password "pw". *)
Lemma generate_key_checked_witness :
  detail.generate_key (detail.mkAesCtrEncryptionEvent [x01; x02] [x03] []) pw
  = Done (detail.filled 32
            (pbkdf2_sha256 (DbKey_data pw) [x01; x02]
               (if DbKey_is_raw_key pw then 2 else 60002)))
  /\ exists why,
       detail.generate_key
         (detail.mkAesCtrEncryptionEvent [x01; x02] [x03] []) no_key
       = Fatal why.
Proof.
  destruct (generate_key_checked
              (detail.mkAesCtrEncryptionEvent [x01; x02] [x03] []) pw)
    as (_ & Hkey & _).
  destruct (generate_key_checked
              (detail.mkAesCtrEncryptionEvent [x01; x02] [x03] []) no_key)
    as (Hempty & _).
  split.
  - apply Hkey. reflexivity.
  - apply Hempty. reflexivity.
Defined.

(** X4 on a key of one byte over the 32 zero bytes of a fresh engine. *)
Lemma update_encryption_copies_witness :
  aes_ctr_key_ rekeyed
  = [x01] ++ drop (length [x01]) (aes_ctr_key_ (fresh empty_fs))
  /\ size (aes_ctr_key_ rekeyed) = size (aes_ctr_key_ (fresh empty_fs)).
Proof.
  destruct (update_encryption_copies [x01] [x02] (fresh empty_fs))
    as (_ & Hcopy).
  destruct (Hcopy rekeyed) as (Hkey & Hsize & _).
  - apply (get_Done (fresh empty_fs)). run.
  - exact (conj Hkey Hsize).
Defined.

(** X5 on the running engine with one event buffered. *)
Lemma flush_writes_all_witness :
  fd_need_flush_write flushed = false
  /\ need_flush_since_ flushed = 0%Q
  /\ pending_events_ flushed = pending_events_ buffering.
Proof.
  destruct (flush_writes_all buffering flushed)
    as (_ & Hrun & _ & _ & Hpending & _).
  - apply (get_Done buffering). run.
  - destruct Hrun as (Hwritten & Hsince & _); [computed |].
    exact (conj Hwritten (conj Hsince Hpending)).
Defined.

(** X6 on the same engine. *)
Lemma sync_clears_need_sync_witness :
  need_sync_ synced = false /\ fd_ synced = fd_ buffering.
Proof.
  destruct (sync_clears_need_sync buffering synced)
    as (Hns & _ & _ & _ & _ & _ & Hfd).
  - apply (get_Done buffering). run.
  - exact (conj Hns Hfd).
Defined.

(** X7 on the same engine: 36 bytes are buffered. *)
Lemma lazy_flush_threshold_witness :
  exists b',
    lazy_flush buffering = Done b'
    /\ fs b' = fs buffering
    /\ need_sync_ b' = need_sync_ buffering
    /\ buffer_reader_ b'
       = buffer_reader_ buffering ++ buffer_writer_ buffering.
Proof.
  pose proof (lazy_flush_threshold buffering) as Hlazy.
  cbv zeta in Hlazy. destruct Hlazy as [_ Hsmall].
  destruct Hsmall as (b' & Hdone & Hfs & Hns & Hbuf & _); [computed |].
  exists b'. exact (conj Hdone (conj Hfs (conj Hns Hbuf))).
Defined.

(** X8 on the running engine. *)
Lemma close_idempotent_witness :
  fd_ (closed true) = None
  /\ close false (closed true) = Done (Status_OK, closed true).
Proof.
  destruct (close_idempotent true running Status_OK (closed true))
    as (_ & Hfd & _ & _ & _ & _ & _ & Hagain).
  - apply (get_Done_pair (Status_OK, running)); run.
  - exact (conj Hfd (Hagain false)).
Defined.

(** X9 on the running engine. *)
Lemma close_and_destroy_unlinks_witness :
  close_and_destroy running
  = Done (Status_OK,
          set_fs (unlink (path_ running +:+ ".new")
                    (unlink (path_ running) (fs (closed false))).2).2
            (closed false))
  /\ close_and_destroy (closed false)
     = Done (Status_OK,
             set_fs (unlink ".new" (unlink "" (fs (closed false))).2).2
               (closed false)).
Proof.
  destruct (close_and_destroy_unlinks running) as (Hopen & Hclosed).
  assert (close false running = Done (Status_OK, closed false)) as Hclose.
  { apply (get_Done_pair (Status_OK, running)); run. }
  split.
  - exact (proj1 (Hopen (closed false) Status_OK Hclose)).
  - apply (Hclosed false Status_OK); [computed | exact Hclose].
Defined.

(** X10 on the key record of the encrypted log, opened with its
    password. *)
Lemma key_record_accepts_right_key_witness :
  exists b',
    do_event_encryption (first_event pw no_key encrypted_start)
      (at_first_event pw no_key encrypted_start) = Done b'
    /\ db_key_used_ b' = true
    /\ info_ b' = info_ (at_first_event pw no_key encrypted_start)
    /\ encryption_type_ b' = EncryptionType_AesCtr.
Proof.
  pose proof (key_record_accepts_right_key
                (first_event pw no_key encrypted_start)
                (at_first_event pw no_key encrypted_start)
                (first_key pw no_key encrypted_start)
                (reader_of (at_first_event pw no_key encrypted_start)))
    as Haccept.
  cbv zeta in Haccept.
  destruct Haccept as (b' & Hdone & Hused & Hinfo & Henc & _).
  - run.
  - apply (get_Done []). run.
  - run.
  - computed.
  - computed.
  - apply (default_Some detail.BinlogReader_default). run.
  - exists b'. exact (conj Hdone (conj Hused (conj Hinfo Henc))).
Defined.

(** X11 on the same record, with the salt and the key cached and another
    password given. *)
Lemma cached_salt_skips_db_key_witness :
  exists b',
    do_event_encryption (first_event pw no_key encrypted_start)
      (remembering |> set_db_key_ other_pw |> set_old_db_key_ no_key)
    = Done b'
    /\ db_key_used_ b' = true
    /\ wrong_password (info_ b') = wrong_password (info_ remembering)
    /\ db_key_ b' = other_pw.
Proof.
  pose proof (cached_salt_skips_db_key
                (first_event pw no_key encrypted_start) remembering
                (reader_of remembering) other_pw no_key) as Hcached.
  cbv zeta in Hcached.
  destruct Hcached as (b' & Hdone & Hused & Hwp & _ & Hkey).
  - run.
  - run.
  - run.
  - computed.
  - apply (default_Some detail.BinlogReader_default). run.
  - exists b'. exact (conj Hdone (conj Hused (conj Hwp Hkey))).
Defined.

(** X12 on the key record of the encrypted log, given to the running
    engine. *)
Lemma key_record_stops_running_engine_witness :
  ~ (exists r,
       do_event (first_event pw no_key encrypted_start) running = Done r)
  /\ ~ (exists b',
          add_event (first_event pw no_key encrypted_start) running = Done b').
Proof.
  destruct (key_record_stops_running_engine
              (first_event pw no_key encrypted_start) running)
    as (Hevent & Hadd); [run | run |].
  split.
  - intros [r Hr]. exact (Hevent r Hr).
  - intros [b' Hb']. apply (Hadd ltac:(run) ltac:(run) b' Hb').
Defined.

(** X13 on two events given to the running engine. *)
Lemma do_events_counts_witness :
  fd_events_ counted
  = wrap_uint64 (fd_events_ running + Z.of_nat (length more_events))
  /\ fd_size_ counted
     = wrap_int64
         (fd_size_ running + size (concat (map raw_event_ more_events))).
Proof.
  destruct (do_events_counts more_events running counted)
    as (Hn & Hs & _).
  - computed.
  - computed.
  - apply (get_Done running). run.
  - exact (conj Hn Hs).
Defined.

(** X14 on an engine with a password and a cached salt. *)
Lemma reset_encryption_cached_salt_witness :
  reset_encryption salted
  = (raw_event ← BinlogEvent_of_raw
                   (key_record (aes_ctr_key_salt_ salted)
                      (secure_bytes (Z.to_nat detail.iv_size) (fs salted)).1
                      (aes_ctr_key_ salted));
     r ← do_event raw_event
           (set_fs (secure_bytes (Z.to_nat detail.iv_size) (fs salted)).2
              salted);
     mret r.2).
Proof.
  apply (reset_encryption_cached_salt salted); [run | computed].
Defined.

(** X15 on the running engine, when the new file is locked by another
    process. *)
Lemma do_reindex_cannot_open_witness :
  do_reindex jammed
  = Done (set_fs
            (open_binlog (new_path jammed)
               [Flag_Write; Flag_Create; Flag_Truncate] (fs jammed)).2
            jammed).
Proof.
  assert (state_ jammed = Run) as Hrun by run.
  assert (open_binlog (new_path jammed)
            [Flag_Write; Flag_Create; Flag_Truncate] (fs jammed)
          = (Err (io_error "lock"),
             (open_binlog (new_path jammed)
                [Flag_Write; Flag_Create; Flag_Truncate] (fs jammed)).2))
    as Hopen.
  { apply pair_eta_fst. run. }
  exact (proj2 (do_reindex_cannot_open jammed) _ _ Hrun Hopen).
Defined.

(** X16 on the running engine. *)
Lemma do_reindex_accounts_witness :
  state_ reindexed = Run
  /\ fd_size_ reindexed = file_size (path_ running) (fs reindexed)
  /\ need_sync_ reindexed = false
  /\ processor_ reindexed = processor_ running.
Proof.
  assert (open_binlog (new_path running)
            [Flag_Write; Flag_Create; Flag_Truncate] (fs running)
          = (Ok 3%nat,
             (open_binlog (new_path running)
                [Flag_Write; Flag_Create; Flag_Truncate] (fs running)).2))
    as Hopen.
  { apply pair_eta_fst. run. }
  assert (do_reindex running = Done reindexed) as Hdone.
  { apply (get_Done running). run. }
  destruct (do_reindex_accounts running reindexed _ _ Hopen Hdone)
    as (Hrun & _ & Hsize & Hns & _ & _ & _ & _ & _ & _ & Hp).
  exact (conj Hrun (conj Hsize (conj Hns Hp))).
Defined.

(** X17 on the running engine, given the password "pw". *)
Lemma change_key_installs_witness :
  db_key_ changed = pw /\ processor_ changed = processor_ running.
Proof.
  destruct (change_key_installs pw running) as (Hdone & _).
  destruct (Hdone changed) as (Hkey & Hp & _).
  - apply (get_Done running). run.
  - exact (conj Hkey Hp).
Defined.

(** X18 on the encrypted log, loaded with its password. *)
Lemma load_finish_clean_witness :
  exists b',
    load_finish Callback_set (exit_state (loop_exit pw no_key encrypted_start))
    = Done (Status_OK, b')
    /\ fs b' = fs (exit_state (loop_exit pw no_key encrypted_start))
    /\ db_key_used_ b'
       = db_key_used_ (exit_state (loop_exit pw no_key encrypted_start))
    /\ state_ b' = Run.
Proof.
  destruct (load_finish_clean Callback_set
              (exit_state (loop_exit pw no_key encrypted_start))
              (live_of (exit_state (loop_exit pw no_key encrypted_start)))
              (fd_of (exit_state (loop_exit pw no_key encrypted_start))))
    as (Hclean & _).
  - apply (default_Some BinlogEventsProcessor_new). run.
  - apply (default_Some 0%nat). run.
  - run.
  - destruct Hclean as (b' & Hdone & Hfs & Hused & _ & Hrun & _); [run |].
    exists b'. exact (conj Hdone (conj Hfs (conj Hused Hrun))).
Defined.

(** X19 on the encrypted log, loaded with another password. *)
Lemma load_early_return_witness :
  load_binlog 20 Callback_set Callback_set
    (opened other_pw no_key encrypted_start)
  = Done (Status_OK, exit_state (loop_exit other_pw no_key encrypted_start))
  /\ callback_calls (exit_state (loop_exit other_pw no_key encrypted_start))
     = callback_calls (opened other_pw no_key encrypted_start)
  /\ state_ (exit_state (loop_exit other_pw no_key encrypted_start)) = Load.
Proof.
  destruct (load_early_return 20 Callback_set Callback_set
              (opened other_pw no_key encrypted_start)
              (loading other_pw no_key encrypted_start) Status_OK
              (exit_state (loop_exit other_pw no_key encrypted_start)))
    as (Hdone & Hcalls & Hload & _).
  - apply (get_Done encrypted_start). run.
  - apply (get_Done_returned (Broken encrypted_start)); run.
  - exact (conj Hdone (conj Hcalls Hload)).
Defined.

(** X20 on the encrypted log, opened with another password and with its
    own. *)
Lemma init_opens_or_closes_witness :
  (fd_ (initialised other_pw no_key encrypted_start) = None
   /\ is_opened (info_ (initialised other_pw no_key encrypted_start)) = false)
  /\ is_opened (info_ (initialised pw no_key encrypted_start)) = true
  /\ state_ (initialised pw no_key encrypted_start) = Run.
Proof.
  destruct (init_opens_or_closes 20 "log" Callback_set other_pw no_key
              Callback_set encrypted_start wrong_password_status
              (initialised other_pw no_key encrypted_start))
    as (_ & Hclosed & _).
  { apply (get_Done_pair (Status_OK, encrypted_start)); run. }
  destruct (init_opens_or_closes 20 "log" Callback_set pw no_key
              Callback_set encrypted_start Status_OK
              (initialised pw no_key encrypted_start))
    as (_ & _ & Hopen).
  { apply (get_Done_pair (Status_OK, encrypted_start)); run. }
  destruct (Hopen eq_refl) as (_ & Hopened & Hrun & _).
  exact (conj (Hclosed eq_refl) (conj Hopened Hrun)).
Defined.

(** X21 on an event given to the running engine. *)
Lemma do_event_plain_witness :
  do_event (event 3 7 0 [x63]) running
  = Done ((replayed (event 3 7 0 [x63]) (live_of running)).1,
          set_processor_
            (Some (replayed (event 3 7 0 [x63]) (live_of running)).2)
            (write_event running (event 3 7 0 [x63]))).
Proof.
  destruct (do_event_plain (event 3 7 0 [x63]) running (live_of running)
              (replayed (event 3 7 0 [x63]) (live_of running)).1
              (replayed (event 3 7 0 [x63]) (live_of running)).2)
    as (_ & Hrun).
  - run.
  - apply (default_Some BinlogEventsProcessor_new). run.
  - apply (get_Done_both (BinlogEvent_default, BinlogEventsProcessor_new)).
    run.
  - destruct Hrun as (Hdone & _); [run |]. exact Hdone.
Defined.

(** X23 on the torn log: the Partial event 3 is still queued when [init]
    is done, and the event 4 sends it to the processor before itself. *)
Lemma pending_events_survive_load_witness :
  pending_events_ torn_opened = pending_events_ torn_exit
  /\ map id_ (pending_events_ torn_opened) = [3]
  /\ exists p',
       processor_add_events
         (pending_events_ torn_exit ++ [event 4 7 0 [x64]])
         (live_of torn_opened)
       = Done p'
       /\ processor_ torn_committed = Some p'
       /\ map id_ (processor_events p') = [1; 3; 4].
Proof.
  destruct (pending_events_survive_load Callback_set torn_exit Status_OK
              torn_loaded Status_OK torn_opened)
    as (_ & Hkept & Hcommit).
  - apply (get_Done_pair (Status_OK, torn_exit)); run.
  - apply (get_Done_pair (Status_OK, torn_loaded)); run.
  - split; [exact Hkept |]. split; [run |].
    destruct (Hcommit (event 4 7 0 [x64]) (live_of torn_opened) torn_committed)
      as (p' & Hfed & Hp' & _).
    + run.
    + apply (default_Some BinlogEventsProcessor_new). run.
    + apply (get_Done torn_opened). run.
    + assert (processor_ torn_committed = Some (live_of torn_committed))
        as Hlive.
      { apply (default_Some BinlogEventsProcessor_new). run. }
      assert (p' = live_of torn_committed) as Hsame by congruence.
      exists p'. split; [exact Hfed |]. split; [exact Hp' |].
      rewrite Hsame. run.
Defined.

(** X24 on the last record of the torn log. *)
Lemma read_next_refused_record_witness :
  detail.rn_result
    (detail.read_next detail.BinlogReader_default torn_record
       BinlogEvent_default)
  = Err bad_crc
  /\ detail.rn_input
       (detail.read_next detail.BinlogReader_default torn_record
          BinlogEvent_default)
     = []
  /\ detail.offset_
       (detail.rn_reader
          (detail.read_next detail.BinlogReader_default torn_record
             BinlogEvent_default))
     = 0.
Proof.
  pose proof (read_next_refused_record detail.BinlogReader_default
                torn_record BinlogEvent_default) as Hrefused.
  cbv zeta in Hrefused.
  destruct Hrefused as (Hres & Hin & _ & Hoff & _).
  - reflexivity.
  - computed.
  - computed.
  - computed.
  - run.
  - split; [| split].
    + rewrite Hres. run.
    + rewrite Hin. run.
    + exact Hoff.
Defined.

(** X25 on the key record of the encrypted log, met in a reindex with
    one event in the buffer. *)
Lemma key_record_switches_writer_witness :
  exists b',
    do_event_encryption (first_event pw no_key encrypted_start) rewriting
    = Done b'
    /\ fd_output_reader_ b' = OutputByteFlowSink
    /\ byte_flow_sink_ b' = []
    /\ buffer_reader_ b' = []
    /\ db_key_used_ b' = true.
Proof.
  pose proof (key_record_switches_writer
                (first_event pw no_key encrypted_start) rewriting
                (get []
                   (candidate_key
                      (detail.parse
                         (data_ (first_event pw no_key encrypted_start)))
                      rewriting)))
    as Hswitch.
  cbv zeta in Hswitch.
  destruct Hswitch as (_ & Hafter).
  - run.
  - apply (get_Done []). run.
  - run.
  - computed.
  - computed.
  - assert (do_event_encryption (first_event pw no_key encrypted_start)
              rewriting
            = Done (get rewriting
                      (do_event_encryption
                         (first_event pw no_key encrypted_start) rewriting)))
      as Hdone by (apply get_Done; run).
    destruct (Hafter _ Hdone)
      as (Hout & _ & Hsink & _ & _ & Hused & _ & _ & Hread).
    eexists.
    refine (conj Hdone (conj Hout (conj Hsink (conj (Hread _) Hused)))).
    run.
Defined.

End Runs.
